(** * Monsti daemon: the RPC service core ([core/monsti-daemon/service.go])

    A shallow embedding of the daemon's service object: the node type
    registry, the file backed node store, the configuration lookup and the
    signal bus, followed by the properties of the specification that were
    checked against it. *)

From Stdlib Require Import ZArith Ascii String List Lia.
From stdpp Require Import base option list strings gmap fin_maps.

Local Open Scope string_scope.
Local Open Scope list_scope.

(** ** Results of Go calls

    A Go method of the service returns an [error]; a run time panic (index
    out of range, write to a nil map, nil dereference) is a third outcome,
    which neither returns a value nor an error. *)

Inductive outcome (A : Type) : Type :=
| Ok (a : A)
| Err (msg : string)
| Panic (why : string).

Arguments Ok {A} a.
Arguments Err {A} msg.
Arguments Panic {A} why.

Definition bind {A B} (m : outcome A) (f : A -> outcome B) : outcome B :=
  match m with
  | Ok a => f a
  | Err e => Err e
  | Panic w => Panic w
  end.

Notation "'let!' x ':=' m 'in' k" := (bind m (fun x => k))
  (at level 10, x name, m at level 100, k at level 200,
   format "'[v' 'let!'  x  :=  m  'in' '/' k ']'").

Definition returns {A} (m : outcome A) : Prop :=
  match m with Panic _ => False | _ => True end.

Definition succeeds {A} (m : outcome A) : Prop :=
  match m with Ok _ => True | _ => False end.

(** ** Go strings

    A Go string is a sequence of bytes; [len], indexing and slicing count
    bytes, and both indexing and slicing panic out of range. *)

Module GoString.

Definition len (s : string) : Z := Z.of_nat (String.length s).

(** [s[i]] *)
Definition index (s : string) (i : Z) : outcome ascii :=
  if (i <? 0)%Z then Panic "index out of range"
  else match String.get (Z.to_nat i) s with
       | Some c => Ok c
       | None => Panic "index out of range"
       end.

(** [s[lo:hi]] *)
Definition slice (s : string) (lo hi : Z) : outcome string :=
  if ((0 <=? lo) && (lo <=? hi) && (hi <=? len s))%Z
  then Ok (String.substring (Z.to_nat lo) (Z.to_nat (hi - lo)) s)
  else Panic "slice bounds out of range".

(** [strings.SplitN(s, sep, 2)] for a one byte separator: at most two
    parts, cut at the first separator. *)
Fixpoint cut (sep : ascii) (s : string) : option (string * string) :=
  match s with
  | EmptyString => None
  | String c r =>
      if decide (c = sep) then Some (EmptyString, r)
      else match cut sep r with
           | Some (a, b) => Some (String c a, b)
           | None => None
           end
  end.

Definition SplitN2 (s : string) (sep : ascii) : list string :=
  match cut sep s with
  | Some (a, b) => [a; b]
  | None => [s]
  end.

(** [strings.Split(s, sep)] for a one byte separator. *)
Fixpoint Split (s : string) (sep : ascii) : list string :=
  match s with
  | EmptyString => [EmptyString]
  | String c r =>
      if decide (c = sep) then EmptyString :: Split r sep
      else match Split r sep with
           | p :: ps => String c p :: ps
           | [] => [String c EmptyString]
           end
  end.

Fixpoint drop (n : nat) (s : string) : string :=
  match n, s with
  | S n', String _ r => drop n' r
  | _, _ => s
  end.

Fixpoint contains (sep : ascii) (s : string) : bool :=
  match s with
  | EmptyString => false
  | String c r => if decide (c = sep) then true else contains sep r
  end.

End GoString.

(** ** Node types and fields ([api/service])

    The daemon holds node types and field definitions through pointers;
    [loc] is the type of these pointers. *)

Definition loc := nat.

(** Modelled from the spec: the field type tags of [api/service] (text,
    HTML, reference to a node, file), a package outside the daemon. *)
Inductive FieldType : Type :=
| TextFieldType | HTMLFieldType | RefFieldType | FileFieldType.

Module FieldConfig.
(** Modelled from the spec: [service.FieldConfig] is declared in
    [api/service], outside the daemon; the fields are the ones
    [RegisterNodeType] and [initNodeTypes] use: id, required flag,
    display name per locale and field type. *)
Record t : Type := mk {
  Id : string;
  Required : bool;
  Name : list (string * string);
  Type_ : option FieldType
}.
End FieldConfig.

Module NodeType.
(** Modelled from the spec: [service.NodeType] is declared in
    [api/service], outside the daemon; the fields are the ones the
    daemon and [initNodeTypes] use: id, [Hide] flag, [AddableTo] patterns,
    display name per locale and the list of field references
    ([[]*service.FieldConfig], pointers). *)
Record t : Type := mk {
  Id : string;
  Hide : bool;
  AddableTo : list string;
  Name : list (string * string);
  Fields : list loc
}.

Definition with_Fields (n : t) (fs : list loc) : t :=
  mk (Id n) (Hide n) (AddableTo n) (Name n) fs.
End NodeType.

(** ** [findAddableNodeTypes] *)

(** The condition of the inner [if], with Go's short circuit evaluation. *)
Definition addableCond (nodeType addableTo : string) : outcome bool :=
  if decide (addableTo = ".") then Ok true
  else if decide (addableTo = nodeType) then Ok true
  else
    let! c := GoString.index addableTo (GoString.len addableTo - 1) in
    if decide (c = "."%char) then
      let! p := GoString.slice nodeType 0 (GoString.len addableTo) in
      Ok (bool_decide (p = addableTo))
    else Ok false.

(** The inner loop over [otherNodeType.AddableTo]: stops at the first
    match. *)
Fixpoint anyAddable (nodeType : string) (addableTo : list string)
  : outcome bool :=
  match addableTo with
  | [] => Ok false
  | a :: rest =>
      let! b := addableCond nodeType a in
      if b then Ok true else anyAddable nodeType rest
  end.

(** The outer loop.  Go leaves the order in which [range] visits a map
    unspecified, so the loop runs over the entries in an order [order]
    chosen by the run time. *)
Fixpoint findAddableLoop (nodeType : string) (order : list NodeType.t)
    (types : list string) : outcome (list string) :=
  match order with
  | [] => Ok types
  | other :: rest =>
      let! b := anyAddable nodeType (NodeType.AddableTo other) in
      findAddableLoop nodeType rest
        (if b then types ++ [NodeType.Id other] else types)
  end.

Definition findAddableNodeTypes (nodeType : string) (order : list NodeType.t)
  : outcome (list string) :=
  findAddableLoop nodeType order [].

(** ** The service object and the objects it points to

    [MonstiService] holds Go maps, which are [nil] until made: reading a
    [nil] map finds nothing, writing to it panics.  The registry maps hold
    pointers, so node types and field definitions live in a heap shared
    with whoever else holds the pointers. *)

Definition gomap (V : Type) : Type := option (gmap string V).

(** [v, ok := m[k]] *)
Definition mapGet {V} (m : gomap V) (k : string) : option V :=
  match m with
  | Some g => g !! k
  | None => None
  end.

(** [m[k] = v] *)
Definition mapSet {V} (m : gomap V) (k : string) (v : V)
  : outcome (gomap V) :=
  match m with
  | Some g => Ok (Some (<[k := v]> g))
  | None => Panic "assignment to entry in nil map"
  end.

Definition chan := nat.

Record Config : Type := mkConfig {
  NodeTypes : gomap loc;
  NodeFields : gomap loc
}.

Record MonstiService : Type := mkService {
  (** [Services] maps service names to service paths. *)
  Services : gomap (list string);
  (** [Settings.Config] *)
  Settings_Config : Config;
  subscriptions : gomap (list string);
  subscriber : gomap chan;
  subscriberRet : gomap chan
}.

Record state : Type := mkState {
  typeObjs : gmap loc NodeType.t;
  fieldObjs : gmap loc FieldConfig.t;
  (** channels made so far; [make(chan ...)] returns the next one *)
  nchan : nat;
  svc : MonstiService
}.

Definition set_Services (v : gomap (list string)) (m : MonstiService) :=
  mkService v (Settings_Config m) (subscriptions m) (subscriber m)
    (subscriberRet m).
Definition set_Config (v : Config) (m : MonstiService) :=
  mkService (Services m) v (subscriptions m) (subscriber m) (subscriberRet m).
Definition set_subscriptions (v : gomap (list string)) (m : MonstiService) :=
  mkService (Services m) (Settings_Config m) v (subscriber m)
    (subscriberRet m).
Definition set_subscriber (v : gomap chan) (m : MonstiService) :=
  mkService (Services m) (Settings_Config m) (subscriptions m) v
    (subscriberRet m).
Definition set_subscriberRet (v : gomap chan) (m : MonstiService) :=
  mkService (Services m) (Settings_Config m) (subscriptions m) (subscriber m)
    v.

Definition with_svc (f : MonstiService -> MonstiService) (st : state) :=
  mkState (typeObjs st) (fieldObjs st) (nchan st) (f (svc st)).
Definition set_typeObjs (v : gmap loc NodeType.t) (st : state) :=
  mkState v (fieldObjs st) (nchan st) (svc st).
Definition set_nchan (v : nat) (st : state) :=
  mkState (typeObjs st) (fieldObjs st) v (svc st).

Definition config (st : state) : Config := Settings_Config (svc st).
Definition set_NodeTypes (v : gomap loc) (st : state) :=
  with_svc (set_Config (mkConfig v (NodeFields (config st)))) st.
Definition set_NodeFields (v : gomap loc) (st : state) :=
  with_svc (set_Config (mkConfig (NodeTypes (config st)) v)) st.

(** ** [fmt] verbs

    [%v] prints a string as it is.  [%q] is [strconv.Quote]: the model is
    exact on bytes below 0x80; bytes from 0x80 on are kept, as Go keeps the
    bytes of well formed printable UTF-8 (it escapes the others, which the
    model leaves out). *)

Module Fmt.

Definition hexDigit (n : N) : ascii :=
  match String.get (N.to_nat n) "0123456789abcdef" with
  | Some c => c
  | None => "0"%char
  end.

Definition dquote : ascii := ascii_of_nat 34.
Definition backslash : ascii := ascii_of_nat 92.

Definition esc (c : ascii) : string :=
  String backslash (String c EmptyString).

Definition quoteByte (c : ascii) : string :=
  let n := N_of_ascii c in
  if decide (c = dquote) then esc c
  else if decide (c = backslash) then esc c
  else if ((32 <=? n) && (n <? 127))%N then String c EmptyString
  else if (128 <=? n)%N then String c EmptyString
  else if (n =? 7)%N then esc "a"
  else if (n =? 8)%N then esc "b"
  else if (n =? 12)%N then esc "f"
  else if (n =? 10)%N then esc "n"
  else if (n =? 13)%N then esc "r"
  else if (n =? 9)%N then esc "t"
  else if (n =? 11)%N then esc "v"
  else String backslash (String "x"%char
         (String (hexDigit (n / 16)) (String (hexDigit (n mod 16))
            EmptyString))).

Fixpoint quoteBody (s : string) : string :=
  match s with
  | EmptyString => EmptyString
  | String c r => quoteByte c +:+ quoteBody r
  end.

Definition q (s : string) : string :=
  String dquote (quoteBody s +:+ String dquote EmptyString).

(** A text between double quotes, as it stands in a format string. *)
Definition quoted (s : string) : string :=
  String dquote (s +:+ String dquote EmptyString).

End Fmt.

(** ** The node type registry *)

(** A method that mutates the service returns its result together with the
    state it leaves behind. *)
Definition M (A : Type) : Type := state -> outcome A * state.

(** [nodeType.Fields[i] = existing], through the pointer [p]. *)
Definition setField (p : loc) (i : nat) (existing : loc) (st : state)
  : state :=
  set_typeObjs
    (alter (fun n => NodeType.with_Fields n (<[i := existing]> (NodeType.Fields n)))
       p (typeObjs st)) st.

(** The loop [for i, field := range nodeType.Fields] of [RegisterNodeType],
    from index [i] on. *)
Fixpoint registerFields (p : loc) (i : nat) (fields : list loc) : M unit :=
  fun st =>
    match fields with
    | [] => (Ok tt, st)
    | field :: rest =>
        match fieldObjs st !! field with
        | None => (Panic "nil pointer dereference", st)
        | Some f =>
            match mapGet (NodeFields (config st)) (FieldConfig.Id f) with
            | Some existing =>
                registerFields p (S i) rest (setField p i existing st)
            | None =>
                match mapSet (NodeFields (config st)) (FieldConfig.Id f) field with
                | Ok fs => registerFields p (S i) rest (set_NodeFields fs st)
                | Err e => (Err e, st)
                | Panic w => (Panic w, st)
                end
            end
        end
    end.

Definition RegisterNodeType (nodeType : loc) : M unit :=
  fun st =>
    match typeObjs st !! nodeType with
    | None => (Panic "nil pointer dereference", st)
    | Some nt =>
        match mapGet (NodeTypes (config st)) (NodeType.Id nt) with
        | Some _ =>
            (Err ("Node type with id " +:+ NodeType.Id nt +:+
                  " does already exist"), st)
        | None =>
            let st1 :=
              match NodeTypes (config st) with
              | None =>
                  set_NodeFields (Some ∅) (set_NodeTypes (Some ∅) st)
              | Some _ => st
              end in
            match mapSet (NodeTypes (config st1)) (NodeType.Id nt) nodeType with
            | Ok ts =>
                registerFields nodeType 0 (NodeType.Fields nt)
                  (set_NodeTypes ts st1)
            | Err e => (Err e, st1)
            | Panic w => (Panic w, st1)
            end
        end
    end.

Definition GetNodeType (nodeTypeID : string) (st : state)
  : outcome NodeType.t :=
  match mapGet (NodeTypes (config st)) nodeTypeID with
  | Some p =>
      match typeObjs st !! p with
      | Some nt => Ok nt
      | None => Panic "nil pointer dereference"
      end
  | None => Err ("Unknown node type " +:+ Fmt.q nodeTypeID)
  end.

(** The node types behind the pointers [ps]. *)
Fixpoint derefTypes (st : state) (ps : list loc) : outcome (list NodeType.t) :=
  match ps with
  | [] => Ok []
  | p :: rest =>
      match typeObjs st !! p with
      | Some nt => let! nts := derefTypes st rest in Ok (nt :: nts)
      | None => Panic "nil pointer dereference"
      end
  end.

(** What a Go map holds: a [nil] map holds nothing. *)
Definition entries {V} (m : gomap V) : gmap string V := default ∅ m.

(** [order] is an order in which [range] may visit the entries of [m]. *)
Definition rangeOrder {V} (m : gomap V) (order : list (string * V)) : Prop :=
  order ≡ₚ map_to_list (entries m).

(** [order] is the order in which [range] visits [NodeTypes]; the [Site]
    argument is not used. *)
Definition GetAddableNodeTypes (site nodeType : string)
    (order : list (string * loc)) (st : state) : outcome (list string) :=
  let! nts := derefTypes st (order.*2) in
  findAddableNodeTypes nodeType nts.

(** ** [PublishService] *)

(** A statement either returns from the method or falls through to the
    next statement. *)
Inductive flow (A : Type) : Type :=
| Returned (r : outcome A)
| FallsThrough.

Arguments Returned {A} r.
Arguments FallsThrough {A}.

(** [switch v { case c: ...; default: ... }] *)
Fixpoint switch {A} (v : string) (cases : list (string * flow A))
    (default : flow A) : flow A :=
  match cases with
  | [] => default
  | (c, body) :: rest =>
      if decide (v = c) then body else switch v rest default
  end.

Definition PublishService (service path : string) : M unit :=
  fun st =>
    let st1 :=
      match Services (svc st) with
      | None => with_svc (set_Services (Some ∅)) st
      | Some _ => st
      end in
    match
      switch service []
        (Returned (Err ("Unknown service type " +:+ service)))
    with
    | Returned r => (r, st1)
    | FallsThrough =>
        let paths := default [] (mapGet (Services (svc st1)) service) in
        match mapSet (Services (svc st1)) service (paths ++ [path]) with
        | Ok s => (Ok tt, with_svc (set_Services s) st1)
        | Err e => (Err e, st1)
        | Panic w => (Panic w, st1)
        end
    end.

(** ** Paths ([path/filepath], Unix) *)

Module Filepath.

Definition elems (p : string) : list string := GoString.Split p "/".

Definition rooted (p : string) : bool :=
  match p with
  | String "/" _ => true
  | _ => false
  end.

(** The lexical rewriting of [Clean]; [acc] is the cleaned prefix,
    last element first. *)
Fixpoint cleanElems (root : bool) (acc : list string) (es : list string)
  : list string :=
  match es with
  | [] => rev acc
  | e :: rest =>
      if decide (e = "") then cleanElems root acc rest
      else if decide (e = ".") then cleanElems root acc rest
      else if decide (e = "..") then
        match acc with
        | top :: acc' =>
            if decide (top = "..") then cleanElems root (e :: acc) rest
            else cleanElems root acc' rest
        | [] =>
            if root then cleanElems root [] rest
            else cleanElems root [e] rest
        end
      else cleanElems root (e :: acc) rest
  end.

Definition Clean (p : string) : string :=
  let body := String.concat "/" (cleanElems (rooted p) [] (elems p)) in
  if rooted p then "/" +:+ body
  else if decide (body = "") then "." else body.

Definition Join (parts : list string) : string :=
  match filter (fun e => e <> "") parts with
  | [] => ""
  | ne => Clean (String.concat "/" ne)
  end.

(** The text up to and including the last separator. *)
Fixpoint dirPart (p : string) : string :=
  match p with
  | EmptyString => EmptyString
  | String c r =>
      if GoString.contains "/" p then String c (dirPart r)
      else EmptyString
  end.

Definition Dir (p : string) : string := Clean (dirPart p).

End Filepath.

(** ** The file system

    A tree of directories and files.  Paths are resolved from the root of
    the tree; the entries of a directory are kept in the order in which
    [ReadDir] lists them (by name).  [Faulty] is a file whose reading fails
    with the given error after yielding [partial] ([None] when it cannot
    even be opened). *)

Inductive errno : Type := ENOENT | ENOTDIR | EISDIR | EACCES | EIO.

Global Instance errno_eq_dec : EqDecision errno.
Proof. solve_decision. Defined.

Record PathError : Type := mkPathError {
  Op : string;
  Path : string;
  Errno : errno
}.

(** [os.IsNotExist] *)
Definition IsNotExist (err : option PathError) : bool :=
  match err with
  | Some e => bool_decide (Errno e = ENOENT)
  | None => false
  end.

Definition errnoText (e : errno) : string :=
  match e with
  | ENOENT => "no such file or directory"
  | ENOTDIR => "not a directory"
  | EISDIR => "is a directory"
  | EACCES => "permission denied"
  | EIO => "input/output error"
  end.

(** [%v] of an [*os.PathError] *)
Definition errorText (e : PathError) : string :=
  Op e +:+ " " +:+ Path e +:+ ": " +:+ errnoText (Errno e).

#[warnings="-register-all"]
Inductive tree : Type :=
| File (content : string)
| Faulty (partial : option string) (e : errno)
| Dir (entries : list (string * tree)).

Record FileInfo : Type := mkFileInfo {
  FileName : string;
  IsDir : bool
}.

Module FS.

Fixpoint assoc (name : string) (es : list (string * tree)) : option tree :=
  match es with
  | [] => None
  | (n, t) :: rest => if decide (n = name) then Some t else assoc name rest
  end.

(** Replace the entry [name], or add it at its place in name order. *)
Fixpoint put (name : string) (t : tree) (es : list (string * tree))
  : list (string * tree) :=
  match es with
  | [] => [(name, t)]
  | (n, u) :: rest =>
      if decide (n = name) then (name, t) :: rest
      else if String.ltb name n then (name, t) :: (n, u) :: rest
      else (n, u) :: put name t rest
  end.

(** The steps from the root of the tree to a path.  The daemon hands
    cleaned paths to the file system, and a cleaned rooted path has only
    names as elements; what a relative path names depends on the directory
    of the process, which the tree does not hold, so the properties that
    depend on where a path leads are stated for rooted paths. *)
Definition steps (path : string) : list string :=
  filter (fun e => e <> "") (Filepath.elems path).

Fixpoint walk (p : list string) (t : tree) : errno + tree :=
  match p with
  | [] => inr t
  | c :: p' =>
      match t with
      | Dir es =>
          match assoc c es with
          | Some t' => walk p' t'
          | None => inl ENOENT
          end
      | _ => inl ENOTDIR
      end
  end.

(** [ioutil.ReadFile]: the bytes read and the error. *)
Definition ReadFile (fs : tree) (path : string)
  : option string * option PathError :=
  match walk (steps path) fs with
  | inr (File c) => (Some c, None)
  | inr (Faulty partial e) =>
      (partial,
       Some (mkPathError
               (match partial with Some _ => "read" | None => "open" end)
               path e))
  | inr (Dir _) => (Some "", Some (mkPathError "read" path EISDIR))
  | inl e => (None, Some (mkPathError "open" path e))
  end.

Definition info (e : string * tree) : FileInfo :=
  mkFileInfo e.1 (match e.2 with Dir _ => true | _ => false end).

(** [ioutil.ReadDir] *)
Definition ReadDir (fs : tree) (path : string)
  : list FileInfo * option PathError :=
  match walk (steps path) fs with
  | inr (Dir es) => (info <$> es, None)
  | inr _ => ([], Some (mkPathError "readdirent" path ENOTDIR))
  | inl e => ([], Some (mkPathError "open" path e))
  end.

Fixpoint mkdirAll (p : list string) (t : tree) : errno + tree :=
  match p with
  | [] => match t with Dir _ => inr t | _ => inl ENOTDIR end
  | c :: p' =>
      match t with
      | Dir es =>
          match mkdirAll p' (default (Dir []) (assoc c es)) with
          | inr t' => inr (Dir (put c t' es))
          | inl e => inl e
          end
      | _ => inl ENOTDIR
      end
  end.

(** [os.MkdirAll] *)
Definition MkdirAll (fs : tree) (path : string) : option PathError * tree :=
  match mkdirAll (steps path) fs with
  | inr fs' => (None, fs')
  | inl e => (Some (mkPathError "mkdir" path e), fs)
  end.

(** Whether a file can be written does not follow from whether it can
    be read: the write of a file that cannot be read goes through, as for
    a file that may only be written, and the file cannot be read
    afterwards either. *)
Fixpoint writeFile (p : list string) (content : string) (t : tree)
  : errno + tree :=
  match p with
  | [] => inl EISDIR
  | c :: p' =>
      match t with
      | Dir es =>
          match p' with
          | [] =>
              match assoc c es with
              | Some (Dir _) => inl EISDIR
              | Some (Faulty _ e) => inr (Dir (put c (Faulty None e) es))
              | _ => inr (Dir (put c (File content) es))
              end
          | _ =>
              match assoc c es with
              | Some t' =>
                  match writeFile p' content t' with
                  | inr t'' => inr (Dir (put c t'' es))
                  | inl e => inl e
                  end
              | None => inl ENOENT
              end
          end
      | _ => inl ENOTDIR
      end
  end.

(** [ioutil.WriteFile] *)
Definition WriteFile (fs : tree) (path content : string)
  : option PathError * tree :=
  match writeFile (steps path) content fs with
  | inr fs' => (None, fs')
  | inl e => (Some (mkPathError "open" path e), fs)
  end.

End FS.

(** ** The node store *)

Module Bytes.

(** [bytes.Replace(s, old, new, 1)]: the first instance of [old] is
    replaced; without an instance the result is a copy of [s], which for
    an empty [s] is the [nil] slice. *)
Fixpoint replaceFirst (old new s : string) : option string :=
  if String.prefix old s
  then Some (new +:+ GoString.drop (String.length old) s)
  else match s with
       | EmptyString => None
       | String c r => String c <$> replaceFirst old new r
       end.

Definition Replace1 (s old new : string) : option string :=
  match replaceFirst old new s with
  | Some r => Some r
  | None => if decide (s = "") then None else Some s
  end.

End Bytes.

(** [fmt.Sprintf(`{"Path":%q,`, path)] *)
Definition pathJSON (path : string) : string :=
  "{" +:+ Fmt.quoted "Path" +:+ ":" +:+ Fmt.q path +:+ ",".

(** [fmt.Sprintf(`{"Path":%q,"Type":"core.Path"}`, path)] *)
Definition placeholderJSON (path : string) : string :=
  "{" +:+ Fmt.quoted "Path" +:+ ":" +:+ Fmt.q path +:+ "," +:+
  Fmt.quoted "Type" +:+ ":" +:+ Fmt.quoted "core.Path" +:+ "}".

(** The functions with two results return the pair [(value, err)]; the
    [Ok] of [outcome] then only says that the call did not panic. *)
Definition getNode (fs : tree) (root path : string)
  : outcome (option string * option PathError) :=
  let! rest := GoString.slice path 1 (GoString.len path) in
  let node_path := Filepath.Join [root; rest; "node.json"] in
  let '(node, err) := FS.ReadFile fs node_path in
  if IsNotExist err then Ok (None, None)
  else match err with
       | Some _ => Ok (node, err)
       | None =>
           Ok (Bytes.Replace1 (default "" node) "{" (pathJSON path), None)
       end.

(** The loop of [getChildren].  [err] is the variable of that name of the
    function, the only one the loop tests: the error of [getNode] is
    assigned to the blank identifier. *)
Fixpoint getChildrenLoop (fs : tree) (root path : string)
    (err : option PathError) (files : list FileInfo) (nodes : list string)
  : outcome (list string * option PathError) :=
  match files with
  | [] => Ok (nodes, err)
  | file :: rest =>
      let! r := getNode fs root (Filepath.Join [path; FileName file]) in
      let node := r.1 in
      match err with
      | Some _ => Ok ([], err)
      | None =>
          match node with
          | Some n => getChildrenLoop fs root path err rest (nodes ++ [n])
          | None =>
              if IsDir file then
                getChildrenLoop fs root path err rest
                  (nodes ++
                     [placeholderJSON (Filepath.Join [path; FileName file])])
              else getChildrenLoop fs root path err rest nodes
          end
      end
  end.

Definition getChildren (fs : tree) (root path : string)
  : outcome (list string * option PathError) :=
  let '(files, err) := FS.ReadDir fs (Filepath.Join [root; path]) in
  match err with
  | Some _ => Ok ([], err)
  | None => getChildrenLoop fs root path err files []
  end.

Section NodeStore.

(** [Settings.Monsti.GetSiteNodesPath]: the resolution of a site to its
    directory of nodes is not part of the daemon's service file. *)
Variable GetSiteNodesPath : string -> string.

Definition GetChildren (fs : tree) (Site Path : string)
  : outcome (list string * option PathError) :=
  getChildren fs (GetSiteNodesPath Site) Path.

Definition GetNode (fs : tree) (Site Path : string)
  : outcome (option string * option PathError) :=
  getNode fs (GetSiteNodesPath Site) Path.

Definition WriteNodeData (Site Path File_ Content : string) (fs : tree)
  : outcome unit * tree :=
  let site := GetSiteNodesPath Site in
  match GoString.slice Path 1 (GoString.len Path) with
  | Panic w => (Panic w, fs)
  | Err e => (Err e, fs)
  | Ok rest =>
      let path := Filepath.Join [site; rest; File_] in
      match FS.MkdirAll fs (Filepath.Dir path) with
      | (Some err, fs1) =>
          (Err ("Could not create node directory: " +:+ errorText err), fs1)
      | (None, fs1) =>
          match FS.WriteFile fs1 path Content with
          | (Some err, fs2) =>
              (Err ("Could not write node data: " +:+ errorText err), fs2)
          | (None, fs2) => (Ok tt, fs2)
          end
      end
  end.

End NodeStore.

(** ** JSON documents

    What [json.Unmarshal] stores into an [interface{}]: [nil], a bool, a
    number, a string, a slice or a map.  An object keeps its members in
    the order of the text; a number keeps its literal. *)

#[warnings="-register-all"]
Inductive json : Type :=
| JNull
| JBool (b : bool)
| JNumber (literal : string)
| JString (s : string)
| JArray (items : list json)
| JObject (members : list (string * json)).

Module JSON.

(** [v, ok := m[key]] on the map made from an object: of two members of
    the same name the later one is kept. *)
Fixpoint get (key : string) (ms : list (string * json)) : option json :=
  match ms with
  | [] => None
  | (k, v) :: rest =>
      match get key rest with
      | Some v' => Some v'
      | None => if decide (k = key) then Some v else None
      end
  end.

(** *** A reader for the grammar of RFC 8259 *)

Definition isWs (c : ascii) : bool :=
  let n := N_of_ascii c in
  ((n =? 32) || (n =? 9) || (n =? 10) || (n =? 13))%N.

Fixpoint skipWs (s : string) : string :=
  match s with
  | String c r => if isWs c then skipWs r else s
  | EmptyString => s
  end.

Definition isDigit (c : ascii) : bool :=
  let n := N_of_ascii c in ((48 <=? n) && (n <=? 57))%N.

Definition hexVal (c : ascii) : option N :=
  let n := N_of_ascii c in
  if ((48 <=? n) && (n <=? 57))%N then Some (n - 48)%N
  else if ((97 <=? n) && (n <=? 102))%N then Some (n - 87)%N
  else if ((65 <=? n) && (n <=? 70))%N then Some (n - 55)%N
  else None.

(** UTF-8 of a code point of the basic plane (surrogates are not
    paired). *)
Definition utf8 (n : N) : string :=
  let b (k : N) := String (ascii_of_N k) EmptyString in
  if (n <? 128)%N then b n
  else if (n <? 2048)%N then b (192 + n / 64)%N +:+ b (128 + n mod 64)%N
  else b (224 + n / 4096)%N +:+ b (128 + (n / 64) mod 64)%N
       +:+ b (128 + n mod 64)%N.

Definition unescape (c : ascii) : option ascii :=
  if decide (c = Fmt.dquote) then Some c
  else if decide (c = Fmt.backslash) then Some c
  else if decide (c = "/"%char) then Some c
  else if decide (c = "b"%char) then Some (ascii_of_nat 8)
  else if decide (c = "f"%char) then Some (ascii_of_nat 12)
  else if decide (c = "n"%char) then Some (ascii_of_nat 10)
  else if decide (c = "r"%char) then Some (ascii_of_nat 13)
  else if decide (c = "t"%char) then Some (ascii_of_nat 9)
  else None.

Definition consTo (p : string) (r : option (string * string))
  : option (string * string) :=
  match r with
  | Some (s, rest) => Some (p +:+ s, rest)
  | None => None
  end.

(** The text after an opening quote, up to the closing one. *)
Fixpoint stringBody (s : string) : option (string * string) :=
  match s with
  | EmptyString => None
  | String c r =>
      if decide (c = Fmt.dquote) then Some (EmptyString, r)
      else if decide (c = Fmt.backslash) then
        match r with
        | String e r' =>
            if decide (e = "u"%char) then
              match r' with
              | String h1 (String h2 (String h3 (String h4 r''))) =>
                  match hexVal h1, hexVal h2, hexVal h3, hexVal h4 with
                  | Some a, Some b, Some c', Some d =>
                      consTo (utf8 (((a * 16 + b) * 16 + c') * 16 + d)%N)
                        (stringBody r'')
                  | _, _, _, _ => None
                  end
              | _ => None
              end
            else
              match unescape e with
              | Some x => consTo (String x EmptyString) (stringBody r')
              | None => None
              end
        | EmptyString => None
        end
      else if (N_of_ascii c <? 32)%N then None
      else consTo (String c EmptyString) (stringBody r)
  end.

Fixpoint digits (s : string) : string * string :=
  match s with
  | String c r =>
      if isDigit c then let '(d, rest) := digits r in (String c d, rest)
      else (EmptyString, s)
  | EmptyString => (EmptyString, s)
  end.

Definition number (s : string) : option (string * string) :=
  let '(sign, s1) :=
    match s with
    | String c r => if decide (c = "-"%char) then ("-", r) else ("", s)
    | _ => ("", s)
    end in
  let '(int, s2) := digits s1 in
  if decide (int = "") then None
  else if Nat.ltb 1 (String.length int) && String.prefix "0" int then None
  else
    let frac :=
      match s2 with
      | String c r =>
          if decide (c = "."%char) then
            let '(d, rest) := digits r in
            if decide (d = "") then None else Some ("." +:+ d, rest)
          else Some ("", s2)
      | _ => Some ("", s2)
      end in
    match frac with
    | None => None
    | Some (f, s3) =>
        match s3 with
        | String c r =>
            if bool_decide (c = "e"%char) || bool_decide (c = "E"%char) then
              let '(sg, r1) :=
                match r with
                | String x r0 =>
                    if bool_decide (x = "+"%char) || bool_decide (x = "-"%char)
                    then (String x EmptyString, r0) else ("", r)
                | _ => ("", r)
                end in
              let '(d, rest) := digits r1 in
              if decide (d = "") then None
              else Some (sign +:+ int +:+ f +:+ String c sg +:+ d, rest)
            else Some (sign +:+ int +:+ f, s3)
        | _ => Some (sign +:+ int +:+ f, s3)
        end
    end.

Definition literal (word : string) (v : json) (s : string)
  : option (json * string) :=
  if String.prefix word s
  then Some (v, GoString.drop (String.length word) s)
  else None.

Fixpoint value (fuel : nat) (s : string) : option (json * string) :=
  match fuel with
  | 0 => None
  | S fuel' =>
      match skipWs s with
      | EmptyString => None
      | String c r =>
          if decide (c = "{"%char) then
            match skipWs r with
            | String "}" r' => Some (JObject [], r')
            | _ =>
                match members fuel' r with
                | Some (ms, r') => Some (JObject ms, r')
                | None => None
                end
            end
          else if decide (c = "["%char) then
            match skipWs r with
            | String "]" r' => Some (JArray [], r')
            | _ =>
                match items fuel' r with
                | Some (vs, r') => Some (JArray vs, r')
                | None => None
                end
            end
          else if decide (c = Fmt.dquote) then
            match stringBody r with
            | Some (str, r') => Some (JString str, r')
            | None => None
            end
          else if decide (c = "t"%char) then literal "true" (JBool true) (String c r)
          else if decide (c = "f"%char) then literal "false" (JBool false) (String c r)
          else if decide (c = "n"%char) then literal "null" JNull (String c r)
          else
            match number (String c r) with
            | Some (lit, r') => Some (JNumber lit, r')
            | None => None
            end
      end
  end
with members (fuel : nat) (s : string)
  : option (list (string * json) * string) :=
  match fuel with
  | 0 => None
  | S fuel' =>
      match skipWs s with
      | String c r =>
          if decide (c = Fmt.dquote) then
            match stringBody r with
            | Some (key, r1) =>
                match skipWs r1 with
                | String ":" r2 =>
                    match value fuel' r2 with
                    | Some (v, r3) =>
                        match skipWs r3 with
                        | String "," r4 =>
                            match members fuel' r4 with
                            | Some (ms, r5) => Some ((key, v) :: ms, r5)
                            | None => None
                            end
                        | String "}" r4 => Some ([(key, v)], r4)
                        | _ => None
                        end
                    | None => None
                    end
                | _ => None
                end
            | None => None
            end
          else None
      | EmptyString => None
      end
  end
with items (fuel : nat) (s : string) : option (list json * string) :=
  match fuel with
  | 0 => None
  | S fuel' =>
      match value fuel' s with
      | Some (v, r1) =>
          match skipWs r1 with
          | String "," r2 =>
              match items fuel' r2 with
              | Some (vs, r3) => Some (v :: vs, r3)
              | None => None
              end
          | String "]" r2 => Some ([v], r2)
          | _ => None
          end
      | None => None
      end
  end.

Definition parseWith (fuel : nat) (s : string) : option json :=
  match value fuel s with
  | Some (v, rest) =>
      if decide (skipWs rest = "") then Some v else None
  | None => None
  end.

Definition parse (s : string) : option json :=
  parseWith (2 * String.length s + 2) s.

(** [s] is a JSON text. *)
Definition wellFormed (s : string) : Prop :=
  exists fuel v, parseWith fuel s = Some v.

(** *** A writer of compact JSON text *)

Definition escapeByte (c : ascii) : string :=
  let n := N_of_ascii c in
  if decide (c = Fmt.dquote) then Fmt.esc c
  else if decide (c = Fmt.backslash) then Fmt.esc c
  else if (n <? 32)%N then
    String Fmt.backslash
      ("u00" +:+ String (Fmt.hexDigit (n / 16))
         (String (Fmt.hexDigit (n mod 16)) EmptyString))
  else String c EmptyString.

Fixpoint escape (s : string) : string :=
  match s with
  | EmptyString => EmptyString
  | String c r => escapeByte c +:+ escape r
  end.

Fixpoint print (v : json) : string :=
  match v with
  | JNull => "null"
  | JBool b => if b then "true" else "false"
  | JNumber lit => lit
  | JString s => Fmt.quoted (escape s)
  | JArray vs =>
      "[" +:+
      (fix items (vs : list json) : string :=
         match vs with
         | [] => ""
         | [x] => print x
         | x :: rest => print x +:+ "," +:+ items rest
         end) vs +:+ "]"
  | JObject ms =>
      "{" +:+
      (fix members (ms : list (string * json)) : string :=
         match ms with
         | [] => ""
         | [(k, x)] => Fmt.quoted (escape k) +:+ ":" +:+ print x
         | (k, x) :: rest =>
             Fmt.quoted (escape k) +:+ ":" +:+ print x +:+ "," +:+ members rest
         end) ms +:+ "}"
  end.

End JSON.

(** ** Site configuration *)

Section SiteConfig.

(** [encoding/json] and the settings are used through their interface:
    [Unmarshal] and [Marshal] return the error text on failure. *)
Variable Unmarshal : string -> string + json.
Variable Marshal : json -> string + string.
Variable GetSiteConfigPath : string -> string.

(** The loop over [subs] of [getConfig]; the result is the [target]
    with which the loop ends. *)
Fixpoint descend (target : json) (subs : list string) : json :=
  match subs with
  | [] => target
  | sub :: rest =>
      if decide (sub = "") then target
      else match target with
           | JObject ms =>
               match JSON.get sub ms with
               | Some v => descend v rest
               | None => JNull
               end
           | _ => JNull
           end
  end.

(** [getConfig] returns [(nil, nil)] when the file does not exist. *)
Definition getConfig (fs : tree) (path name : string)
  : outcome (option string) :=
  let '(content, err) := FS.ReadFile fs path in
  match err with
  | Some e =>
      if IsNotExist err then Ok None
      else Err ("Could not read configuration: " +:+ errorText e)
  | None =>
      match Unmarshal (default "" content) with
      | inl e => Err ("Could not parse configuration: " +:+ e)
      | inr target =>
          let subs := GoString.Split name "." in
          let target := JObject [("Value", descend target subs)] in
          match Marshal target with
          | inl e => Err ("Could not encode configuration: " +:+ e)
          | inr ret => Ok (Some ret)
          end
      end
  end.

(** [parts[i]] *)
Definition at_ (parts : list string) (i : nat) : outcome string :=
  match parts !! i with
  | Some p => Ok p
  | None => Panic "index out of range"
  end.

Definition GetSiteConfig (fs : tree) (Site Name : string)
  : outcome (option string) :=
  let configPath := GetSiteConfigPath Site in
  let parts := GoString.SplitN2 Name "." in
  let! module := at_ parts 0 in
  let! name := at_ parts 1 in
  getConfig fs (Filepath.Join [configPath; module +:+ ".json"]) name.

End SiteConfig.

(** ** The signal bus *)

Record emitRet : Type := mkEmitRet {
  Ret : string;
  Error : string
}.

Record signal : Type := mkSignal {
  SignalName : string;
  SignalArgs : string;
  SignalRet : chan
}.

Record FinishSignalArgs : Type := mkFinish {
  FinishId : string;
  FinishErr : string;
  FinishRet : string
}.

(** [append(m.subscriptions[args.Signal], args.Id)] stored back, after the
    two maps have been made if [subscriptions] was [nil]; the subscriber
    gets a channel unless it has one. *)
Definition ConnectSignal (Id Signal : string) : M unit :=
  fun st =>
    let st1 :=
      match subscriptions (svc st) with
      | None =>
          with_svc (set_subscriber (Some ∅))
            (with_svc (set_subscriptions (Some ∅)) st)
      | Some _ => st
      end in
    let subs := default [] (mapGet (subscriptions (svc st1)) Signal) in
    match mapSet (subscriptions (svc st1)) Signal (subs ++ [Id]) with
    | Ok ss =>
        let st2 := with_svc (set_subscriptions ss) st1 in
        match mapGet (subscriber (svc st2)) Id with
        | Some _ => (Ok tt, st2)
        | None =>
            match mapSet (subscriber (svc st2)) Id (nchan st2) with
            | Ok sb =>
                (Ok tt,
                 set_nchan (S (nchan st2)) (with_svc (set_subscriber sb) st2))
            | Err e => (Err e, st2)
            | Panic w => (Panic w, st2)
            end
        end
    | Err e => (Err e, st1)
    | Panic w => (Panic w, st1)
    end.

(** A method that communicates is a tree of channel operations: a send
    or a receive on an unbuffered channel completes when the other side
    takes part; on a [nil] channel ([None]) it never does. *)
Inductive proc (R : Type) : Type :=
| Finished (r : outcome R)
| MakeChan (k : chan -> proc R)
| SendSignal (c : option chan) (s : signal) (k : proc R)
| RecvSignal (c : option chan) (k : signal -> proc R)
| SendRet (c : option chan) (r : emitRet) (k : proc R)
| RecvRet (c : option chan) (k : emitRet -> proc R).

Arguments Finished {R} r.
Arguments MakeChan {R} k.
Arguments SendSignal {R} c s k.
Arguments RecvSignal {R} c k.
Arguments SendRet {R} c r k.
Arguments RecvRet {R} c k.

(** The loop of [EmitSignal] over the subscribers still to be asked;
    [ret] holds the results so far.  The goroutine started in each round
    only sleeps and logs, it takes no part in the exchange.  The channel
    of a subscriber is read from the service [m] as it is when the method
    is called: [ConnectSignal] never changes or removes an entry of the
    channel map. *)
Fixpoint emitLoop (m : MonstiService) (Name Args : string)
    (ids : list string) (ret : list string) : proc (list string) :=
  match ids with
  | [] => Finished (Ok ret)
  | id :: rest =>
      MakeChan (fun retChan =>
        SendSignal (mapGet (subscriber m) id) (mkSignal Name Args retChan)
          (RecvRet (Some retChan) (fun emitRet =>
             if Nat.ltb 0 (String.length (Error emitRet)) then
               Finished
                 (Err ("Received error as signal response: " +:+ Error emitRet))
             else emitLoop m Name Args rest (ret ++ [Ret emitRet]))))
  end.

Definition EmitSignal (Name Args : string) (m : MonstiService)
  : proc (list string) :=
  emitLoop m Name Args (default [] (mapGet (subscriptions m) Name)) [].

(** [WaitSignal]: the receive, then the bookkeeping with the signal
    received. *)
Definition WaitSignal (subscriber_ : string) (m : MonstiService)
  : proc signal :=
  RecvSignal (mapGet (subscriber m) subscriber_)
    (fun sig => Finished (Ok sig)).

Definition WaitSignalDone (subscriber_ : string) (sig : signal)
  : M (string * string) :=
  fun st =>
    let rets :=
      match subscriberRet (svc st) with
      | None => ∅
      | Some g => g
      end in
    (Ok (SignalName sig, SignalArgs sig),
     with_svc (set_subscriberRet (Some (<[subscriber_ := SignalRet sig]> rets)))
       st).

(** What [FinishSignal] puts on the channel. *)
Definition finishMsg (args : FinishSignalArgs) : emitRet :=
  mkEmitRet (FinishRet args) (FinishErr args).

Definition FinishSignal (args : FinishSignalArgs) (m : MonstiService)
  : proc unit :=
  SendRet (mapGet (subscriberRet m) (FinishId args)) (finishMsg args)
    (Finished (Ok tt)).

(** *** What a method does on the channels

    An event is a completed channel operation.  A configuration is the
    number of channels made so far and what is left of the method.  What
    is received is chosen by the other side, so a receive has a step for
    every value; a method blocked for ever has no step. *)

Inductive event : Type :=
| EvMake (c : chan)
| EvSend (c : chan) (s : signal)
| EvWait (c : chan) (s : signal)
| EvFinish (c : chan) (r : emitRet)
| EvRecv (c : chan) (r : emitRet).

Inductive step {R : Type} : nat * proc R -> event -> nat * proc R -> Prop :=
| step_make n k :
    step (n, MakeChan k) (EvMake n) (S n, k n)
| step_send n c s k :
    step (n, SendSignal (Some c) s k) (EvSend c s) (n, k)
| step_wait n c s k :
    step (n, RecvSignal (Some c) k) (EvWait c s) (n, k s)
| step_finish n c r k :
    step (n, SendRet (Some c) r k) (EvFinish c r) (n, k)
| step_recv n c r k :
    step (n, RecvRet (Some c) k) (EvRecv c r) (n, k r).

Inductive exec {R : Type} : nat * proc R -> list event -> nat * proc R -> Prop :=
| exec_nil cfg : exec cfg [] cfg
| exec_cons cfg e cfg' tr cfg'' :
    step cfg e cfg' -> exec cfg' tr cfg'' -> exec cfg (e :: tr) cfg''.

(** The deliveries of a trace, in order: the channel and the signal of
    each completed send to a subscriber. *)
Fixpoint deliveries (tr : list event) : list (chan * signal) :=
  match tr with
  | [] => []
  | EvSend c s :: rest => (c, s) :: deliveries rest
  | _ :: rest => deliveries rest
  end.

(** The results received, in order, with the channel of each. *)
Fixpoint received (tr : list event) : list (chan * emitRet) :=
  match tr with
  | [] => []
  | EvRecv c r :: rest => (c, r) :: received rest
  | _ :: rest => received rest
  end.

(** Every subscribed id has a channel. *)
Definition connected (m : MonstiService) : Prop :=
  forall sig ids id,
    mapGet (subscriptions m) sig = Some ids -> id ∈ ids ->
    is_Some (mapGet (subscriber m) id).

(** The service before any call. *)
Definition emptyService : MonstiService :=
  mkService None (mkConfig None None) None None None.

Definition emptyState : state := mkState ∅ ∅ 0 emptyService.

(** ** Notions and data of the properties *)

(** What the inner loop answers for a type when it does not panic. *)
Definition addableTo (nodeType : string) (other : NodeType.t) : bool :=
  match anyAddable nodeType (NodeType.AddableTo other) with
  | Ok b => b
  | _ => false
  end.

(** A registry with the one type [blog.Post], addable below the types of
    the namespace [blog.]. *)
Definition blogPost : NodeType.t :=
  NodeType.mk "blog.Post" false ["blog."] [] [].

Definition blogState : state :=
  (RegisterNodeType 1 (mkState {[1 := blogPost]} ∅ 0 emptyService)).2.

(** Reading and writing a field definition through the [i]-th entry of
    the field list of the node type at [p]: [nodeType.Fields[i]] is a
    pointer, and [*nodeType.Fields[i] = v] changes the object it points
    to. *)
Definition fieldOf (st : state) (p : loc) (i : nat) : option FieldConfig.t :=
  nt ← typeObjs st !! p;
  c ← NodeType.Fields nt !! i;
  fieldObjs st !! c.

Definition set_fieldObjs (v : gmap loc FieldConfig.t) (st : state) :=
  mkState (typeObjs st) v (nchan st) (svc st).

Definition mutateField (st : state) (p : loc) (i : nat) (v : FieldConfig.t)
  : state :=
  match typeObjs st !! p ≫= (fun nt => NodeType.Fields nt !! i) with
  | Some c => set_fieldObjs (<[c := v]> (fieldObjs st)) st
  | None => st
  end.

(** Two of the types [initNodeTypes] registers, with the field objects
    they point to (the display names are left out): [core.Document]
    declares [core.Title] in full, [core.File] names it by id only. *)
Definition titleField : FieldConfig.t :=
  FieldConfig.mk "core.Title" true [] (Some TextFieldType).
Definition bodyField : FieldConfig.t :=
  FieldConfig.mk "core.Body" true [] (Some HTMLFieldType).
Definition titleRef : FieldConfig.t :=
  FieldConfig.mk "core.Title" false [] None.
Definition fileField : FieldConfig.t :=
  FieldConfig.mk "core.File" true [] (Some FileFieldType).

Definition documentType : NodeType.t :=
  NodeType.mk "core.Document" false ["."] [] [10; 11].
Definition fileType : NodeType.t :=
  NodeType.mk "core.File" false ["."] [] [12; 13].

Definition initState : state :=
  mkState {[1 := documentType; 2 := fileType]}
    {[10 := titleField; 11 := bodyField; 12 := titleRef; 13 := fileField]}
    0 emptyService.

(** [core.Document] registered, and a second object that claims its id. *)
Definition clashType : NodeType.t :=
  NodeType.mk "core.Document" true [] [] [13].

Definition clashState : state :=
  let st := (RegisterNodeType 1 initState).2 in
  set_typeObjs (<[3 := clashType]> (typeObjs st)) st.

(** Not yet returned with results. *)
Definition pending (cfg : nat * proc (list string)) : Prop :=
  forall rets, cfg.2 <> Finished (Ok rets).

(** The trace of the rounds in which the subscribers [ids] answer with
    [replies]. *)
Fixpoint rounds (m : MonstiService) (Name Args : string) (n : nat)
    (ids : list string) (replies : list emitRet) : list event :=
  match ids, replies with
  | id :: ids', r :: replies' =>
      EvMake n
      :: EvSend (default 0 (mapGet (subscriber m) id)) (mkSignal Name Args n)
      :: EvRecv n r :: rounds m Name Args (S n) ids' replies'
  | _, _ => []
  end.

(** [S1], [S2] and [S3] connected to the signal [X], in that order. *)
Definition threeSubscribers : state :=
  (ConnectSignal "S3" "X"
     (ConnectSignal "S2" "X" (ConnectSignal "S1" "X" emptyState).2).2).2.


(** [S1] connected to [X] once, and twice. *)
Definition connectedOnce : state := (ConnectSignal "S1" "X" emptyState).2.
Definition connectedTwice : state := (ConnectSignal "S1" "X" connectedOnce).2.

(** A site below [/srv/site]: the node [/a] has the children [b], whose
    [node.json] cannot be opened, and [c], a document. *)
Definition siteRoot (_ : string) : string := "/srv/site".

Definition documentJSON : string :=
  "{" +:+ Fmt.quoted "Type" +:+ ":" +:+ Fmt.quoted "core.Document" +:+ "}".

Definition lockedSite : tree :=
  Dir [("srv", Dir [("site", Dir [("a", Dir [
    ("b", Dir [("node.json", Faulty None EACCES)]);
    ("c", Dir [("node.json", File documentJSON)])])])])].

(** The node [/a] with its own [node.json] and the child [c]. *)
Definition plainSite : tree :=
  Dir [("srv", Dir [("site", Dir [("a", Dir [
    ("c", Dir [("node.json", File documentJSON)]);
    ("node.json", File documentJSON)])])])].

(** An empty site. *)
Definition emptySite : tree := Dir [("srv", Dir [("site", Dir [])])].

(** Modelled from the spec: the value at a dotted path of a document,
    when the path resolves.  Each name is looked up among the members of
    the object reached so far; the path does not resolve when a name is
    missing or what has been reached is no object. *)
Fixpoint valueAt (doc : json) (names : list string) : option json :=
  match names with
  | [] => Some doc
  | name :: rest =>
      match doc with
      | JObject ms =>
          match JSON.get name ms with
          | Some v => valueAt v rest
          | None => None
          end
      | _ => None
      end
  end.

(** The names of a dotted path that count: the components before the
    first empty one. *)
Fixpoint namesOf (subs : list string) : list string :=
  match subs with
  | [] => []
  | sub :: rest => if decide (sub = "") then [] else sub :: namesOf rest
  end.

(** The codec and the site of the checked runs: the reader and the
    writer above stand for [json.Unmarshal] and [json.Marshal], and the
    configuration of every site is in [/srv/config]. *)
Definition readJSON (content : string) : string + json :=
  match JSON.parse content with
  | Some v => inr v
  | None => inl "invalid character"
  end.

Definition writeJSON (v : json) : string + string := inr (JSON.print v).

Definition configRoot (_ : string) : string := "/srv/config".

Definition coreConfig : string :=
  "{" +:+ Fmt.quoted "Title" +:+ ":{" +:+ Fmt.quoted "en" +:+ ":"
  +:+ Fmt.quoted "Monsti" +:+ "}}".

Definition configuredSite : tree :=
  Dir [("srv", Dir [("config", Dir [("core.json", File coreConfig)])])].

(** ** What the properties of the remaining code speak about *)

(** The last byte of a string. *)
Definition lastByte (s : string) : option ascii :=
  match s with
  | EmptyString => None
  | String _ r => String.get (String.length r) s
  end.

(** The matching rule of [findAddableNodeTypes] as a test without bounds
    to respect: the pattern is [.], or the id itself, or it ends in a dot
    and the id begins with it. *)
Definition patternMatches (nodeType pattern : string) : bool :=
  bool_decide (pattern = ".") || bool_decide (pattern = nodeType)
  || (bool_decide (lastByte pattern = Some "."%char)
      && String.prefix pattern nodeType).

(** The pattern can be tested: it is [.] or the id itself, or it is not
    empty and, if it ends in a dot, not longer than the id. *)
Definition patternSafe (nodeType pattern : string) : Prop :=
  pattern = "." \/ pattern = nodeType \/
  (pattern <> "" /\
   (lastByte pattern = Some "."%char ->
    String.length pattern <= String.length nodeType)).

(** The registry is consistent: a registered id leads to a node type
    object of that id, whose field entries are the canonical pointers of
    the ids of the objects they point to; a canonical pointer leads to a
    field object of the id it is registered under; and the map of fields
    has been made when the map of types has. *)
Definition registryOk (st : state) : Prop :=
  (forall X q, mapGet (NodeTypes (config st)) X = Some q ->
     exists nt, typeObjs st !! q = Some nt /\ NodeType.Id nt = X /\
       forall c, c ∈ NodeType.Fields nt ->
         exists f, fieldObjs st !! c = Some f /\
           mapGet (NodeFields (config st)) (FieldConfig.Id f) = Some c) /\
  (forall F c, mapGet (NodeFields (config st)) F = Some c ->
     exists f, fieldObjs st !! c = Some f /\ FieldConfig.Id f = F) /\
  (is_Some (NodeTypes (config st)) -> is_Some (NodeFields (config st))).

(** Registering the node types at [ps] one after the other, up to the
    first call that does not succeed. *)
Fixpoint registerAll (ps : list loc) : M unit :=
  fun st =>
    match ps with
    | [] => (Ok tt, st)
    | p :: rest =>
        match RegisterNodeType p st with
        | (Ok _, st1) => registerAll rest st1
        | r => r
        end
    end.

(** Connecting the subscribers of [calls], each given as the id and the
    signal, one call after the other. *)
Fixpoint connectAll (calls : list (string * string)) : M unit :=
  fun st =>
    match calls with
    | [] => (Ok tt, st)
    | call :: rest =>
        match ConnectSignal call.1 call.2 st with
        | (Ok _, st1) => connectAll rest st1
        | r => r
        end
    end.

(** The two maps of the bus are made together, and the channels of the
    subscribers are channels that have been made, each its own. *)
Definition busOk (st : state) : Prop :=
  (is_Some (subscriptions (svc st)) <-> is_Some (subscriber (svc st))) /\
  (forall id c, mapGet (subscriber (svc st)) id = Some c -> c < nchan st) /\
  (forall id1 id2 c,
     mapGet (subscriber (svc st)) id1 = Some c ->
     mapGet (subscriber (svc st)) id2 = Some c -> id1 = id2).

(** A method that cannot take a step: it waits for ever. *)
Definition blocked {R : Type} (cfg : nat * proc R) : Prop :=
  forall e cfg', ~ step cfg e cfg'.

(** A name of one element: no separator, and none of the empty name,
    [.] and [..]. *)
Definition simpleName (name : string) : Prop :=
  GoString.contains "/" name = false /\ name <> "" /\ name <> "." /\ name <> "..".

Section NodeData.

Variable GetSiteNodesPath : string -> string.

(** [GetNodeData]: the file [File_] of the node, [nil] without error
    when it does not exist; otherwise what [ReadFile] gives, error
    included. *)
Definition GetNodeData (fs : tree) (Site Path File_ : string)
  : outcome (option string * option PathError) :=
  let site := GetSiteNodesPath Site in
  let! rest := GoString.slice Path 1 (GoString.len Path) in
  let path := Filepath.Join [site; rest; File_] in
  let '(ret, err) := FS.ReadFile fs path in
  if IsNotExist err then Ok (None, None) else Ok (ret, err).

End NodeData.

(** Where the file [File_] of the node [Path] is, as the steps from the
    root of the file system. *)
Definition dataFile (root Path File_ : string) : list string :=
  FS.steps (Filepath.Join [root; GoString.drop 1 Path; File_]).

(** ** Removing and renaming nodes *)

(** The errors of [rename(2)] that [errno] above does not have. *)
Inductive renameErrno : Type :=
| RErrno (e : errno)
| EINVAL
| ENOTEMPTY
| EBUSY.

Definition renameErrnoText (e : renameErrno) : string :=
  match e with
  | RErrno e => errnoText e
  | EINVAL => "invalid argument"
  | ENOTEMPTY => "directory not empty"
  | EBUSY => "device or resource busy"
  end.

(** [*os.LinkError], the error of [os.Rename], and its [%v] *)
Record LinkError : Type := mkLinkError {
  LinkOp : string;
  Old : string;
  New : string;
  LinkErr : renameErrno
}.

Definition linkErrorText (e : LinkError) : string :=
  LinkOp e +:+ " " +:+ Old e +:+ " " +:+ New e +:+ ": "
  +:+ renameErrnoText (LinkErr e).

Module OS.

Definition remove (name : string) (es : list (string * tree))
  : list (string * tree) :=
  filter (fun e => e.1 <> name) es.

(** Take the entry at [p] out of its directory, with all it holds; a
    path that leads nowhere leaves the tree as it is. *)
Fixpoint removeAll (p : list string) (t : tree) : tree :=
  match p with
  | [] => t
  | c :: p' =>
      match t with
      | Dir es =>
          match p' with
          | [] => Dir (remove c es)
          | _ =>
              match FS.assoc c es with
              | Some t' => Dir (FS.put c (removeAll p' t') es)
              | None => t
              end
          end
      | _ => t
      end
  end.

(** Put [v] at [p], whose directory exists. *)
Fixpoint insertAt (p : list string) (v : tree) (t : tree) : tree :=
  match p with
  | [] => t
  | c :: p' =>
      match t with
      | Dir es =>
          match p' with
          | [] => Dir (FS.put c v es)
          | _ =>
              match FS.assoc c es with
              | Some t' => Dir (FS.put c (insertAt p' v t') es)
              | None => t
              end
          end
      | _ => t
      end
  end.

(** The directory in which the last step of [p] is looked up. *)
Definition parentOf (p : list string) (t : tree)
  : errno + list (string * tree) :=
  match FS.walk (removelast p) t with
  | inr (Dir es) => inr es
  | inr _ => inl ENOTDIR
  | inl e => inl e
  end.

Definition isDir (t : tree) : bool :=
  match t with
  | Dir _ => true
  | _ => false
  end.

(** [rename(2)], in the order in which Linux checks: both directories
    are resolved, the root directory is refused, the source must exist, a
    directory is not moved below itself nor over a directory it is below,
    a name renamed to itself stays, and an existing target is replaced if
    it is of the kind of the source and, as a directory, empty. *)
Definition rename (old new : list string) (t : tree) : renameErrno + tree :=
  match parentOf old t with
  | inl e => inl (RErrno e)
  | inr eso =>
      match parentOf new t with
      | inl e => inl (RErrno e)
      | inr esn =>
          match last old, last new with
          | Some o, Some n =>
              match FS.assoc o eso with
              | None => inl (RErrno ENOENT)
              | Some src =>
                  let moved := insertAt new src (removeAll old t) in
                  if decide (old `prefix_of` removelast new) then inl EINVAL
                  else if decide (new `prefix_of` removelast old)
                  then inl ENOTEMPTY
                  else if decide (old = new) then inr t
                  else match FS.assoc n esn with
                       | None => inr moved
                       | Some (Dir es') =>
                           if isDir src then
                             match es' with
                             | [] => inr moved
                             | _ => inl ENOTEMPTY
                             end
                           else inl (RErrno EISDIR)
                       | Some _ =>
                           if isDir src then inl (RErrno ENOTDIR)
                           else inr moved
                       end
              end
          | _, _ => inl EBUSY
          end
      end
  end.

(** [os.Rename]; the empty path names nothing. *)
Definition Rename (fs : tree) (oldpath newpath : string)
  : option LinkError * tree :=
  if decide (oldpath = "" \/ newpath = "") then
    (Some (mkLinkError "rename" oldpath newpath (RErrno ENOENT)), fs)
  else
    match rename (FS.steps oldpath) (FS.steps newpath) fs with
    | inr fs' => (None, fs')
    | inl e => (Some (mkLinkError "rename" oldpath newpath e), fs)
    end.

End OS.

Section NodeMoves.

Variable GetSiteNodesPath : string -> string.

(** What [os.RemoveAll] does when the path is the root directory of the
    file system is left to the system. *)
Variable removeRoot : tree -> option PathError * tree.

(** Whether the system lets something be removed is decided by what the
    tree does not hold, the permissions of the directories above all:
    when it refuses, [os.RemoveAll] returns the first error it meets, and
    what it has removed until then is gone. *)
Variable removeRefused : tree -> string -> option (PathError * tree).

(** [os.RemoveAll]: removing what is not there is no error, whether an
    entry is missing or a file is in the way, and the empty path names
    nothing. *)
Definition RemoveAll (fs : tree) (path : string) : option PathError * tree :=
  match FS.steps path with
  | [] => if decide (path = "") then (None, fs) else removeRoot fs
  | p =>
      match removeRefused fs path with
      | Some (err, fs1) => (Some err, fs1)
      | None => (None, OS.removeAll p fs)
      end
  end.

Definition RemoveNode (Site Node : string) (fs : tree)
  : outcome unit * tree :=
  let root := GetSiteNodesPath Site in
  match GoString.slice Node 1 (GoString.len Node) with
  | Panic w => (Panic w, fs)
  | Err e => (Err e, fs)
  | Ok rest =>
      let nodePath := Filepath.Join [root; rest] in
      match RemoveAll fs nodePath with
      | (Some err, fs1) =>
          (Err ("Can't remove node: " +:+ errorText err), fs1)
      | (None, fs1) => (Ok tt, fs1)
      end
  end.

Definition RenameNode (Site Source Target : string) (fs : tree)
  : outcome unit * tree :=
  let root := GetSiteNodesPath Site in
  match FS.MkdirAll fs (Filepath.Dir (Filepath.Join [root; Target])) with
  | (Some err, fs1) =>
      (Err ("Can't create parent directory: " +:+ errorText err), fs1)
  | (None, fs1) =>
      match OS.Rename fs1 (Filepath.Join [root; Source])
              (Filepath.Join [root; Target]) with
      | (Some err, fs2) =>
          (Err ("Can't move node: " +:+ linkErrorText err), fs2)
      | (None, fs2) => (Ok tt, fs2)
      end
  end.

End NodeMoves.

(** What [getChildren] lists for one entry of the directory: the node
    that [getNode] finds, or for a directory without one the placeholder
    of type [core.Path], or nothing. *)
Definition childNode (fs : tree) (root path : string) (file : FileInfo)
  : option string :=
  match getNode fs root (Filepath.Join [path; FileName file]) with
  | Ok (Some n, _) => Some n
  | _ =>
      if IsDir file
      then Some (placeholderJSON (Filepath.Join [path; FileName file]))
      else None
  end.

(** A path written with simple names only, separators in a row or at
    the end allowed. *)
Definition plainPath (rest : string) : Prop :=
  Forall (fun e => e = "" \/ simpleName e) (GoString.Split rest "/").

(** The printable bytes of ASCII, from the space to the tilde. *)
Definition printableByte (c : ascii) : bool :=
  ((32 <=? N_of_ascii c) && (N_of_ascii c <? 127))%N.

Fixpoint printableASCII (s : string) : bool :=
  match s with
  | EmptyString => true
  | String c r => printableByte c && printableASCII r
  end.

(** * Properties *)

(** ** Addable node types *)

Section Addable.

Implicit Types (nodeType : string) (order : list NodeType.t).

(** When no pattern makes the condition panic, the loop is a filter. *)
Lemma findAddableLoop_filter nodeType (f : NodeType.t -> bool) order acc :
  (forall other, other ∈ order ->
     anyAddable nodeType (NodeType.AddableTo other) = Ok (f other)) ->
  findAddableLoop nodeType order acc
  = Ok (acc ++ (NodeType.Id <$> filter (fun o => f o = true) order)).
Proof.
  revert acc. induction order as [|o order IH]; intros acc Hall; simpl.
  - by rewrite app_nil_r.
  - rewrite (Hall o) by (left; done). simpl.
    rewrite IH by (intros; apply Hall; right; done).
    rewrite filter_cons. destruct (f o) eqn:Hf.
    + rewrite decide_True by done. by rewrite <- app_assoc.
    + rewrite decide_False by done. done.
Qed.

Lemma addableCond_root nodeType : addableCond nodeType "." = Ok true.
Proof. reflexivity. Qed.

Lemma addableCond_exact nodeType : addableCond nodeType nodeType = Ok true.
Proof.
  unfold addableCond. destruct (decide (nodeType = ".")); [done|].
  by rewrite decide_True.
Qed.

Lemma findAddableNodeTypes_perm nodeType order listed :
Forall (fun o => succeeds (anyAddable nodeType (NodeType.AddableTo o))) listed ->
order ≡ₚ listed ->
exists l,
  findAddableNodeTypes nodeType order = Ok l /\
  l ≡ₚ NodeType.Id <$> filter (fun o => addableTo nodeType o = true) listed.
Proof.
intros Hret Hperm.
exists (NodeType.Id <$> filter (fun o => addableTo nodeType o = true) order).
split.
- unfold findAddableNodeTypes.
  rewrite (findAddableLoop_filter nodeType (addableTo nodeType)); [done|].
  intros o Ho. rewrite Hperm in Ho.
  rewrite Forall_forall in Hret. specialize (Hret o Ho).
  unfold addableTo, succeeds in *.
  by destruct (anyAddable nodeType (NodeType.AddableTo o)).
- by rewrite Hperm.
Qed.



Lemma slice_short s n :
  (GoString.len s < n)%Z -> GoString.slice s 0 n = Panic "slice bounds out of range".
Proof.
  intros H. unfold GoString.slice.
  replace (n <=? GoString.len s)%Z with false by (symmetry; apply Z.leb_gt; done).
  by rewrite andb_false_r.
Qed.

(** C4.  With [blog.Post], addable to [blog.], registered, asking for the
    types addable below a type whose id is shorter than [blog.] (the empty
    id, or [a.B]) panics at the slice [nodeType[0:len(addableTo)]]: no
    list and no error is returned, in whatever order the map is visited. *)
Theorem GetAddableNodeTypes_short_parent_panics (site nodeType : string)
    (order : list (string * loc)) :
  String.length nodeType < 5 ->
  rangeOrder (NodeTypes (config blogState)) order ->
  GetAddableNodeTypes site nodeType order blogState
  = Panic "slice bounds out of range".
Proof.
  intros Hlen Horder. unfold rangeOrder in Horder.
  replace (entries (NodeTypes (config blogState)))
    with ({[ "blog.Post" := 1 ]} : gmap string loc) in Horder by reflexivity.
  rewrite map_to_list_singleton in Horder.
  apply Permutation_singleton_r in Horder. subst order.
  unfold GetAddableNodeTypes. simpl.
  replace (typeObjs blogState !! 1) with (Some blogPost) by reflexivity.
  unfold findAddableNodeTypes. simpl. unfold addableCond.
  rewrite decide_False by done.
  rewrite decide_False by (intros <-; simpl in Hlen; lia).
  simpl. rewrite slice_short; [done|]. unfold GoString.len. simpl. lia.
Qed.

Lemma GetAddableNodeTypes_short_parent_panics_witness :
  GetAddableNodeTypes "site" "a.B" [("blog.Post", 1)] blogState
  = Panic "slice bounds out of range".
Proof.
  apply GetAddableNodeTypes_short_parent_panics.
  - simpl. lia.
  - unfold rangeOrder. reflexivity.
Defined.

(** *** When the search returns and when it panics *)

Lemma get_last r : forall c, is_Some (String.get (String.length r) (String c r)).
Proof. induction r as [|c' r IH]; intros c; simpl; [by eexists|apply IH]. Qed.

Lemma index_last a :
  a <> "" -> succeeds (GoString.index a (GoString.len a - 1)).
Proof.
  destruct a as [|c r]; [done|]. intros _. unfold GoString.index, GoString.len.
  replace (Z.of_nat (String.length (String c r)) - 1)%Z
    with (Z.of_nat (String.length r)) by (simpl; lia).
  replace (Z.of_nat (String.length r) <? 0)%Z with false
    by (symmetry; apply Z.ltb_ge; lia).
  rewrite Nat2Z.id. by destruct (get_last r c) as [x ->].
Qed.

(** A pattern that is not empty and not longer than the id of the parent
    type is tested without a panic. *)
Lemma addableCond_succeeds nodeType a :
  a <> "" -> String.length a <= String.length nodeType ->
  succeeds (addableCond nodeType a).
Proof.
  intros Ha Hlen. unfold addableCond.
  destruct (decide (a = ".")); [done|].
  destruct (decide (a = nodeType)); [done|].
  pose proof (index_last a Ha) as Hidx.
  destruct (GoString.index a (GoString.len a - 1)) as [c| |]; try done. simpl.
  destruct (decide (c = "."%char)); [|done].
  unfold GoString.slice, GoString.len. simpl.
  replace (Z.of_nat (String.length a) <=? Z.of_nat (String.length nodeType))%Z
    with true by (symmetry; apply Z.leb_le; lia).
  replace (0 <=? Z.of_nat (String.length a))%Z
    with true by (symmetry; apply Z.leb_le; lia).
  done.
Qed.

(** The empty pattern panics for every parent type but the one with the
    empty id. *)
Lemma addableCond_empty_pattern nodeType :
  nodeType <> "" -> addableCond nodeType "" = Panic "index out of range".
Proof.
  intros Hne. unfold addableCond. rewrite decide_False by done.
  rewrite decide_False by done. done.
Qed.

(** A pattern that ends in a dot and is longer than the id of the parent
    type panics. *)
Lemma addableCond_long_pattern nodeType a :
  a <> "." ->
  GoString.index a (GoString.len a - 1) = Ok "."%char ->
  String.length nodeType < String.length a ->
  addableCond nodeType a = Panic "slice bounds out of range".
Proof.
  intros Hroot Hdot Hlen. unfold addableCond.
  rewrite decide_False by done.
  rewrite decide_False by (intros ->; lia).
  rewrite Hdot. simpl.
  rewrite slice_short; [done|]. unfold GoString.len. lia.
Qed.

Lemma anyAddable_succeeds nodeType patterns :
  Forall (fun a => a <> "" /\ String.length a <= String.length nodeType)
    patterns ->
  succeeds (anyAddable nodeType patterns).
Proof.
  induction 1 as [|a patterns [Ha Hlen] _ IH]; simpl; [done|].
  pose proof (addableCond_succeeds nodeType a Ha Hlen) as Hs.
  destruct (addableCond nodeType a) as [[]| |]; done.
Qed.

(** When no pattern of any type is empty or longer than the id of the
    parent type, the search returns a list. *)
Lemma findAddableNodeTypes_succeeds nodeType order :
  Forall (fun other =>
            Forall (fun a => a <> "" /\
                             String.length a <= String.length nodeType)
              (NodeType.AddableTo other)) order ->
  succeeds (findAddableNodeTypes nodeType order).
Proof.
  intros Hall.
  destruct (findAddableNodeTypes_perm nodeType order order) as (l & -> & _);
    [|done|done].
  eapply Forall_impl; [exact Hall|]. intros other. apply anyAddable_succeeds.
Qed.

End Addable.

(** ** The registry *)

Section Registry.

Implicit Types (st : state) (p q c : loc) (nt : NodeType.t).

Lemma mapGet_mapSet_eq {V} (m m' : gomap V) k (v : V) :
  mapSet m k v = Ok m' -> mapGet m' k = Some v.
Proof.
  destruct m as [g|]; simpl; [|done]. intros [= <-]. simpl. apply lookup_insert_eq.
Qed.

Lemma mapGet_mapSet_ne {V} (m m' : gomap V) k k' (v : V) :
  mapSet m k v = Ok m' -> k <> k' -> mapGet m' k' = mapGet m k'.
Proof.
  destruct m as [g|]; simpl; [|done]. intros [= <-] Hne. simpl.
  by apply lookup_insert_ne.
Qed.

(** What the loop over the fields leaves behind when it ends without a
    panic: the field objects and the map of types are as before, entries
    of the map of fields are only added, only the object at [p] changes,
    and each entry of its field list from [i] on is the canonical pointer
    of its id. *)
Lemma registerFields_ok fields : forall p i st st' nt,
  registerFields p i fields st = (Ok tt, st') ->
  typeObjs st !! p = Some nt ->
  drop i (NodeType.Fields nt) = fields ->
  fieldObjs st' = fieldObjs st /\
  NodeTypes (config st') = NodeTypes (config st) /\
  (forall F c, mapGet (NodeFields (config st)) F = Some c ->
               mapGet (NodeFields (config st')) F = Some c) /\
  (forall q, q <> p -> typeObjs st' !! q = typeObjs st !! q) /\
  exists nt',
    typeObjs st' !! p = Some nt' /\
    NodeType.Id nt' = NodeType.Id nt /\
    (forall j, j < i -> NodeType.Fields nt' !! j = NodeType.Fields nt !! j) /\
    forall k field f,
      fields !! k = Some field -> fieldObjs st !! field = Some f ->
      exists c, mapGet (NodeFields (config st')) (FieldConfig.Id f) = Some c /\
                NodeType.Fields nt' !! (i + k) = Some c.
Proof.
  induction fields as [|field rest IH]; intros p i st st' nt Hrun Hp Hdrop.
  - simpl in Hrun. injection Hrun as <-. repeat split; try done.
    exists nt. repeat split; try done.
    all: intros k ? ? Hk; by rewrite lookup_nil in Hk.
  - simpl in Hrun.
    destruct (fieldObjs st !! field) as [f|] eqn:Hf; [|done].
    assert (Hlen : i < length (NodeType.Fields nt)).
    { apply Nat.nle_gt. intros Hge. rewrite drop_ge in Hdrop by done. done. }
    assert (Hi : NodeType.Fields nt !! i = Some field).
    { rewrite <- (Nat.add_0_r i), <- lookup_drop, Hdrop. done. }
    assert (Hrest : drop (S i) (NodeType.Fields nt) = rest).
    { rewrite <- (Nat.add_1_l i), Nat.add_comm, <- drop_drop, Hdrop. done. }
    destruct (mapGet (NodeFields (config st)) (FieldConfig.Id f)) as [existing|] eqn:Hex.
    + (* the id is known: the entry is replaced *)
      set (nt1 := NodeType.with_Fields nt (<[i := existing]> (NodeType.Fields nt))).
      assert (Hp1 : typeObjs (setField p i existing st) !! p = Some nt1).
      { simpl. rewrite lookup_alter_eq, Hp. done. }
      assert (Hrest1 : drop (S i) (NodeType.Fields nt1) = rest).
      { simpl. rewrite drop_insert_lt by lia. done. }
      destruct (IH p (S i) _ st' nt1 Hrun Hp1 Hrest1)
        as (Hfo & Hnt & Hmono & Hother & nt' & Hp' & Hid & Hbefore & Hfields).
      repeat split; try done.
      * intros q Hq. rewrite Hother by done. simpl. by rewrite lookup_alter_ne.
      * exists nt'. repeat split; try done.
        -- intros j Hj. rewrite Hbefore by lia. simpl.
           rewrite list_lookup_insert_ne by lia. done.
        -- intros [|k] field' f' Hk Hf'; simpl in Hk.
           ++ injection Hk as <-. rewrite Hf in Hf'. injection Hf' as <-.
              exists existing. split; [by apply Hmono|].
              rewrite Nat.add_0_r, Hbefore by lia. simpl.
              by rewrite list_lookup_insert_eq.
           ++ destruct (Hfields k field' f' Hk Hf') as (c & Hc1 & Hc2).
              exists c. split; [done|]. by rewrite <- Nat.add_succ_comm.
    + (* a new id: the entry becomes the canonical one *)
      destruct (mapSet (NodeFields (config st)) (FieldConfig.Id f) field)
        as [fs| |] eqn:Hset; [|done|done].
      assert (Hp1 : typeObjs (set_NodeFields fs st) !! p = Some nt) by done.
      destruct (IH p (S i) _ st' nt Hrun Hp1 Hrest)
        as (Hfo & Hnt & Hmono & Hother & nt' & Hp' & Hid & Hbefore & Hfields).
      repeat split; try done.
      * intros F c HF. apply Hmono. simpl.
        destruct (decide (FieldConfig.Id f = F)) as [<-|Hne]; [congruence|].
        by rewrite (mapGet_mapSet_ne _ _ _ _ _ Hset).
      * exists nt'. repeat split; try done.
        -- intros j Hj. apply Hbefore. lia.
        -- intros [|k] field' f' Hk Hf'; simpl in Hk.
           ++ injection Hk as <-. rewrite Hf in Hf'. injection Hf' as <-.
              exists field. split.
              ** apply Hmono. simpl. by apply (mapGet_mapSet_eq _ _ _ _ Hset).
              ** rewrite Nat.add_0_r, Hbefore by lia. done.
           ++ destruct (Hfields k field' f' Hk Hf') as (c & Hc1 & Hc2).
              exists c. split; [done|]. by rewrite <- Nat.add_succ_comm.
Qed.

(** A registration that succeeds.  (When the map of types is [nil] the
    map of fields is made anew with it, so entries of the map of fields
    are kept for sure only from a state with a map of types.) *)
Lemma RegisterNodeType_ok p st st' :
  RegisterNodeType p st = (Ok tt, st') ->
  exists nt nt',
    typeObjs st !! p = Some nt /\
    mapGet (NodeTypes (config st)) (NodeType.Id nt) = None /\
    fieldObjs st' = fieldObjs st /\
    mapGet (NodeTypes (config st')) (NodeType.Id nt) = Some p /\
    (forall X q, mapGet (NodeTypes (config st)) X = Some q ->
                 mapGet (NodeTypes (config st')) X = Some q) /\
    (forall F c, is_Some (NodeTypes (config st)) ->
                 mapGet (NodeFields (config st)) F = Some c ->
                 mapGet (NodeFields (config st')) F = Some c) /\
    (forall q, q <> p -> typeObjs st' !! q = typeObjs st !! q) /\
    typeObjs st' !! p = Some nt' /\
    NodeType.Id nt' = NodeType.Id nt /\
    forall k field f,
      NodeType.Fields nt !! k = Some field -> fieldObjs st !! field = Some f ->
      exists c, mapGet (NodeFields (config st')) (FieldConfig.Id f) = Some c /\
                NodeType.Fields nt' !! k = Some c.
Proof.
  unfold RegisterNodeType. intros Hrun.
  destruct (typeObjs st !! p) as [nt|] eqn:Hp; [|done].
  destruct (mapGet (NodeTypes (config st)) (NodeType.Id nt)) eqn:Hnew; [done|].
  set (st1 := match NodeTypes (config st) with
              | None => set_NodeFields (Some ∅) (set_NodeTypes (Some ∅) st)
              | Some _ => st
              end) in *.
  assert (H1 : typeObjs st1 = typeObjs st /\ fieldObjs st1 = fieldObjs st /\
               (forall X, mapGet (NodeTypes (config st1)) X
                          = mapGet (NodeTypes (config st)) X) /\
               (forall F c, is_Some (NodeTypes (config st)) ->
                            mapGet (NodeFields (config st)) F = Some c ->
                            mapGet (NodeFields (config st1)) F = Some c)).
  { unfold st1. destruct (NodeTypes (config st)) as [g|] eqn:Hg.
    - repeat split; auto. intros X. by rewrite Hg.
    - repeat split; try done. }
  destruct H1 as (Hto & Hfo & Hnt1 & Hnf1). clearbody st1.
  destruct (mapSet (NodeTypes (config st1)) (NodeType.Id nt) p)
    as [ts| |] eqn:Hset; [|done|done].
  assert (Hp2 : typeObjs (set_NodeTypes ts st1) !! p = Some nt)
    by (simpl; by rewrite Hto).
  destruct (registerFields_ok _ _ _ _ _ _ Hrun Hp2 eq_refl)
    as (Hfo' & Hnt' & Hmono & Hother & nt' & Hp' & Hid & _ & Hfields).
  exists nt, nt'. repeat split; try done.
  - by rewrite Hfo'.
  - rewrite Hnt'. simpl. by apply (mapGet_mapSet_eq _ _ _ _ Hset).
  - intros X q HX. rewrite Hnt'. simpl.
    destruct (decide (NodeType.Id nt = X)) as [<-|Hne]; [congruence|].
    by rewrite (mapGet_mapSet_ne _ _ _ _ _ Hset), Hnt1.
  - intros F c Hsome HF. apply Hmono. simpl. by apply Hnf1.
  - intros q Hq. rewrite Hother by done. simpl. by rewrite Hto.
  - intros k field f Hk Hf. apply (Hfields k field f Hk). simpl. by rewrite Hfo.
Qed.

(** C2.  When a type with the id of [nodeType] is registered already,
    [RegisterNodeType] returns the error and leaves the state as it was:
    [GetNodeType] still gives the definition it gave before, and the map
    of fields has not changed. *)
Theorem RegisterNodeType_duplicate st p nt q def :
  typeObjs st !! p = Some nt ->
  mapGet (NodeTypes (config st)) (NodeType.Id nt) = Some q ->
  GetNodeType (NodeType.Id nt) st = Ok def ->
  RegisterNodeType p st
  = (Err ("Node type with id " +:+ NodeType.Id nt +:+ " does already exist"),
     st) /\
  GetNodeType (NodeType.Id nt) (RegisterNodeType p st).2 = Ok def /\
  NodeFields (config (RegisterNodeType p st).2) = NodeFields (config st) /\
  fieldObjs (RegisterNodeType p st).2 = fieldObjs st /\
  typeObjs (RegisterNodeType p st).2 = typeObjs st.
Proof.
  intros Hp Hq Hdef.
  assert (Hrun : RegisterNodeType p st
    = (Err ("Node type with id " +:+ NodeType.Id nt +:+ " does already exist"),
       st)).
  { unfold RegisterNodeType. by rewrite Hp, Hq. }
  rewrite Hrun. simpl. done.
Qed.

Lemma RegisterNodeType_duplicate_witness :
  RegisterNodeType 3 clashState
  = (Err "Node type with id core.Document does already exist", clashState) /\
  GetNodeType "core.Document" (RegisterNodeType 3 clashState).2
  = Ok documentType /\
  NodeFields (config (RegisterNodeType 3 clashState).2)
  = NodeFields (config clashState) /\
  fieldObjs (RegisterNodeType 3 clashState).2 = fieldObjs clashState /\
  typeObjs (RegisterNodeType 3 clashState).2 = typeObjs clashState.
Proof.
  exact (RegisterNodeType_duplicate clashState 3 clashType 1 documentType
           eq_refl eq_refl eq_refl).
Defined.

(** C7.  When type [A], whose [i]-th field has id [F], is registered and
    then type [B], whose [j]-th field has id [F] too, both end up with the
    same pointer at these places: the canonical one of the map of fields,
    which was there before [B] was registered.  A write through either
    entry is read through the other. *)
Theorem RegisterNodeType_shares_fields st st1 st2 pA pB A B i j fa fb cfgA cfgB F :
  typeObjs st !! pA = Some A ->
  NodeType.Fields A !! i = Some fa ->
  fieldObjs st !! fa = Some cfgA ->
  FieldConfig.Id cfgA = F ->
  RegisterNodeType pA st = (Ok tt, st1) ->
  typeObjs st1 !! pB = Some B ->
  NodeType.Fields B !! j = Some fb ->
  fieldObjs st1 !! fb = Some cfgB ->
  FieldConfig.Id cfgB = F ->
  RegisterNodeType pB st1 = (Ok tt, st2) ->
  exists c A' B',
    mapGet (NodeFields (config st1)) F = Some c /\
    mapGet (NodeFields (config st2)) F = Some c /\
    typeObjs st2 !! pA = Some A' /\ NodeType.Fields A' !! i = Some c /\
    typeObjs st2 !! pB = Some B' /\ NodeType.Fields B' !! j = Some c /\
    forall v,
      fieldOf (mutateField st2 pA i v) pB j = Some v /\
      fieldOf (mutateField st2 pB j v) pA i = Some v.
Proof.
  intros HA Hi Hfa HF HregA HB Hj Hfb HF' HregB.
  destruct (RegisterNodeType_ok _ _ _ HregA)
    as (A0 & A1 & HA0 & _ & Hfo1 & HidA & _ & _ & _ & HA1 & HidA1 & HfieldsA).
  rewrite HA in HA0. injection HA0 as <-.
  destruct (HfieldsA i fa cfgA Hi Hfa) as (c & Hc1 & HcA). rewrite HF in Hc1.
  destruct (RegisterNodeType_ok _ _ _ HregB)
    as (B0 & B2 & HB0 & HnewB & Hfo2 & _ & _ & Hmono & Hother & HB2 & _ & HfieldsB).
  rewrite HB in HB0. injection HB0 as <-.
  assert (Hne : pA <> pB).
  { intros <-. rewrite HA1 in HB. injection HB as <-.
    rewrite HidA1, HidA in HnewB. done. }
  destruct (HfieldsB j fb cfgB Hj Hfb) as (c' & Hc2 & HcB). rewrite HF' in Hc2.
  assert (Hc2' : mapGet (NodeFields (config st2)) F = Some c).
  { apply Hmono; [|done]. destruct (NodeTypes (config st1)); [by eexists|done]. }
  assert (c' = c) as -> by congruence.
  assert (HA2 : typeObjs st2 !! pA = Some A1) by (rewrite Hother; done).
  exists c, A1, B2. repeat split; try done.
  - unfold mutateField, fieldOf. rewrite HA2. simpl. rewrite HcA. simpl.
    rewrite HB2. simpl. rewrite HcB. simpl. apply lookup_insert_eq.
  - unfold mutateField, fieldOf. rewrite HB2. simpl. rewrite HcB. simpl.
    rewrite HA2. simpl. rewrite HcA. simpl. apply lookup_insert_eq.
Qed.

(** [core.Document] and [core.File] of [initNodeTypes]: the title entry
    of [core.File] becomes the title object of [core.Document]. *)
Lemma RegisterNodeType_shares_fields_witness :
  let st1 := (RegisterNodeType 1 initState).2 in
  let st2 := (RegisterNodeType 2 st1).2 in
  exists c A' B',
    mapGet (NodeFields (config st1)) "core.Title" = Some c /\
    mapGet (NodeFields (config st2)) "core.Title" = Some c /\
    typeObjs st2 !! 1 = Some A' /\ NodeType.Fields A' !! 0 = Some c /\
    typeObjs st2 !! 2 = Some B' /\ NodeType.Fields B' !! 0 = Some c /\
    forall v,
      fieldOf (mutateField st2 1 0 v) 2 0 = Some v /\
      fieldOf (mutateField st2 2 0 v) 1 0 = Some v.
Proof.
  intros st1 st2.
  apply (RegisterNodeType_shares_fields initState st1 st2 1 2
           documentType fileType 0 0 10 12 titleField titleRef "core.Title");
    reflexivity.
Defined.

Example fileType_after_registration :
  GetNodeType "core.File" (RegisterNodeType 2 (RegisterNodeType 1 initState).2).2
  = Ok (NodeType.mk "core.File" false ["."] [] [10; 13]).
Proof. reflexivity. Qed.

End Registry.

(** ** Published services *)

Section Services.

Implicit Types (st : state) (service path : string).

(** C10, as amended.  [PublishService] returns the error for every
    service and path, and no path is added: what is stored for any service
    name is what was stored before, and nothing but the [Services] field
    is touched; that field changes only from the [nil] map to an empty
    one. *)
Theorem PublishService_rejects st service path :
  (PublishService service path st).1
  = Err ("Unknown service type " +:+ service) /\
  (forall name,
     mapGet (Services (svc (PublishService service path st).2)) name
     = mapGet (Services (svc st)) name) /\
  entries (Services (svc (PublishService service path st).2))
  = entries (Services (svc st)) /\
  with_svc (set_Services (Services (svc st))) (PublishService service path st).2
  = st /\
  Services (svc (PublishService service path st).2)
  = Some (entries (Services (svc st))).
Proof.
  unfold PublishService. simpl.
  destruct st as [ts fs n [sv cf sn sb sr]]. simpl.
  destruct sv as [g|]; simpl; repeat split; done.
Qed.

(** C10, as stated, fails on the first call: the service had no map of
    services and has one, empty, afterwards. *)
Lemma PublishService_makes_the_map :
  Services (svc emptyState) = None /\
  Services (svc (PublishService "Data" "/var/run/data.socket" emptyState).2)
  = Some ∅ /\
  (PublishService "Data" "/var/run/data.socket" emptyState).2 <> emptyState.
Proof. repeat split; done. Qed.

(** The statements after the [switch] are never reached: whatever the
    cases listed, a [switch] whose [default] returns does not fall
    through when no case does. *)
Lemma switch_default_returns {A} v (cases : list (string * flow A)) r :
  Forall (fun c => c.2 <> FallsThrough) cases ->
  switch v cases (Returned r) <> FallsThrough.
Proof.
  induction 1 as [|[c body] cases Hc _ IH]; simpl; [done|].
  by destruct (decide (v = c)).
Qed.

End Services.

(** ** The signal bus *)

Section SignalBus.

Implicit Types (m : MonstiService) (st : state) (ids : list string)
  (tr pre post : list event) (c : chan) (r : emitRet) (s : signal).

Lemma nonempty_error r :
  Nat.ltb 0 (String.length (Error r)) = true <-> Error r <> "".
Proof.
  rewrite Nat.ltb_lt. destruct (Error r); simpl; split; (done || lia).
Qed.

(** One round of the loop of [EmitSignal]: what an execution can have
    done when a subscriber is still to be asked. *)
Lemma emitLoop_round m Name Args id rest n ret tr (cfg' : nat * proc (list string)) :
  exec (n, emitLoop m Name Args (id :: rest) ret) tr cfg' ->
  tr = [] /\ pending cfg' \/
  tr = [EvMake n] /\ pending cfg' \/
  exists c, mapGet (subscriber m) id = Some c /\
    (tr = [EvMake n; EvSend c (mkSignal Name Args n)] /\ pending cfg' \/
     exists r tr',
       tr = EvMake n :: EvSend c (mkSignal Name Args n) :: EvRecv n r :: tr' /\
       if Nat.ltb 0 (String.length (Error r)) then
         tr' = [] /\
         cfg' = (S n, Finished
                        (Err ("Received error as signal response: " +:+ Error r)))
       else exec (S n, emitLoop m Name Args rest (ret ++ [Ret r])) tr' cfg').
Proof.
  intros H. inversion H as [|? e1 cfg1 tr1 ? Hs1 H1]; subst; [by left|].
  right. simpl in Hs1. inversion Hs1; subst.
  inversion H1 as [|? e2 cfg2 tr2 ? Hs2 H2]; subst; [by left|].
  right. inversion Hs2; subst. exists c. split; [done|].
  inversion H2 as [|? e3 cfg3 tr3 ? Hs3 H3]; subst; [by left|].
  right. inversion Hs3; subst. exists r, tr3. split; [done|].
  destruct (Nat.ltb 0 (String.length (Error r))); [|done].
  inversion H3 as [|? ? ? ? ? Hs4]; subst; [done|]. inversion Hs4.
Qed.

(** Peel the first event off a split [pre ++ e :: post] of a trace. *)
Ltac peel pre := destruct pre as [|? pre]; simplify_eq/=.

(** Every execution of the loop, from any round on: the deliveries go
    to the channels of the first [k] subscribers still to be asked, in
    their order, and carry the signal; when a delivery is made, the
    result of every earlier one has been received on its own channel; a
    result with an error ends the execution with that error returned; and
    when the results are returned, every subscriber has been asked. *)
Lemma emitLoop_exec m Name Args ids :
  forall n ret tr (cfg' : nat * proc (list string)),
  exec (n, emitLoop m Name Args ids ret) tr cfg' ->
  (exists k, k <= length ids /\
     Some <$> (deliveries tr).*1 = mapGet (subscriber m) <$> take k ids) /\
  Forall (fun d => SignalName d.2 = Name /\ SignalArgs d.2 = Args)
    (deliveries tr) /\
  (forall pre c s post,
     tr = pre ++ EvSend c s :: post ->
     (received pre).*1 = SignalRet <$> (deliveries pre).*2) /\
  (forall pre c r post,
     tr = pre ++ EvRecv c r :: post -> Error r <> "" ->
     post = [] /\
     cfg'.2 = Finished
                (Err ("Received error as signal response: " +:+ Error r))) /\
  (forall rets,
     cfg'.2 = Finished (Ok rets) ->
     Some <$> (deliveries tr).*1 = mapGet (subscriber m) <$> ids /\
     rets = ret ++ (Ret <$> (received tr).*2)).
Proof.
  induction ids as [|id rest IH]; intros n ret tr cfg' Hexec.
  - inversion Hexec as [|? ? ? ? ? Hs]; subst; [|inversion Hs].
    split; [exists 0; done|]. split; [constructor|].
    split; [|split]; try (intros pre ? ? ? H; by destruct pre).
    intros rets [= <-]. by rewrite app_nil_r.
  - apply emitLoop_round in Hexec
      as [[-> Hp] | [[-> Hp] | (c & Hc & [[-> Hp] | (r & tr' & -> & Hr)])]].
    + split; [exists 0; split; [lia|done]|]. split; [constructor|].
      split; [|split]; try (intros pre ? ? ? H; by destruct pre).
      intros rets Hf. by destruct (Hp rets).
    + split; [exists 0; split; [simpl; lia|done]|]. split; [constructor|].
      split; [|split]; try (intros pre ? ? ? H; peel pre; by destruct pre).
      intros rets Hf. by destruct (Hp rets).
    + split; [exists 1; split; [simpl; lia|simpl; by rewrite Hc]|].
      split; [by repeat constructor|].
      split; [|split];
        try (intros pre ? ? ? H; peel pre; peel pre; try done; by destruct pre).
      intros rets Hf. by destruct (Hp rets).
    + destruct (Nat.ltb 0 (String.length (Error r))) eqn:Herr.
      * destruct Hr as [-> ->].
        split; [exists 1; split; [simpl; lia|simpl; by rewrite Hc]|].
        split; [by repeat constructor|].
        split; [|split];
          try (intros pre ? ? ? H; peel pre; peel pre; try done;
               peel pre; try done; by destruct pre).
        intros rets [=].
      * destruct (IH _ _ _ _ Hr)
          as ((k & Hk & Hdel) & Hsig & Hseq & Hshort & Hall).
        split; [exists (S k); split; [simpl; lia|]|].
        { cbn [deliveries take]. rewrite !fmap_cons. cbn [fst].
          by rewrite Hc, Hdel. }
        split; [by repeat constructor|].
        split; [|split].
        -- intros pre ? ? ? H; peel pre; peel pre; try done; peel pre.
           f_equal. by eapply Hseq.
        -- intros pre ? ? ? H; peel pre; peel pre; try done; peel pre.
           ++ intros Hne. apply nonempty_error in Hne. congruence.
           ++ by eapply Hshort.
        -- intros rets Hf. destruct (Hall rets Hf) as [Hd ->].
           cbn [deliveries received]. rewrite !fmap_cons. cbn [fst snd].
           rewrite Hc, Hd. split; [done|]. by rewrite <- app_assoc.
Qed.

(** With a channel for every subscriber and results without errors,
    the loop runs to its end and returns the results in the order of the
    subscribers. *)
Lemma emitLoop_completes m Name Args ids :
  forall replies n ret,
  Forall (fun id => is_Some (mapGet (subscriber m) id)) ids ->
  length replies = length ids ->
  Forall (fun r => Error r = "") replies ->
  exec (n, emitLoop m Name Args ids ret)
    (rounds m Name Args n ids replies)
    (n + length ids, Finished (Ok (ret ++ (Ret <$> replies)))).
Proof.
  induction ids as [|id rest IH]; intros [|r replies] n ret Hch Hlen Hok;
    try done.
  - simpl. rewrite Nat.add_0_r, app_nil_r. constructor.
  - inversion Hch as [|? ? [c Hc] Hch']; subst.
    inversion Hok as [|? ? Hr Hok']; subst.
    simpl. rewrite Hc. simpl.
    eapply exec_cons; [constructor|].
    eapply exec_cons; [constructor|].
    eapply exec_cons; [constructor|].
    cbn beta. rewrite Hr. simpl.
    replace (n + S (length rest)) with (S n + length rest) by lia.
    specialize (IH replies (S n) (ret ++ [Ret r]) Hch'
                  ltac:(by injection Hlen) Hok').
    rewrite <- app_assoc in IH. exact IH.
Qed.

(** What a call of [ConnectSignal] that returns leaves behind. *)
Lemma ConnectSignal_ok Id Signal st st' :
  ConnectSignal Id Signal st = (Ok tt, st') ->
  mapGet (subscriptions (svc st')) Signal
  = Some (default [] (mapGet (subscriptions (svc st)) Signal) ++ [Id]) /\
  (forall sig, sig <> Signal ->
     mapGet (subscriptions (svc st')) sig = mapGet (subscriptions (svc st)) sig) /\
  is_Some (mapGet (subscriber (svc st')) Id) /\
  (is_Some (subscriptions (svc st)) ->
   forall id c, mapGet (subscriber (svc st)) id = Some c ->
                mapGet (subscriber (svc st')) id = Some c) /\
  (is_Some (subscriptions (svc st)) ->
   is_Some (mapGet (subscriber (svc st)) Id) ->
   subscriber (svc st') = subscriber (svc st) /\ nchan st' = nchan st).
Proof.
  unfold ConnectSignal.
  destruct st as [ts fs n [sv cf [sn|] sb sr]]; simpl.
  - destruct sb as [g|]; simpl; [|done].
    destruct (g !! Id) as [c|] eqn:Hid; intros [= <-]; simpl;
      rewrite ?lookup_insert_eq, ?Hid; repeat split;
      try done; try (by eexists);
      try (intros sig Hne; by rewrite lookup_insert_ne);
      try (by intros _ [? [=]]).
    intros _ id c Hc. rewrite lookup_insert_ne; [done|]. congruence.
  - rewrite !lookup_empty. simpl. intros [= <-]. simpl.
    rewrite !lookup_insert_eq.
    repeat split; try done; try (by eexists); try (by intros [? [=]]).
    intros sig Hne. by rewrite lookup_insert_ne.
Qed.

(** Every subscribed id keeps having a channel. *)
Lemma ConnectSignal_connected Id Signal st st' :
  connected (svc st) ->
  ConnectSignal Id Signal st = (Ok tt, st') ->
  connected (svc st').
Proof.
  intros Hconn Hrun.
  destruct (ConnectSignal_ok _ _ _ _ Hrun) as (Hsub & Hother & Hid & Hkeep & _).
  intros sig ids id Hsig Hin.
  destruct (decide (sig = Signal)) as [->|Hne].
  - rewrite Hsub in Hsig. injection Hsig as <-.
    apply elem_of_app in Hin as [Hin | Hin%list_elem_of_singleton];
      [|by subst].
    destruct (mapGet (subscriptions (svc st)) Signal) as [old|] eqn:Hold;
      [|by apply elem_of_nil in Hin].
    destruct (Hconn _ _ _ Hold Hin) as [c Hc]. exists c.
    apply Hkeep; [|done]. destruct (subscriptions (svc st)); [by eexists|done].
  - rewrite Hother in Hsig by done.
    destruct (Hconn _ _ _ Hsig Hin) as [c Hc]. exists c.
    apply Hkeep; [|done]. destruct (subscriptions (svc st)); [by eexists|done].
Qed.

Lemma emptyService_connected : connected emptyService.
Proof. intros sig ids id [=]. Qed.

(** The result that [FinishSignal] sends goes onto the return channel of
    the signal that [WaitSignal] handed out last to that subscriber. *)
Lemma FinishSignal_answers st sig args :
  FinishSignal args (svc (WaitSignalDone (FinishId args) sig st).2)
  = SendRet (Some (SignalRet sig)) (mkEmitRet (FinishRet args) (FinishErr args))
      (Finished (Ok tt)).
Proof.
  unfold FinishSignal, WaitSignalDone. simpl. by rewrite lookup_insert_eq.
Qed.






(** C6, as stated, fails: the second call of [ConnectSignal] appends the
    id a second time, the state differs from the one after the first
    call, and [EmitSignal] asks the subscriber twice. *)
Lemma ConnectSignal_twice_subscribes_twice :
  mapGet (subscriptions (svc connectedOnce)) "X" = Some ["S1"] /\
  mapGet (subscriptions (svc connectedTwice)) "X" = Some ["S1"; "S1"] /\
  connectedTwice <> connectedOnce /\
  mapGet (subscriber (svc connectedTwice)) "S1" = Some 0 /\
  exists tr,
    exec (1, EmitSignal "X" "args" (svc connectedTwice)) tr
      (3, Finished (Ok ["one"; "two"])) /\
    (deliveries tr).*1 = [0; 0].
Proof.
  split; [reflexivity|]. split; [reflexivity|]. split; [|split; [reflexivity|]].
  - intros H. apply (f_equal (fun st => mapGet (subscriptions (svc st)) "X")) in H.
    discriminate H.
  - exists (rounds (svc connectedTwice) "X" "args" 1 ["S1"; "S1"]
              [mkEmitRet "one" ""; mkEmitRet "two" ""]).
    split; [|reflexivity].
    repeat (eapply exec_cons; [constructor|]). apply exec_nil.
Qed.

Lemma ConnectSignal_again Id Signal st :
  is_Some (subscriptions (svc st)) ->
  is_Some (mapGet (subscriber (svc st)) Id) ->
  exists st', ConnectSignal Id Signal st = (Ok tt, st').
Proof.
  destruct st as [ts fs n [sv cf sn sb sr]]; simpl. intros [g ->] [c Hc].
  unfold ConnectSignal. simpl. rewrite Hc. eauto.
Qed.

(** C6, as amended.  A second [ConnectSignal] with the same id and
    signal returns as well and appends the id once more: the list of the
    signal ends with the id twice.  Only the channel is made once: the
    map of channels and the count of channels are as after the first
    call.  An [EmitSignal] that returns results has then asked the
    channel of the id twice after the earlier subscribers. *)
Theorem ConnectSignal_appends_again Id Signal st st1 :
  ConnectSignal Id Signal st = (Ok tt, st1) ->
  exists st2 c,
    ConnectSignal Id Signal st1 = (Ok tt, st2) /\
    mapGet (subscriptions (svc st2)) Signal
    = Some (default [] (mapGet (subscriptions (svc st)) Signal) ++ [Id; Id]) /\
    subscriber (svc st2) = subscriber (svc st1) /\
    nchan st2 = nchan st1 /\
    mapGet (subscriber (svc st2)) Id = Some c /\
    forall Args n tr (cfg' : nat * proc (list string)) rets,
      exec (n, EmitSignal Signal Args (svc st2)) tr cfg' ->
      cfg'.2 = Finished (Ok rets) ->
      Some <$> (deliveries tr).*1
      = (mapGet (subscriber (svc st2))
           <$> default [] (mapGet (subscriptions (svc st)) Signal))
        ++ [Some c; Some c].
Proof.
  intros H1.
  destruct (ConnectSignal_ok _ _ _ _ H1) as (Hsub1 & _ & [c Hc1] & _ & _).
  assert (Hs1 : is_Some (subscriptions (svc st1))).
  { destruct (subscriptions (svc st1)); [by eexists|done]. }
  destruct (ConnectSignal_again Id Signal st1 Hs1) as [st2 H2]; [by eexists|].
  destruct (ConnectSignal_ok _ _ _ _ H2) as (Hsub2 & _ & _ & _ & Hsame).
  rewrite Hsub1 in Hsub2. simpl in Hsub2. rewrite <- app_assoc in Hsub2.
  destruct Hsame as [Hsb Hn]; [done|by eexists|].
  exists st2, c. split; [done|]. split; [done|]. split; [done|].
  split; [done|]. split; [by rewrite Hsb|].
  intros Args n tr cfg' rets Hexec Hret. unfold EmitSignal in Hexec.
  rewrite Hsub2 in Hexec. simpl in Hexec.
  apply emitLoop_exec in Hexec as (_ & _ & _ & _ & Hall).
  destruct (Hall rets Hret) as [-> _].
  rewrite fmap_app. simpl. by rewrite Hsb, Hc1.
Qed.

Lemma ConnectSignal_appends_again_witness :
  ConnectSignal "S1" "X" emptyState = (Ok tt, connectedOnce) /\
  exists st2 c,
    ConnectSignal "S1" "X" connectedOnce = (Ok tt, st2) /\
    mapGet (subscriptions (svc st2)) "X"
    = Some (default [] (mapGet (subscriptions (svc emptyState)) "X")
            ++ ["S1"; "S1"]) /\
    subscriber (svc st2) = subscriber (svc connectedOnce) /\
    nchan st2 = nchan connectedOnce /\
    mapGet (subscriber (svc st2)) "S1" = Some c /\
    forall Args n tr (cfg' : nat * proc (list string)) rets,
      exec (n, EmitSignal "X" Args (svc st2)) tr cfg' ->
      cfg'.2 = Finished (Ok rets) ->
      Some <$> (deliveries tr).*1
      = (mapGet (subscriber (svc st2))
           <$> default [] (mapGet (subscriptions (svc emptyState)) "X"))
        ++ [Some c; Some c].
Proof.
  split; [reflexivity|].
  exact (ConnectSignal_appends_again "S1" "X" emptyState connectedOnce eq_refl).
Defined.

End SignalBus.

(** ** The node store *)

Section Store.

Implicit Types (fs : tree) (root path : string) (files : list FileInfo)
  (nodes : list string).

(** The loop of [getChildren] never reports an error: the one it tests
    is the error of [ReadDir], which is [nil] when the loop is entered. *)
Lemma getChildrenLoop_reports_nothing fs root path files :
  forall nodes res err,
  getChildrenLoop fs root path None files nodes = Ok (res, err) ->
  err = None.
Proof.
  induction files as [|file rest IH]; intros nodes res err; simpl.
  - by intros [= _ <-].
  - destruct (getNode fs root (Filepath.Join [path; FileName file]))
      as [[node e]| |]; simpl; try done.
    destruct node; [apply IH|]. destruct (IsDir file); apply IH.
Qed.

(** C3, on a listing in which the [node.json] of the child [b] cannot be
    opened: [getNode] gives the error for [/a/b], but [GetChildren]
    returns the whole list, with a placeholder for [b], and no error. *)
Theorem GetChildren_drops_read_error :
  GetNode siteRoot lockedSite "site" "/a/b"
  = Ok (None,
        Some (mkPathError "open" "/srv/site/a/b/node.json" EACCES)) /\
  GetChildren siteRoot lockedSite "site" "/a"
  = Ok ([placeholderJSON "/a/b";
         "{" +:+ Fmt.quoted "Path" +:+ ":" +:+ Fmt.quoted "/a/c" +:+ ","
           +:+ Fmt.quoted "Type" +:+ ":" +:+ Fmt.quoted "core.Document"
           +:+ "}"],
        None).
Proof. split; reflexivity. Qed.

(** Plain files are skipped the same way: reading the [node.json] of a
    plain file fails, the file not being a directory, and the failure is
    not looked at. *)
Example GetChildren_skips_plain_files :
  GetNode siteRoot plainSite "site" "/a/node.json"
  = Ok (None,
        Some (mkPathError "open" "/srv/site/a/node.json/node.json" ENOTDIR)) /\
  GetChildren siteRoot plainSite "site" "/a"
  = Ok ([JSON.print (JObject [("Path", JString "/a/c");
                              ("Type", JString "core.Document")])],
        None).
Proof. split; reflexivity. Qed.

(** An error of [getChildren] is the error of [ReadDir]. *)
Lemma getChildren_error fs root path res e :
  getChildren fs root path = Ok (res, Some e) ->
  (FS.ReadDir fs (Filepath.Join [root; path])).2 = Some e.
Proof.
  unfold getChildren.
  destruct (FS.ReadDir fs (Filepath.Join [root; path])) as [files [e'|]];
    simpl.
  - by intros [= _ <-].
  - intros H. by apply getChildrenLoop_reports_nothing in H.
Qed.

(** *** Writing, then reading *)

Lemma assoc_put name t es : FS.assoc name (FS.put name t es) = Some t.
Proof.
  induction es as [|[n u] es IH]; simpl.
  - by rewrite decide_True.
  - destruct (decide (n = name)) as [->|Hne]; simpl.
    + by rewrite decide_True.
    + destruct (String.ltb name n); simpl.
      * by rewrite decide_True.
      * by rewrite decide_False.
Qed.

Lemma substring_all s : String.substring 0 (String.length s) s = s.
Proof. induction s as [|c s IH]; simpl; [done|by rewrite IH]. Qed.

(** [Path[1:]] is the path without its first byte, and panics on the
    empty path only. *)
Lemma slice_from_1 Path :
  GoString.slice Path 1 (GoString.len Path)
  = if decide (Path = "") then Panic "slice bounds out of range"
    else Ok (GoString.drop 1 Path).
Proof.
  unfold GoString.slice, GoString.len. destruct Path as [|c r].
  - done.
  - rewrite decide_False by done. cbn [String.length GoString.drop].
    replace ((0 <=? 1)%Z && (1 <=? Z.of_nat (S (String.length r)))%Z
             && (Z.of_nat (S (String.length r))
                 <=? Z.of_nat (S (String.length r)))%Z) with true.
    2:{ symmetry. rewrite !andb_true_iff, !Z.leb_le. lia. }
    replace (Z.to_nat (Z.of_nat (S (String.length r)) - 1))
      with (String.length r) by lia.
    simpl. by rewrite substring_all.
Qed.

Lemma assoc_put_ne name name' t es :
  name' <> name -> FS.assoc name' (FS.put name t es) = FS.assoc name' es.
Proof.
  intros Hne. induction es as [|[n u] es IH]; simpl.
  - by rewrite decide_False.
  - destruct (decide (n = name)) as [->|Hn]; simpl.
    + by rewrite !decide_False.
    + destruct (String.ltb name n); simpl.
      * by rewrite (decide_False (P := name = name')).
      * by rewrite IH.
Qed.

(** Making directories changes nothing that is not a directory. *)
Lemma walk_mkdirAll p : forall q t t' u,
  FS.mkdirAll p t = inr t' ->
  FS.walk q t = inr u -> (forall es, u <> Dir es) ->
  FS.walk q t' = inr u.
Proof.
  induction p as [|c p IH]; intros q t t' u Hmk Hq Hu.
  - simpl in Hmk. destruct t; by simplify_eq.
  - simpl in Hmk. destruct t as [| |es]; try done.
    destruct (FS.mkdirAll p (default (Dir []) (FS.assoc c es))) as [|t1] eqn:H1;
      [done|]. injection Hmk as <-.
    destruct q as [|d q]; simpl in Hq; [injection Hq as <-; by destruct (Hu es)|].
    simpl. destruct (decide (d = c)) as [->|Hne].
    + rewrite assoc_put.
      destruct (FS.assoc c es) as [v|]; [|done]. by eapply IH.
    + by rewrite assoc_put_ne.
Qed.

(** Making directories adds nothing that is not a directory. *)
Lemma walk_mkdirAll_back p : forall q t t' u,
  FS.mkdirAll p t = inr t' ->
  FS.walk q t' = inr u -> (forall es, u <> Dir es) ->
  FS.walk q t = inr u.
Proof.
  induction p as [|c p IH]; intros q t t' u Hmk Hq Hu.
  - simpl in Hmk. destruct t; by simplify_eq.
  - simpl in Hmk. destruct t as [| |es]; try done.
    destruct (FS.mkdirAll p (default (Dir []) (FS.assoc c es))) as [|t1] eqn:H1;
      [done|]. injection Hmk as <-.
    destruct q as [|d q]; simpl in Hq;
      [injection Hq as <-; by destruct (Hu (FS.put c t1 es))|].
    simpl. destruct (decide (d = c)) as [->|Hne].
    + rewrite assoc_put in Hq.
      destruct (FS.assoc c es) as [v|]; [by eapply IH|].
      exfalso. simpl in H1.
      assert (Hempty : FS.walk q (Dir []) = inr u) by (by eapply IH).
      destruct q as [|x q]; simpl in Hempty; [|done].
      injection Hempty as <-. by destruct (Hu []).
    + by rewrite assoc_put_ne in Hq.
Qed.

(** After [writeFile] the file holds the content, unless it was a file
    that cannot be read, which it still is. *)
Lemma walk_writeFile p : forall content t t',
  FS.writeFile p content t = inr t' ->
  FS.walk p t' = inr (File content) /\
  (forall partial e, FS.walk p t <> inr (Faulty partial e))
  \/ exists partial e,
       FS.walk p t = inr (Faulty partial e) /\
       FS.walk p t' = inr (Faulty None e).
Proof.
  induction p as [|c p IH]; intros content t t'; simpl; [done|].
  destruct t as [| |es]; try done.
  destruct p as [|c' p].
  - destruct (FS.assoc c es) as [[x|partial e|es']|] eqn:Hc; intros [= <-];
      simpl; rewrite assoc_put, ?Hc.
    + by left.
    + right. by exists partial, e.
    + by left.
  - destruct (FS.assoc c es) as [u|] eqn:Hc; [|done].
    destruct (FS.writeFile (c' :: p) content u) as [|u'] eqn:Hw; [done|].
    intros [= <-]. cbn [FS.walk]. rewrite assoc_put, ?Hc. by eapply IH.
Qed.

(** When [WriteNodeData] has written [node.json] where there was no
    file that cannot be read, [GetNode] returns what was written with the
    first brace replaced by the brace and the [Path] member. *)
Lemma GetNode_after_WriteNodeData site fs fs' Site path content :
  WriteNodeData site Site path "node.json" content fs = (Ok tt, fs') ->
  (forall partial e,
     FS.walk (dataFile (site Site) path "node.json") fs
     <> inr (Faulty partial e)) ->
  GetNode site fs' Site path
  = Ok (Bytes.Replace1 content "{" (pathJSON path), None).
Proof.
  unfold WriteNodeData, GetNode, getNode, dataFile. rewrite slice_from_1.
  destruct (decide (path = "")); [done|]. cbn [bind].
  set (file := Filepath.Join [site Site; GoString.drop 1 path; "node.json"]).
  unfold FS.MkdirAll.
  destruct (FS.mkdirAll (FS.steps (Filepath.Dir file)) fs) as [|fs1] eqn:Hmk;
    [done|].
  unfold FS.WriteFile.
  destruct (FS.writeFile (FS.steps file) content fs1) as [|fs2] eqn:Hw;
    [done|].
  intros [= <-] Hfile. unfold FS.ReadFile.
  destruct (walk_writeFile _ _ _ _ Hw) as [[-> _]|(partial & e & H1 & _)];
    [done|].
  destruct (Hfile partial e). by eapply walk_mkdirAll_back.
Qed.

(** What the replacement does to a text whose first brace comes after
    [lead]. *)
Lemma Replace1_first_brace lead rest new :
  GoString.contains "{" lead = false ->
  Bytes.Replace1 (lead +:+ "{" +:+ rest) "{" new = Some (lead +:+ new +:+ rest).
Proof.
  intros Hlead. unfold Bytes.Replace1.
  assert (H : Bytes.replaceFirst "{" new (lead +:+ "{" +:+ rest)
              = Some (lead +:+ new +:+ rest)); [|by rewrite H].
  induction lead as [|c lead IH].
  - change (Bytes.replaceFirst "{" new (String "{" rest) = Some (new +:+ rest)).
    simpl. by destruct rest.
  - simpl in Hlead. destruct (decide (c = "{"%char)) as [->|Hne]; [done|].
    change (Bytes.replaceFirst "{" new (String c (lead +:+ "{" +:+ rest))
            = Some (String c (lead +:+ new +:+ rest))).
    cbn [Bytes.replaceFirst String.prefix].
    destruct (ascii_dec "{" c) as [<-|_]; [done|].
    by rewrite IH.
Qed.

(** C8, on the empty object: [WriteNodeData] writes [{}] as the
    [node.json] of [/a/b]; [GetNode] then returns the text
    [{"Path":"/a/b",}], which is no JSON text at all (a member must follow
    the comma), although what was written is the JSON object without
    members. *)
Theorem GetNode_of_empty_object :
  WriteNodeData siteRoot "site" "/a/b" "node.json" "{}" emptySite
  = (Ok tt,
     Dir [("srv", Dir [("site", Dir [("a", Dir [("b", Dir [
       ("node.json", File "{}")])])])])]) /\
  JSON.parse "{}" = Some (JObject []) /\
  GetNode siteRoot
    (WriteNodeData siteRoot "site" "/a/b" "node.json" "{}" emptySite).2
    "site" "/a/b"
  = Ok (Some (pathJSON "/a/b" +:+ "}"), None) /\
  ~ JSON.wellFormed (pathJSON "/a/b" +:+ "}").
Proof.
  split; [reflexivity|]. split; [reflexivity|]. split; [reflexivity|].
  intros (fuel & v & H). unfold JSON.parseWith in H.
  do 3 (destruct fuel as [|fuel]; [discriminate H|]).
  vm_compute in H. discriminate H.
Qed.

(** With a member in the object the text returned is the object with
    [Path] put first. *)
Example GetNode_of_document :
  GetNode siteRoot
    (WriteNodeData siteRoot "site" "/a/b" "node.json" documentJSON emptySite).2
    "site" "/a/b"
  = Ok (Some (JSON.print (JObject [("Path", JString "/a/b");
                                   ("Type", JString "core.Document")])),
        None).
Proof. reflexivity. Qed.

(** [%q] writes the escapes of Go, which are not all escapes of JSON:
    for a path with the byte 7 the text returned is no JSON text
    either. *)
Example GetNode_of_bell_path :
  let path := "/a" +:+ String (ascii_of_nat 7) EmptyString in
  exists text,
    GetNode siteRoot
      (WriteNodeData siteRoot "site" path "node.json" documentJSON emptySite).2
      "site" path
    = Ok (Some text, None) /\
    JSON.parse text = None.
Proof. eexists. split; reflexivity. Qed.

End Store.

(** ** Site configuration *)

Section Configuration.

Variable Unmarshal : string -> string + json.
Variable Marshal : json -> string + string.
Variable GetSiteConfigPath : string -> string.

Implicit Types (fs : tree) (Site Name module rest : string).

Lemma cut_None sep s :
  GoString.cut sep s = None <-> GoString.contains sep s = false.
Proof.
  induction s as [|c s IH]; simpl; [done|].
  destruct (decide (c = sep)); [done|].
  destruct (GoString.cut sep s) as [[a b]|]; [|done].
  split; [done|]. intros H. apply IH in H. done.
Qed.

Lemma cut_Some sep s a b :
  GoString.cut sep s = Some (a, b) ->
  s = a +:+ String sep b /\ GoString.contains sep a = false.
Proof.
  revert a. induction s as [|c s IH]; intros a; simpl; [done|].
  destruct (decide (c = sep)) as [->|Hne].
  - by intros [= <- <-].
  - destruct (GoString.cut sep s) as [[a' b']|]; [|done].
    intros [= <- <-]. destruct (IH a' eq_refl) as [-> Ha]. simpl.
    by rewrite decide_False.
Qed.

(** [getConfig] always returns. *)
Lemma getConfig_returns fs path name :
  returns (getConfig Unmarshal Marshal fs path name).
Proof.
  unfold getConfig. destruct (FS.ReadFile fs path) as [content [e|]].
  - by destruct (IsNotExist (Some e)).
  - destruct (Unmarshal (default "" content)); [done|].
    by destruct (Marshal _).
Qed.

(** The loop of [getConfig] finds the value at the path of the names
    that count, and [null] when the path does not resolve. *)
Lemma descend_valueAt subs : forall target,
  descend target subs = default JNull (valueAt target (namesOf subs)).
Proof.
  induction subs as [|sub rest IH]; intros target; [done|].
  simpl. destruct (decide (sub = "")); [done|]. simpl.
  destruct target as [| ? | ? | ? | ? |ms]; try done.
  destruct (JSON.get sub ms); [apply IH|done].
Qed.

Lemma SplitN2_dotted module rest :
  GoString.contains "." module = false ->
  GoString.SplitN2 (module +:+ "." +:+ rest) "." = [module; rest].
Proof.
  intros Hmod. unfold GoString.SplitN2.
  assert (H : GoString.cut "." (module +:+ "." +:+ rest) = Some (module, rest));
    [|by rewrite H].
  induction module as [|c module IH].
  - reflexivity.
  - change (GoString.cut "." (String c (module +:+ "." +:+ rest))
            = Some (String c module, rest)).
    cbn [GoString.contains] in Hmod. cbn [GoString.cut].
    destruct (decide (c = "."%char)) as [|Hne]; [done|].
    by rewrite (IH Hmod).
Qed.

(** C9, as amended.  Without a dot in [Name] the slice [parts] has one
    element and [parts[1]] panics: [GetSiteConfig] returns neither a
    result nor an error.  A [Name] with a dot is a module without dot, the
    dot, and the rest; for such a name [GetSiteConfig] never panics and
    reads the file of the module: when the file does not exist it returns
    [nil] without error; when the file cannot be read, is not JSON, or
    the result cannot be encoded, it returns the error; and otherwise it
    returns, wrapped as [Value], the value at the path that the
    components of the rest before the first empty one name in the
    document, or [null] when that path does not resolve. *)
Theorem GetSiteConfig_needs_a_dot fs Site Name module rest :
  (GoString.contains "." Name = false ->
   GetSiteConfig Unmarshal Marshal GetSiteConfigPath fs Site Name
   = Panic "index out of range") /\
  (GoString.contains "." Name = true ->
   exists module rest,
     Name = module +:+ "." +:+ rest /\
     GoString.contains "." module = false) /\
  (GoString.contains "." module = false ->
   GetSiteConfig Unmarshal Marshal GetSiteConfigPath fs Site
     (module +:+ "." +:+ rest)
   = match FS.ReadFile fs
             (Filepath.Join [GetSiteConfigPath Site; module +:+ ".json"]) with
     | (_, Some e) =>
         if bool_decide (Errno e = ENOENT) then Ok None
         else Err ("Could not read configuration: " +:+ errorText e)
     | (content, None) =>
         match Unmarshal (default "" content) with
         | inl e => Err ("Could not parse configuration: " +:+ e)
         | inr doc =>
             match
               Marshal
                 (JObject
                    [("Value",
                      default JNull
                        (valueAt doc (namesOf (GoString.Split rest "."))))])
             with
             | inl e => Err ("Could not encode configuration: " +:+ e)
             | inr text => Ok (Some text)
             end
         end
     end).
Proof.
  split; [|split].
  - intros Hdot. unfold GetSiteConfig, GoString.SplitN2.
    apply cut_None in Hdot. by rewrite Hdot.
  - intros Hdot.
    destruct (GoString.cut "." Name) as [[module' rest']|] eqn:Hcut.
    + destruct (cut_Some _ _ _ _ Hcut) as [-> Hmod]. by exists module', rest'.
    + apply cut_None in Hcut. congruence.
  - intros Hmod. unfold GetSiteConfig. rewrite (SplitN2_dotted _ _ Hmod).
    cbn [at_ lookup list_lookup bind]. unfold getConfig.
    destruct (FS.ReadFile fs _) as [content [e|]]; [done|].
    destruct (Unmarshal (default "" content)) as [e|doc]; [done|].
    by rewrite descend_valueAt.
Qed.

End Configuration.

(** [core] alone panics; [core.Title.en] is looked up in [core.json],
    where it is found, [core.Title.fr] is not found there, [core.] asks
    for the whole document, and for [mail.Host] there is no file. *)
Lemma GetSiteConfig_needs_a_dot_witness :
  GetSiteConfig readJSON writeJSON configRoot configuredSite "site" "core"
  = Panic "index out of range" /\
  GetSiteConfig readJSON writeJSON configRoot configuredSite "site"
    "core.Title.en"
  = Ok (Some (JSON.print (JObject [("Value", JString "Monsti")]))) /\
  GetSiteConfig readJSON writeJSON configRoot configuredSite "site"
    "core.Title.fr"
  = Ok (Some (JSON.print (JObject [("Value", JNull)]))) /\
  GetSiteConfig readJSON writeJSON configRoot configuredSite "site" "core."
  = Ok (Some (JSON.print
                (JObject
                   [("Value",
                     JObject [("Title",
                               JObject [("en", JString "Monsti")])])]))) /\
  GetSiteConfig readJSON writeJSON configRoot configuredSite "site" "mail.Host"
  = Ok None.
Proof.
  split; [|split; [|split; [|split]]].
  - apply (GetSiteConfig_needs_a_dot readJSON writeJSON configRoot
             configuredSite "site" "core" "" ""). reflexivity.
  - etransitivity;
      [exact (proj2 (proj2 (GetSiteConfig_needs_a_dot readJSON writeJSON
                              configRoot configuredSite "site" "" "core"
                              "Title.en")) eq_refl)|].
    vm_compute. reflexivity.
  - etransitivity;
      [exact (proj2 (proj2 (GetSiteConfig_needs_a_dot readJSON writeJSON
                              configRoot configuredSite "site" "" "core"
                              "Title.fr")) eq_refl)|].
    vm_compute. reflexivity.
  - etransitivity;
      [exact (proj2 (proj2 (GetSiteConfig_needs_a_dot readJSON writeJSON
                              configRoot configuredSite "site" "" "core"
                              "")) eq_refl)|].
    vm_compute. reflexivity.
  - etransitivity;
      [exact (proj2 (proj2 (GetSiteConfig_needs_a_dot readJSON writeJSON
                              configRoot configuredSite "site" "" "mail"
                              "Host")) eq_refl)|].
    vm_compute. reflexivity.
Defined.

(** C9, as stated, fails: [mail.Host] has a dot, and [GetSiteConfig]
    returns [nil] for it, not a wrapped value, there being no file
    [mail.json]. *)
Lemma GetSiteConfig_dotted_without_value :
  GoString.contains "." "mail.Host" = true /\
  FS.ReadFile configuredSite "/srv/config/mail.json"
  = (None, Some (mkPathError "open" "/srv/config/mail.json" ENOENT)) /\
  GetSiteConfig readJSON writeJSON configRoot configuredSite "site" "mail.Host"
  = Ok None.
Proof. split; [reflexivity|]. split; vm_compute; reflexivity. Qed.

Example GetSiteConfig_of_title :
  GetSiteConfig readJSON writeJSON configRoot configuredSite "site"
    "core.Title.en"
  = Ok (Some ("{" +:+ Fmt.quoted "Value" +:+ ":" +:+ Fmt.quoted "Monsti"
              +:+ "}")) /\
  GetSiteConfig readJSON writeJSON configRoot configuredSite "site"
    "core.Title.fr"
  = Ok (Some ("{" +:+ Fmt.quoted "Value" +:+ ":null}")) /\
  GetSiteConfig readJSON writeJSON configRoot configuredSite "site"
    "mail.Host"
  = Ok None.
Proof. repeat split; reflexivity. Qed.

(** * Properties of the remaining code *)

(** ** Addable node types *)

Section AddableMore.

Implicit Types (nodeType pattern : string) (order : list NodeType.t).

Lemma index_lastByte pattern :
  pattern <> "" ->
  exists c, lastByte pattern = Some c /\
            GoString.index pattern (GoString.len pattern - 1) = Ok c.
Proof.
  destruct pattern as [|c0 r]; [done|]. intros _.
  unfold GoString.index, GoString.len, lastByte.
  replace (Z.of_nat (String.length (String c0 r)) - 1)%Z
    with (Z.of_nat (String.length r)) by (simpl; lia).
  replace (Z.of_nat (String.length r) <? 0)%Z with false
    by (symmetry; apply Z.ltb_ge; lia).
  rewrite Nat2Z.id. destruct (get_last r c0) as [x Hx]. rewrite Hx. eauto.
Qed.

Lemma slice_prefix nodeType pattern :
  String.length pattern <= String.length nodeType ->
  GoString.slice nodeType 0 (GoString.len pattern)
  = Ok (String.substring 0 (String.length pattern) nodeType).
Proof.
  intros Hlen. unfold GoString.slice, GoString.len.
  replace (Z.of_nat (String.length pattern) <=? Z.of_nat (String.length nodeType))%Z
    with true by (symmetry; apply Z.leb_le; lia).
  replace (0 <=? Z.of_nat (String.length pattern))%Z
    with true by (symmetry; apply Z.leb_le; lia).
  simpl. rewrite Z.sub_0_r, Nat2Z.id. reflexivity.
Qed.

(** What the condition answers when it can be evaluated. *)
Lemma addableCond_safe nodeType pattern :
  patternSafe nodeType pattern ->
  addableCond nodeType pattern = Ok (patternMatches nodeType pattern).
Proof.
  unfold addableCond, patternMatches. intros Hsafe.
  destruct (decide (pattern = ".")) as [->|H1]; [reflexivity|].
  rewrite (bool_decide_eq_false_2 _ H1).
  destruct (decide (pattern = nodeType)) as [->|H2].
  { by rewrite bool_decide_eq_true_2. }
  rewrite (bool_decide_eq_false_2 _ H2). cbn [orb].
  destruct Hsafe as [?|[?|[Hne Hlen]]]; [done|done|].
  destruct (index_lastByte pattern Hne) as (c & Hlast & ->). simpl.
  rewrite Hlast in *.
  destruct (decide (c = "."%char)) as [->|Hc].
  - rewrite slice_prefix by auto. cbn [bind].
    rewrite (bool_decide_eq_true_2 (Some "."%char = Some "."%char)) by done.
    cbn [andb]. f_equal. apply eq_true_iff_eq.
    rewrite bool_decide_eq_true. symmetry. apply String.prefix_correct.
  - rewrite (bool_decide_eq_false_2 (Some c = Some "."%char));
      [done|]. by intros [= ->].
Qed.

Lemma addableCond_unsafe nodeType pattern :
  ~ patternSafe nodeType pattern -> ~ succeeds (addableCond nodeType pattern).
Proof.
  intros Hunsafe. unfold addableCond.
  destruct (decide (pattern = ".")) as [->|H1];
    [destruct Hunsafe; by left|].
  destruct (decide (pattern = nodeType)) as [->|H2];
    [destruct Hunsafe; right; by left|].
  destruct pattern as [|c0 r] eqn:Hp; [vm_compute; tauto|]. rewrite <- Hp in *.
  assert (Hne : pattern <> "") by (by rewrite Hp).
  destruct (index_lastByte pattern Hne) as (c & Hlast & ->). simpl.
  destruct (decide (c = "."%char)) as [->|Hc].
  - destruct (decide (String.length pattern <= String.length nodeType)) as [Hle|Hgt].
    + destruct Hunsafe. right. right. done.
    + rewrite slice_short; [simpl; tauto|]. unfold GoString.len. lia.
  - destruct Hunsafe. right. right. split; [done|]. rewrite Hlast.
    by intros [= ->].
Qed.

(** X1.  The condition of [findAddableNodeTypes] can be evaluated exactly
    for the patterns that are [.], the id of the parent type, or not empty
    and, when they end in a dot, not longer than that id; every other
    pattern makes it panic.  When it can be evaluated it is true exactly
    for [.], the id itself, and the patterns that end in a dot and with
    which the id begins. *)
Theorem addableCond_exact_rule nodeType pattern :
  (succeeds (addableCond nodeType pattern) <-> patternSafe nodeType pattern) /\
  (forall b, addableCond nodeType pattern = Ok b ->
     b = patternMatches nodeType pattern) /\
  (patternMatches nodeType pattern = true <->
     pattern = "." \/ pattern = nodeType \/
     (lastByte pattern = Some "."%char /\
      String.substring 0 (String.length pattern) nodeType = pattern)) /\
  (returns (addableCond nodeType pattern) <->
     succeeds (addableCond nodeType pattern)).
Proof.
  split; [|split; [|split]].
  - split.
    + intros Hs. destruct (decide (patternSafe nodeType pattern)) as [|Hn];
        [done|]. by destruct (addableCond_unsafe _ _ Hn).
    + intros Hsafe. by rewrite (addableCond_safe _ _ Hsafe).
  - intros b Hb.
    destruct (decide (patternSafe nodeType pattern)) as [Hsafe|Hn].
    + rewrite (addableCond_safe _ _ Hsafe) in Hb. by injection Hb.
    + destruct (addableCond_unsafe _ _ Hn). by rewrite Hb.
  - unfold patternMatches.
    rewrite !orb_true_iff, andb_true_iff, !bool_decide_eq_true.
    rewrite String.prefix_correct. tauto.
  - unfold addableCond.
    destruct (decide (pattern = ".")); [simpl; tauto|].
    destruct (decide (pattern = nodeType)); [simpl; tauto|].
    unfold GoString.index.
    destruct (_ <? _)%Z; [simpl; tauto|].
    destruct (String.get _ _) as [c|]; [|simpl; tauto]. simpl.
    destruct (decide (c = "."%char)); [|simpl; tauto].
    unfold GoString.slice.
    destruct (_ && _)%bool; simpl; tauto.
Qed.

Lemma anyAddable_safe nodeType patterns :
  Forall (patternSafe nodeType) patterns ->
  anyAddable nodeType patterns
  = Ok (existsb (patternMatches nodeType) patterns).
Proof.
  induction 1 as [|p patterns Hp _ IH]; simpl; [done|].
  rewrite (addableCond_safe _ _ Hp). simpl.
  by destruct (patternMatches nodeType p).
Qed.

(** X2.  When every pattern of every type can be tested, the search
    returns, in the order in which the types are visited, the id of each
    type that has a matching pattern, once however many of its patterns
    match, and whatever its [Hide] flag. *)
Theorem findAddableNodeTypes_lists_matching nodeType order :
  Forall (fun other =>
            Forall (patternSafe nodeType) (NodeType.AddableTo other)) order ->
  findAddableNodeTypes nodeType order
  = Ok (NodeType.Id <$>
        filter (fun other =>
                  existsb (patternMatches nodeType) (NodeType.AddableTo other)
                  = true) order).
Proof.
  intros Hsafe. unfold findAddableNodeTypes.
  rewrite (findAddableLoop_filter nodeType
             (fun other => existsb (patternMatches nodeType)
                             (NodeType.AddableTo other))); [done|].
  intros other Hin. rewrite Forall_forall in Hsafe.
  by apply anyAddable_safe, Hsafe.
Qed.

(** A hidden type with two matching patterns is listed once, between the
    types visited before and after it. *)
Lemma findAddableNodeTypes_lists_matching_witness :
  findAddableNodeTypes "core.Document"
    [NodeType.mk "core.File" false ["blog."; "core."] [] [];
     NodeType.mk "core.Image" true ["core."; "."; "core.Document"] [] [];
     NodeType.mk "blog.Post" false ["blog."] [] [];
     NodeType.mk "core.Path" false [] [] []]
  = Ok ["core.File"; "core.Image"].
Proof.
  apply (findAddableNodeTypes_lists_matching "core.Document").
  repeat first [apply List.Forall_cons | apply List.Forall_nil
               | progress simpl];
    first [ by left | right; by left
          | right; right; split; [done | intros _; simpl; lia] ].
Defined.

End AddableMore.

(** ** The registry *)

Section RegistryMore.

Implicit Types (st : state) (p q c : loc) (nt : NodeType.t).

(** What else the loop over the fields keeps and what it adds: the other
    parts of the node type, the length of its field list, and canonical
    pointers only for field objects that exist and have the id. *)
Lemma registerFields_adds fields : forall p i st st' nt,
  registerFields p i fields st = (Ok tt, st') ->
  typeObjs st !! p = Some nt ->
  exists nt',
    typeObjs st' !! p = Some nt' /\
    NodeType.Hide nt' = NodeType.Hide nt /\
    NodeType.AddableTo nt' = NodeType.AddableTo nt /\
    NodeType.Name nt' = NodeType.Name nt /\
    length (NodeType.Fields nt') = length (NodeType.Fields nt) /\
    Forall (fun field => is_Some (fieldObjs st !! field)) fields /\
    (is_Some (NodeFields (config st)) -> is_Some (NodeFields (config st'))) /\
    forall F c, mapGet (NodeFields (config st')) F = Some c ->
      mapGet (NodeFields (config st)) F = Some c \/
      exists f, fieldObjs st !! c = Some f /\ FieldConfig.Id f = F.
Proof.
  induction fields as [|field rest IH]; intros p i st st' nt Hrun Hp.
  - simpl in Hrun. injection Hrun as <-. exists nt. repeat split; auto.
  - simpl in Hrun.
    destruct (fieldObjs st !! field) as [f|] eqn:Hf; [|done].
    destruct (mapGet (NodeFields (config st)) (FieldConfig.Id f))
      as [existing|] eqn:Hex.
    + set (nt1 := NodeType.with_Fields nt
                    (<[i := existing]> (NodeType.Fields nt))).
      assert (Hp1 : typeObjs (setField p i existing st) !! p = Some nt1).
      { simpl. rewrite lookup_alter_eq, Hp. done. }
      destruct (IH p (S i) _ st' nt1 Hrun Hp1)
        as (nt' & Hp' & Hh & Ha & Hn & Hl & Hv & Hs & Hnew).
      exists nt'. split; [done|]. split; [done|]. split; [done|].
      split; [done|]. split; [by rewrite Hl; simpl; rewrite length_insert|].
      split; [constructor; [by eexists|done]|]. split; [done|]. done.
    + destruct (mapSet (NodeFields (config st)) (FieldConfig.Id f) field)
        as [fs| |] eqn:Hset; [|done|done].
      assert (Hp1 : typeObjs (set_NodeFields fs st) !! p = Some nt) by done.
      destruct (IH p (S i) _ st' nt Hrun Hp1)
        as (nt' & Hp' & Hh & Ha & Hn & Hl & Hv & Hs & Hnew).
      exists nt'. split; [done|]. split; [done|]. split; [done|].
      split; [done|]. split; [done|].
      split; [constructor; [by eexists|done]|].
      split.
      { intros _. apply Hs. simpl.
        destruct (NodeFields (config st)); [|done]. injection Hset as <-.
        by eexists. }
      intros F c HF. destruct (Hnew F c HF) as [Hold | Hnw]; [|by right].
      simpl in Hold.
      destruct (decide (FieldConfig.Id f = F)) as [<-|Hne].
      * rewrite (mapGet_mapSet_eq _ _ _ _ Hset) in Hold.
        injection Hold as <-. right. by exists f.
      * rewrite (mapGet_mapSet_ne _ _ _ _ _ Hset) in Hold by done. by left.
Qed.

(** With a map of fields and valid field pointers the loop ends without
    a panic. *)
Lemma registerFields_returns fields : forall p i st,
  is_Some (NodeFields (config st)) ->
  Forall (fun field => is_Some (fieldObjs st !! field)) fields ->
  exists st', registerFields p i fields st = (Ok tt, st').
Proof.
  induction fields as [|field rest IH]; intros p i st Hnf Hvalid; simpl.
  - by eexists.
  - inversion Hvalid as [|? ? [f Hf] Hrest]; subst. rewrite Hf.
    destruct (mapGet (NodeFields (config st)) (FieldConfig.Id f)).
    + by apply IH.
    + destruct Hnf as [g Hg]. rewrite Hg. simpl. apply IH; [|done].
      simpl. by eexists.
Qed.

(** What a registration that succeeds adds, and only adds. *)
Lemma RegisterNodeType_adds p st st' :
  RegisterNodeType p st = (Ok tt, st') ->
  exists nt nt',
    typeObjs st !! p = Some nt /\
    typeObjs st' !! p = Some nt' /\
    NodeType.Hide nt' = NodeType.Hide nt /\
    NodeType.AddableTo nt' = NodeType.AddableTo nt /\
    NodeType.Name nt' = NodeType.Name nt /\
    length (NodeType.Fields nt') = length (NodeType.Fields nt) /\
    Forall (fun field => is_Some (fieldObjs st !! field)) (NodeType.Fields nt) /\
    is_Some (NodeTypes (config st')) /\
    (is_Some (NodeTypes (config st)) -> is_Some (NodeFields (config st)) ->
     is_Some (NodeFields (config st'))) /\
    (NodeTypes (config st) = None -> is_Some (NodeFields (config st'))) /\
    (forall X q, mapGet (NodeTypes (config st')) X = Some q ->
       X = NodeType.Id nt /\ q = p \/
       mapGet (NodeTypes (config st)) X = Some q) /\
    (forall F c, mapGet (NodeFields (config st')) F = Some c ->
       is_Some (NodeTypes (config st)) /\
       mapGet (NodeFields (config st)) F = Some c \/
       exists f, fieldObjs st !! c = Some f /\ FieldConfig.Id f = F).
Proof.
  unfold RegisterNodeType. intros Hrun.
  destruct (typeObjs st !! p) as [nt|] eqn:Hp; [|done].
  destruct (mapGet (NodeTypes (config st)) (NodeType.Id nt)) eqn:Hnew; [done|].
  destruct (NodeTypes (config st)) as [g|] eqn:Hg.
  - rewrite Hg in Hrun. simpl in Hrun.
    assert (Hp2 : typeObjs (set_NodeTypes (Some (<[NodeType.Id nt := p]> g)) st)
                    !! p = Some nt) by done.
    destruct (registerFields_adds _ _ _ _ _ _ Hrun Hp2)
      as (nt' & Hp' & Hh & Ha & Hn & Hl & Hv & Hs & Hadd).
    destruct (registerFields_ok _ _ _ _ _ _ Hrun Hp2 eq_refl)
      as (_ & Hnt' & _).
    exists nt, nt'. do 6 (split; [done|]). split; [exact Hv|].
    rewrite Hnt'. simpl. split; [by eexists|]. split; [intros _; exact Hs|].
    split; [done|]. split.
    + intros X q. destruct (decide (NodeType.Id nt = X)) as [<-|Hne].
      * rewrite lookup_insert_eq. intros [= <-]. by left.
      * rewrite lookup_insert_ne by done. by right.
    + intros F c HF. destruct (Hadd F c HF) as [Hold|Hnw]; [|by right].
      left. split; [by eexists|done].
  - rewrite ?Hg in Hrun. simpl in Hrun.
    set (st1 := set_NodeTypes (Some (<[NodeType.Id nt := p]> ∅))
                  (set_NodeFields (Some ∅) (set_NodeTypes (Some ∅) st))) in *.
    assert (Hp2 : typeObjs st1 !! p = Some nt) by done.
    destruct (registerFields_adds _ _ _ _ _ _ Hrun Hp2)
      as (nt' & Hp' & Hh & Ha & Hn & Hl & Hv & Hs & Hadd).
    destruct (registerFields_ok _ _ _ _ _ _ Hrun Hp2 eq_refl)
      as (_ & Hnt' & _).
    exists nt, nt'. do 6 (split; [done|]). split; [exact Hv|].
    rewrite Hnt'. simpl. split; [by eexists|].
    split; [by intros [? [=]]|]. split; [intros _; apply Hs; by eexists|].
    split.
    + intros X q. destruct (decide (NodeType.Id nt = X)) as [<-|Hne].
      * rewrite lookup_insert_eq. intros [= <-]. by left.
      * rewrite lookup_insert_ne, lookup_empty by done. done.
    + intros F c HF. destruct (Hadd F c HF) as [Hold|Hnw]; [|by right].
      simpl in Hold. by rewrite lookup_empty in Hold.
Qed.

(** A registration that succeeds keeps the registry consistent. *)
Lemma registryOk_RegisterNodeType st p st' :
  registryOk st -> RegisterNodeType p st = (Ok tt, st') -> registryOk st'.
Proof.
  intros (Htypes & Hfields & Hboth) Hrun.
  destruct (RegisterNodeType_ok _ _ _ Hrun)
    as (nt & nt' & Hp & Hfresh & Hfo & Hreg & Hkeep & Hmono & Hother & Hp'
        & Hid & Hcanon).
  destruct (RegisterNodeType_adds _ _ _ Hrun)
    as (nt0 & nt0' & Hp0 & Hp0' & _ & _ & _ & Hlen & Hvalid & Hts & Hfs1 & Hfs2
        & Honly & Hnew).
  rewrite Hp in Hp0. injection Hp0 as <-.
  rewrite Hp' in Hp0'. injection Hp0' as <-.
  assert (HF : forall F c, mapGet (NodeFields (config st')) F = Some c ->
                 exists f, fieldObjs st' !! c = Some f /\ FieldConfig.Id f = F).
  { intros F c HFc. rewrite Hfo.
    destruct (Hnew F c HFc) as [[_ Hold]|Hnw]; [by apply Hfields|done]. }
  split; [|split; [exact HF|]].
  - intros X q HX. destruct (Honly X q HX) as [[-> ->]|Hold].
    + exists nt'. split; [done|]. split; [done|].
      intros c [k Hk]%list_elem_of_lookup.
      assert (Hlt : k < length (NodeType.Fields nt)).
      { rewrite <- Hlen. by eapply lookup_lt_Some. }
      destruct (lookup_lt_is_Some_2 _ _ Hlt) as [field Hfield].
      rewrite Forall_forall in Hvalid.
      destruct (Hvalid field) as [f Hf];
        [apply list_elem_of_lookup; by eexists|].
      destruct (Hcanon k field f Hfield Hf) as (c' & Hc1 & Hc2).
      rewrite Hk in Hc2. injection Hc2 as <-.
      destruct (HF _ _ Hc1) as (f' & Hf' & Hidf).
      exists f'. split; [done|]. by rewrite Hidf.
    + destruct (Htypes X q Hold) as (ntq & Hq & Hidq & Hcq).
      assert (Hne : q <> p).
      { intros ->. rewrite Hp in Hq. injection Hq as <-.
        rewrite Hidq in Hfresh. congruence. }
      exists ntq. rewrite Hother by done. split; [done|]. split; [done|].
      intros c Hc. destruct (Hcq c Hc) as (f & Hf & Hcf).
      exists f. rewrite Hfo. split; [done|]. apply Hmono; [|done].
      destruct (NodeTypes (config st)); [by eexists|done].
  - intros _. destruct (NodeTypes (config st)) eqn:Hg.
    + apply Hfs1; [by eexists|]. apply Hboth. by eexists.
    + by apply Hfs2.
Qed.

Lemma registryOk_registerAll ps : forall st st',
  registryOk st -> registerAll ps st = (Ok tt, st') -> registryOk st'.
Proof.
  induction ps as [|p ps IH]; intros st st' Hok; simpl.
  - by intros [= <-].
  - destruct (RegisterNodeType p st) as [[[]| |] st1] eqn:Hrun; try done.
    apply IH. by eapply registryOk_RegisterNodeType.
Qed.

Lemma registryOk_fresh ts fs n : registryOk (mkState ts fs n emptyService).
Proof. split; [|split]; simpl; try done; by intros [? [=]]. Qed.

(** What [GetNodeType] returns in a consistent registry. *)
Lemma registryOk_GetNodeType st X A :
  registryOk st -> GetNodeType X st = Ok A ->
  NodeType.Id A = X /\
  forall c, c ∈ NodeType.Fields A ->
    exists f, fieldObjs st !! c = Some f /\
      mapGet (NodeFields (config st)) (FieldConfig.Id f) = Some c.
Proof.
  intros (Htypes & _ & _). unfold GetNodeType.
  destruct (mapGet (NodeTypes (config st)) X) as [q|] eqn:HX; [|done].
  destruct (Htypes X q HX) as (nt & Hq & Hid & Hc). rewrite Hq.
  by intros [= <-].
Qed.

(** X3.  However many node types are registered one after the other on a
    fresh service, when all the calls succeed: [GetNodeType] gives for an
    id a type of that id; every entry of its field list points to a field
    object; and two entries, of one type or of two, that point to field
    objects of the same id are the same pointer. *)
Theorem registerAll_shares_fields ts fs n ps st' :
  registerAll ps (mkState ts fs n emptyService) = (Ok tt, st') ->
  (forall X A, GetNodeType X st' = Ok A ->
     NodeType.Id A = X /\
     forall a, a ∈ NodeType.Fields A -> is_Some (fieldObjs st' !! a)) /\
  (forall X Y A B a b fa fb,
     GetNodeType X st' = Ok A -> GetNodeType Y st' = Ok B ->
     a ∈ NodeType.Fields A -> b ∈ NodeType.Fields B ->
     fieldObjs st' !! a = Some fa -> fieldObjs st' !! b = Some fb ->
     FieldConfig.Id fa = FieldConfig.Id fb ->
     a = b).
Proof.
  intros Hrun.
  pose proof (registryOk_registerAll _ _ _ (registryOk_fresh ts fs n) Hrun)
    as Hok.
  split.
  - intros X A HA. destruct (registryOk_GetNodeType _ _ _ Hok HA) as [Hid Hc].
    split; [done|]. intros a Ha. destruct (Hc a Ha) as (f & Hf & _).
    by eexists.
  - intros X Y A B a b fa fb HA HB Ha Hb Hfa Hfb Hids.
    destruct (registryOk_GetNodeType _ _ _ Hok HA) as [_ HcA].
    destruct (registryOk_GetNodeType _ _ _ Hok HB) as [_ HcB].
    destruct (HcA a Ha) as (f1 & Hf1 & Hc1).
    destruct (HcB b Hb) as (f2 & Hf2 & Hc2).
    rewrite Hfa in Hf1. injection Hf1 as <-.
    rewrite Hfb in Hf2. injection Hf2 as <-.
    rewrite Hids in Hc1. congruence.
Qed.

(** [core.Document] and [core.File] of [initNodeTypes]. *)
Lemma registerAll_shares_fields_witness :
  exists st',
    registerAll [1; 2] initState = (Ok tt, st') /\
    GetNodeType "core.Document" st' = Ok documentType /\
    GetNodeType "core.File" st'
    = Ok (NodeType.mk "core.File" false ["."] [] [10; 13]) /\
    (forall X A, GetNodeType X st' = Ok A ->
       NodeType.Id A = X /\
       forall a, a ∈ NodeType.Fields A -> is_Some (fieldObjs st' !! a)) /\
    (forall X Y A B a b fa fb,
       GetNodeType X st' = Ok A -> GetNodeType Y st' = Ok B ->
       a ∈ NodeType.Fields A -> b ∈ NodeType.Fields B ->
       fieldObjs st' !! a = Some fa -> fieldObjs st' !! b = Some fb ->
       FieldConfig.Id fa = FieldConfig.Id fb ->
       a = b).
Proof.
  assert (Hrun : registerAll [1; 2] initState
                 = (Ok tt, (registerAll [1; 2] initState).2))
    by (vm_compute; reflexivity).
  exists (registerAll [1; 2] initState).2.
  split; [exact Hrun|]. do 2 (split; [vm_compute; reflexivity|]).
  exact (registerAll_shares_fields _ _ _ _ _ Hrun).
Defined.

(** X4.  After a registration that succeeded on a consistent registry,
    [GetNodeType] gives for the new id the registered type, with the
    same id, flag, patterns and name and a field list of the same length
    in which each entry is the canonical pointer of the id of the field
    declared at that place; for every other id it gives what it gave
    before. *)
Theorem RegisterNodeType_then_GetNodeType st p st' nt :
  registryOk st ->
  typeObjs st !! p = Some nt ->
  RegisterNodeType p st = (Ok tt, st') ->
  (exists nt',
     GetNodeType (NodeType.Id nt) st' = Ok nt' /\
     NodeType.Id nt' = NodeType.Id nt /\
     NodeType.Hide nt' = NodeType.Hide nt /\
     NodeType.AddableTo nt' = NodeType.AddableTo nt /\
     NodeType.Name nt' = NodeType.Name nt /\
     length (NodeType.Fields nt') = length (NodeType.Fields nt) /\
     forall k field f,
       NodeType.Fields nt !! k = Some field ->
       fieldObjs st !! field = Some f ->
       is_Some (NodeType.Fields nt' !! k) /\
       NodeType.Fields nt' !! k
       = mapGet (NodeFields (config st')) (FieldConfig.Id f)) /\
  (forall X, X <> NodeType.Id nt -> GetNodeType X st' = GetNodeType X st).
Proof.
  intros (Htypes & _ & _) Hnt Hrun.
  destruct (RegisterNodeType_ok _ _ _ Hrun)
    as (nt0 & nt' & Hp & Hfresh & Hfo & Hreg & Hkeep & _ & Hother & Hp'
        & Hid & Hcanon).
  rewrite Hnt in Hp. injection Hp as <-.
  destruct (RegisterNodeType_adds _ _ _ Hrun)
    as (nt0 & nt0' & Hp0 & Hp0' & Hh & Ha & Hn & Hlen & _ & _ & _ & _
        & Honly & _).
  rewrite Hnt in Hp0. injection Hp0 as <-.
  rewrite Hp' in Hp0'. injection Hp0' as <-.
  split.
  - exists nt'. unfold GetNodeType. rewrite Hreg, Hp'.
    do 6 (split; [done|]). intros k field f Hk Hf.
    destruct (Hcanon k field f Hk Hf) as (c & -> & ->). split; [by eexists|done].
  - intros X HX. unfold GetNodeType.
    destruct (mapGet (NodeTypes (config st)) X) as [q|] eqn:Hq.
    + rewrite (Hkeep X q Hq). destruct (Htypes X q Hq) as (ntq & Hq' & Hidq & _).
      rewrite Hother; [done|]. intros ->. rewrite Hnt in Hq'.
      injection Hq' as <-. done.
    + destruct (mapGet (NodeTypes (config st')) X) as [q|] eqn:Hq'; [|done].
      destruct (Honly X q Hq') as [[-> _]|Hold]; [done|congruence].
Qed.

Lemma RegisterNodeType_then_GetNodeType_witness :
  (exists nt',
     GetNodeType "core.File" (RegisterNodeType 2 (RegisterNodeType 1 initState).2).2
     = Ok nt' /\
     NodeType.Id nt' = "core.File" /\
     NodeType.Hide nt' = false /\
     NodeType.AddableTo nt' = ["."] /\
     NodeType.Name nt' = [] /\
     length (NodeType.Fields nt') = 2 /\
     forall k field f,
       [12; 13] !! k = Some field ->
       fieldObjs (RegisterNodeType 1 initState).2 !! field = Some f ->
       is_Some (NodeType.Fields nt' !! k) /\
       NodeType.Fields nt' !! k
       = mapGet (NodeFields (config (RegisterNodeType 2
                                       (RegisterNodeType 1 initState).2).2))
           (FieldConfig.Id f)) /\
  (forall X, X <> "core.File" ->
     GetNodeType X (RegisterNodeType 2 (RegisterNodeType 1 initState).2).2
     = GetNodeType X (RegisterNodeType 1 initState).2).
Proof.
  assert (H1 : RegisterNodeType 1 initState
               = (Ok tt, (RegisterNodeType 1 initState).2))
    by (vm_compute; reflexivity).
  assert (H2 : RegisterNodeType 2 (RegisterNodeType 1 initState).2
               = (Ok tt, (RegisterNodeType 2 (RegisterNodeType 1 initState).2).2))
    by (vm_compute; reflexivity).
  apply (RegisterNodeType_then_GetNodeType (RegisterNodeType 1 initState).2 2
           (RegisterNodeType 2 (RegisterNodeType 1 initState).2).2 fileType).
  - apply (registryOk_RegisterNodeType initState 1 _
             (registryOk_fresh _ _ 0) H1).
  - vm_compute; reflexivity.
  - exact H2.
Defined.

(** X5.  On a consistent registry a node type whose pointers are valid is
    registered without a panic: the call succeeds when the id is not yet
    registered and returns the error, changing nothing, when it is; either
    way the registry is consistent afterwards. *)
Theorem RegisterNodeType_total st p nt :
  registryOk st ->
  typeObjs st !! p = Some nt ->
  Forall (fun field => is_Some (fieldObjs st !! field)) (NodeType.Fields nt) ->
  exists r st',
    RegisterNodeType p st = (r, st') /\
    registryOk st' /\
    (mapGet (NodeTypes (config st)) (NodeType.Id nt) = None -> r = Ok tt) /\
    (is_Some (mapGet (NodeTypes (config st)) (NodeType.Id nt)) ->
     r = Err ("Node type with id " +:+ NodeType.Id nt +:+ " does already exist")
     /\ st' = st).
Proof.
  intros Hok Hp Hvalid.
  destruct (mapGet (NodeTypes (config st)) (NodeType.Id nt)) as [q|] eqn:Hq.
  - exists (Err ("Node type with id " +:+ NodeType.Id nt +:+ " does already exist")),
      st.
    unfold RegisterNodeType. rewrite Hp, Hq.
    split; [done|]. split; [done|]. split; [done|]. done.
  - assert (Hrun : exists st', RegisterNodeType p st = (Ok tt, st')).
    { unfold RegisterNodeType. rewrite Hp, Hq.
      destruct Hok as (_ & _ & Hboth).
      destruct (NodeTypes (config st)) as [g|] eqn:Hg; simpl.
      - rewrite Hg. simpl. apply registerFields_returns; [|done].
        simpl. apply Hboth. by eexists.
      - apply registerFields_returns; [|done]. simpl. by eexists. }
    destruct Hrun as [st' Hrun]. exists (Ok tt), st'.
    split; [done|]. split; [by eapply registryOk_RegisterNodeType|].
    split; [done|]. by intros [? [=]].
Qed.

Lemma RegisterNodeType_total_witness :
  exists r st',
    RegisterNodeType 2 (RegisterNodeType 1 initState).2 = (r, st') /\
    registryOk st' /\
    (mapGet (NodeTypes (config (RegisterNodeType 1 initState).2)) "core.File"
     = None -> r = Ok tt) /\
    (is_Some (mapGet (NodeTypes (config (RegisterNodeType 1 initState).2))
                "core.File") ->
     r = Err ("Node type with id " +:+ "core.File" +:+ " does already exist")
     /\ st' = (RegisterNodeType 1 initState).2).
Proof.
  apply (RegisterNodeType_total (RegisterNodeType 1 initState).2 2 fileType).
  - assert (H1 : RegisterNodeType 1 initState
                 = (Ok tt, (RegisterNodeType 1 initState).2))
      by (vm_compute; reflexivity).
    apply (registryOk_RegisterNodeType initState 1 _
             (registryOk_fresh _ _ 0) H1).
  - vm_compute; reflexivity.
  - repeat apply List.Forall_cons; try apply List.Forall_nil;
      eexists; vm_compute; reflexivity.
Defined.

End RegistryMore.

Section SignalBusMore.

Implicit Types (m : MonstiService) (st : state) (ids : list string)
  (tr : list event) (c : chan) (r : emitRet) (s : signal).

(** One call of [ConnectSignal] on a consistent bus. *)
Lemma ConnectSignal_busOk Id Signal st :
  busOk st ->
  exists st',
    ConnectSignal Id Signal st = (Ok tt, st') /\
    busOk st' /\
    (forall sig,
       default [] (mapGet (subscriptions (svc st')) sig)
       = default [] (mapGet (subscriptions (svc st)) sig)
         ++ (if decide (sig = Signal) then [Id] else [])) /\
    (forall id, is_Some (mapGet (subscriber (svc st')) id) <->
                is_Some (mapGet (subscriber (svc st)) id) \/ id = Id).
Proof.
  intros (Hboth & Hlt & Hinj). unfold ConnectSignal.
  destruct st as [ts fs n [sv cf [sn|] sb sr]]; simpl in *.
  - destruct sb as [g|]; [|exfalso; eapply is_Some_None, (proj1 Hboth); by eexists].
    simpl in *. destruct (g !! Id) as [c|] eqn:Hid.
    + eexists. split; [reflexivity|]. unfold busOk. simpl. split; [done|]. split.
      * intros sig. destruct (decide (sig = Signal)) as [->|Hne].
        -- by rewrite lookup_insert_eq.
        -- rewrite lookup_insert_ne by done. by rewrite app_nil_r.
      * intros id. split; [by left|]. intros [H| ->]; [done|by eexists].
    + eexists. split; [reflexivity|]. unfold busOk. simpl. split; [|split].
      * split; [done|]. split.
        -- intros id c. destruct (decide (id = Id)) as [->|Hne].
           ++ rewrite lookup_insert_eq. intros [= <-]. lia.
           ++ rewrite lookup_insert_ne by done. intros H.
              specialize (Hlt _ _ H). lia.
        -- intros id1 id2 c.
           destruct (decide (id1 = Id)) as [->|H1];
             destruct (decide (id2 = Id)) as [->|H2];
             rewrite ?lookup_insert_eq, ?lookup_insert_ne by done;
             try done.
           ++ intros [= <-] H. specialize (Hlt _ _ H). lia.
           ++ intros H [= <-]. specialize (Hlt _ _ H). lia.
           ++ apply Hinj.
      * intros sig. destruct (decide (sig = Signal)) as [->|Hne].
        -- by rewrite lookup_insert_eq.
        -- rewrite lookup_insert_ne by done. by rewrite app_nil_r.
      * intros id. destruct (decide (id = Id)) as [->|Hne].
        -- rewrite lookup_insert_eq. split; [by right|by eexists].
        -- rewrite lookup_insert_ne by done. split; [by left|].
           by intros [H|H].
  - assert (sb = None) as ->.
    { destruct sb; [|done]. exfalso. eapply is_Some_None, (proj2 Hboth). by eexists. }
    simpl. rewrite !lookup_empty. simpl. eexists. split; [reflexivity|].
    unfold busOk. simpl. split; [|split].
    + split; [split; by eexists|]. split.
      * intros id c. destruct (decide (id = Id)) as [->|Hne].
        -- rewrite lookup_insert_eq. intros [= <-]. lia.
        -- by rewrite lookup_insert_ne, lookup_empty.
      * intros id1 id2 c.
        destruct (decide (id1 = Id)) as [->|H1];
          destruct (decide (id2 = Id)) as [->|H2];
          rewrite ?lookup_insert_eq, ?lookup_insert_ne, ?lookup_empty by done;
          done.
    + intros sig. destruct (decide (sig = Signal)) as [->|Hne].
      * by rewrite lookup_insert_eq.
      * by rewrite lookup_insert_ne, lookup_empty.
    + intros id. destruct (decide (id = Id)) as [->|Hne].
      * rewrite lookup_insert_eq. split; [by right|by eexists].
      * rewrite lookup_insert_ne, lookup_empty by done.
        split; [by intros [? [=]]|]. by intros [[? [=]]|].
Qed.

Lemma connectAll_busOk calls : forall st,
  busOk st ->
  exists st',
    connectAll calls st = (Ok tt, st') /\
    busOk st' /\
    (forall sig,
       default [] (mapGet (subscriptions (svc st')) sig)
       = default [] (mapGet (subscriptions (svc st)) sig)
         ++ (filter (fun call => call.2 = sig) calls).*1) /\
    (forall id, is_Some (mapGet (subscriber (svc st')) id) <->
                is_Some (mapGet (subscriber (svc st)) id) \/ id ∈ calls.*1).
Proof.
  induction calls as [|[Id Signal] rest IH]; intros st Hok.
  - exists st. split; [done|]. split; [done|]. split.
    + intros sig. by rewrite app_nil_r.
    + intros id. split; [by left|]. intros [H|H]; [done|].
      by apply elem_of_nil in H.
  - destruct (ConnectSignal_busOk Id Signal st Hok)
      as (st1 & Hrun & Hok1 & Hsub1 & Hch1).
    destruct (IH st1 Hok1) as (st' & Hrun' & Hok' & Hsub' & Hch').
    exists st'. cbn [connectAll fst snd]. rewrite Hrun.
    split; [done|]. split; [done|]. split.
    + intros sig. rewrite Hsub', Hsub1, <- app_assoc. f_equal.
      rewrite filter_cons. cbn [snd].
      destruct (decide (sig = Signal)) as [->|Hne].
      * by rewrite decide_True.
      * by rewrite decide_False by congruence.
    + intros id. rewrite Hch', Hch1, fmap_cons, elem_of_cons. cbn [fst].
      tauto.
Qed.

(** X6.  Any sequence of [ConnectSignal] calls on the service as it is
    at the start succeeds.  Afterwards the subscription list of a signal
    holds the ids connected to it, in the order of the calls and as often
    as they were connected; the ids that have a channel are the ids that
    were connected to some signal; no two ids share a channel; and every
    subscribed id has a channel. *)
Theorem connectAll_history calls :
  exists st',
    connectAll calls emptyState = (Ok tt, st') /\
    (forall sig,
       default [] (mapGet (subscriptions (svc st')) sig)
       = (filter (fun call => call.2 = sig) calls).*1) /\
    (forall id, is_Some (mapGet (subscriber (svc st')) id) <-> id ∈ calls.*1) /\
    (forall id1 id2 c,
       mapGet (subscriber (svc st')) id1 = Some c ->
       mapGet (subscriber (svc st')) id2 = Some c -> id1 = id2) /\
    connected (svc st').
Proof.
  assert (Hok : busOk emptyState).
  { split; [split; by intros [? [=]]|]. split; by intros. }
  destruct (connectAll_busOk calls emptyState Hok)
    as (st' & Hrun & (_ & _ & Hinj) & Hsub & Hch).
  exists st'. split; [done|].
  assert (Hdom : forall id,
            is_Some (mapGet (subscriber (svc st')) id) <-> id ∈ calls.*1).
  { intros id. rewrite Hch. split; [|by right].
    intros [[? [=]]|H]. done. }
  split; [exact Hsub|]. split; [exact Hdom|]. split; [exact Hinj|].
  intros sig ids id Hsig Hin. apply Hdom.
  specialize (Hsub sig). rewrite Hsig in Hsub. simpl in Hsub. subst ids.
  apply list_elem_of_fmap in Hin as ([id' sig'] & -> & Hin).
  apply list_elem_of_filter in Hin as [_ Hin].
  apply list_elem_of_fmap. by exists (id', sig').
Qed.

(** An execution of the loop that returns results is the sequence of the
    rounds of all subscribers. *)
Lemma emitLoop_finished m Name Args ids :
  forall n ret tr (cfg' : nat * proc (list string)) rets,
  exec (n, emitLoop m Name Args ids ret) tr cfg' ->
  cfg'.2 = Finished (Ok rets) ->
  exists replies,
    length replies = length ids /\
    Forall (fun r => Error r = "") replies /\
    Forall (fun id => is_Some (mapGet (subscriber m) id)) ids /\
    tr = rounds m Name Args n ids replies /\
    rets = ret ++ (Ret <$> replies) /\
    cfg' = (n + length ids, Finished (Ok rets)).
Proof.
  induction ids as [|id rest IH]; intros n ret tr cfg' rets Hexec Hfin.
  - inversion Hexec as [|? ? ? ? ? Hs]; subst; [|inversion Hs].
    simpl in Hfin. injection Hfin as <-. exists [].
    rewrite app_nil_r, Nat.add_0_r. by repeat split.
  - apply emitLoop_round in Hexec
      as [[-> Hp] | [[-> Hp] | (c & Hc & [[-> Hp] | (r & tr' & -> & Hr)])]];
      try (by destruct (Hp rets)).
    destruct (Nat.ltb 0 (String.length (Error r))) eqn:Herr.
    + destruct Hr as [-> ->]. done.
    + destruct (IH _ _ _ _ _ Hr Hfin)
        as (replies & Hlen & Hok & Hch & -> & -> & ->).
      exists (r :: replies). simpl. rewrite Hlen, Hc. simpl.
      split; [done|]. split.
      { constructor; [|done]. destruct (Error r); [done|discriminate Herr]. }
      split; [constructor; [by eexists|done]|].
      split; [done|]. rewrite <- app_assoc. split; [done|].
      f_equal. lia.
Qed.

(** The converse: the rounds are an execution. *)
Lemma emitLoop_rounds m Name Args ids :
  forall replies n ret,
  Forall (fun id => is_Some (mapGet (subscriber m) id)) ids ->
  length replies = length ids ->
  Forall (fun r => Error r = "") replies ->
  exec (n, emitLoop m Name Args ids ret)
    (rounds m Name Args n ids replies)
    (n + length ids, Finished (Ok (ret ++ (Ret <$> replies)))).
Proof.
  induction ids as [|id rest IH]; intros [|r replies] n ret Hch Hlen Hok;
    try done.
  - simpl. rewrite Nat.add_0_r, app_nil_r. constructor.
  - inversion Hch as [|? ? [c Hc] Hch']; subst.
    inversion Hok as [|? ? Hr Hok']; subst.
    simpl. rewrite Hc. simpl.
    eapply exec_cons; [constructor|].
    eapply exec_cons; [constructor|].
    eapply exec_cons; [constructor|].
    cbn beta. rewrite Hr. simpl.
    replace (n + S (length rest)) with (S n + length rest) by lia.
    specialize (IH replies (S n) (ret ++ [Ret r]) Hch'
                  ltac:(by injection Hlen) Hok').
    rewrite <- app_assoc in IH. exact IH.
Qed.

(** X7.  [EmitSignal] returns results exactly by asking every subscriber
    of the signal once, in the order of the subscription list: an
    execution ends with the results [rets] if and only if every subscriber
    has a channel and there are replies without error, one per subscriber,
    such that the execution is the sequence of rounds (make the return
    channel, deliver, receive the reply) and [rets] are the values of the
    replies in that order. *)
Theorem EmitSignal_returns_results m Name Args n tr
    (cfg' : nat * proc (list string)) rets :
  let ids := default [] (mapGet (subscriptions m) Name) in
  (exec (n, EmitSignal Name Args m) tr cfg' /\ cfg'.2 = Finished (Ok rets))
  <->
  (exists replies,
     length replies = length ids /\
     Forall (fun r => Error r = "") replies /\
     Forall (fun id => is_Some (mapGet (subscriber m) id)) ids /\
     tr = rounds m Name Args n ids replies /\
     rets = Ret <$> replies /\
     cfg' = (n + length ids, Finished (Ok rets))).
Proof.
  intros ids. unfold EmitSignal. fold ids. split.
  - intros [Hexec Hfin].
    destruct (emitLoop_finished _ _ _ _ _ _ _ _ _ Hexec Hfin)
      as (replies & H). by exists replies.
  - intros (replies & Hlen & Hok & Hch & -> & -> & ->). split; [|done].
    apply (emitLoop_rounds m Name Args ids replies n [] Hch Hlen Hok).
Qed.

(** X8.  [WaitSignal] for an id that has no channel and [FinishSignal]
    for an id that holds no return channel wait for ever: they take no
    step, and so return neither a result nor an error.  With a channel the
    only thing either does is the one receive or send, after which it
    returns without error. *)
Theorem WaitSignal_FinishSignal_block m id args n :
  (blocked (n, WaitSignal id m) <-> mapGet (subscriber m) id = None) /\
  (blocked (n, FinishSignal args m)
   <-> mapGet (subscriberRet m) (FinishId args) = None) /\
  (forall tr cfg',
     exec (n, WaitSignal id m) tr cfg' ->
     tr = [] /\ cfg' = (n, WaitSignal id m) \/
     exists c sig, mapGet (subscriber m) id = Some c /\
       tr = [EvWait c sig] /\ cfg' = (n, Finished (Ok sig))) /\
  (forall tr cfg',
     exec (n, FinishSignal args m) tr cfg' ->
     tr = [] /\ cfg' = (n, FinishSignal args m) \/
     exists c, mapGet (subscriberRet m) (FinishId args) = Some c /\
       tr = [EvFinish c (mkEmitRet (FinishRet args) (FinishErr args))] /\
       cfg' = (n, Finished (Ok tt))).
Proof.
  unfold WaitSignal, FinishSignal, blocked. split; [|split; [|split]].
  - destruct (mapGet (subscriber m) id) as [c|]; split; try done.
    + intros H. destruct (H (EvWait c (mkSignal "" "" 0)) _ (step_wait _ _ _ _)).
    + intros _ e cfg' Hs. inversion Hs.
  - destruct (mapGet (subscriberRet m) (FinishId args)) as [c|]; split;
      try done.
    + intros H. destruct (H _ _ (step_finish _ _ _ _)).
    + intros _ e cfg' Hs. inversion Hs.
  - intros tr cfg' H. inversion H as [|? ? ? ? ? Hs H1]; subst; [by left|].
    right. inversion Hs; subst.
    inversion H1 as [|? ? ? ? ? Hs2]; subst; [|inversion Hs2].
    by eexists _, _.
  - intros tr cfg' H. inversion H as [|? ? ? ? ? Hs H1]; subst; [by left|].
    right. inversion Hs; subst.
    inversion H1 as [|? ? ? ? ? Hs2]; subst; [|inversion Hs2].
    by eexists.
Qed.

(** X9.  The bookkeeping of [WaitSignal] decides where [FinishSignal]
    sends: after a signal has been handed to a subscriber, a
    [FinishSignal] of that subscriber sends its result and error on the
    return channel of that signal, also when an earlier signal handed to
    the same subscriber has not been answered, whose channel is forgotten;
    for every other subscriber [FinishSignal] is what it was before. *)
Theorem FinishSignal_routing st id earlier sig args :
  FinishId args = id ->
  let st1 := (WaitSignalDone id earlier st).2 in
  let st2 := (WaitSignalDone id sig st1).2 in
  FinishSignal args (svc st2)
  = SendRet (Some (SignalRet sig))
      (mkEmitRet (FinishRet args) (FinishErr args)) (Finished (Ok tt)) /\
  FinishSignal args (svc (WaitSignalDone id sig st).2)
  = FinishSignal args (svc st2) /\
  forall other,
    FinishId other <> id ->
    FinishSignal other (svc st2) = FinishSignal other (svc st).
Proof.
  intros <- st1 st2. unfold FinishSignal, st2, st1, WaitSignalDone, finishMsg.
  simpl. rewrite !lookup_insert_eq. split; [done|]. split; [done|].
  intros other Hne. rewrite !lookup_insert_ne by done.
  by destruct (subscriberRet (svc st)).
Qed.

Lemma FinishSignal_routing_witness :
  let st1 := (WaitSignalDone "S1" (mkSignal "X" "a" 3) threeSubscribers).2 in
  let st2 := (WaitSignalDone "S1" (mkSignal "X" "b" 4) st1).2 in
  FinishSignal (mkFinish "S1" "" "one") (svc st2)
  = SendRet (Some 4) (mkEmitRet "one" "") (Finished (Ok tt)) /\
  FinishSignal (mkFinish "S1" "" "one")
    (svc (WaitSignalDone "S1" (mkSignal "X" "b" 4) threeSubscribers).2)
  = FinishSignal (mkFinish "S1" "" "one") (svc st2) /\
  forall other,
    FinishId other <> "S1" ->
    FinishSignal other (svc st2) = FinishSignal other (svc threeSubscribers).
Proof.
  exact (FinishSignal_routing threeSubscribers "S1" (mkSignal "X" "a" 3)
           (mkSignal "X" "b" 4) (mkFinish "S1" "" "one") eq_refl).
Defined.

End SignalBusMore.

Section Paths.

Implicit Types (s p : string) (sep : ascii) (es acc : list string).

Lemma Split_nonempty s sep : GoString.Split s sep <> [].
Proof.
  destruct s as [|c s]; simpl; [done|].
  destruct (decide (c = sep)); [done|].
  by destruct (GoString.Split s sep).
Qed.

(** Splitting distributes over a separator. *)
Lemma Split_app a b sep :
  GoString.Split (a +:+ String sep b) sep
  = GoString.Split a sep ++ GoString.Split b sep.
Proof.
  induction a as [|c a IH].
  - change (GoString.Split (String sep b) sep = "" :: GoString.Split b sep).
    simpl. by rewrite decide_True.
  - change (GoString.Split (String c (a +:+ String sep b)) sep
            = GoString.Split (String c a) sep ++ GoString.Split b sep).
    simpl. destruct (decide (c = sep)) as [->|Hne].
    + by rewrite IH.
    + rewrite IH. pose proof (Split_nonempty a sep) as Hn.
      by destruct (GoString.Split a sep).
Qed.

(** The parts of a split hold no separator. *)
Lemma Split_parts s sep :
  Forall (fun e => GoString.contains sep e = false) (GoString.Split s sep).
Proof.
  induction s as [|c s IH]; simpl; [by repeat constructor|].
  destruct (decide (c = sep)) as [->|Hne]; [by constructor|].
  destruct (GoString.Split s sep) as [|e es]; simpl.
  - repeat constructor. simpl. by rewrite decide_False.
  - inversion IH; subst. constructor; [|done].
    simpl. by rewrite decide_False.
Qed.

(** A text without separator is its only part. *)
Lemma Split_whole s sep :
  GoString.contains sep s = false -> GoString.Split s sep = [s].
Proof.
  induction s as [|c s IH]; simpl; [done|].
  destruct (decide (c = sep)); [done|]. intros H. by rewrite IH.
Qed.

Lemma mjoin_cons {A} (x : list A) (l : list (list A)) :
  mjoin (x :: l) = x ++ mjoin l.
Proof. done. Qed.

Lemma concat_cons (d : string) e es :
  es <> [] -> String.concat d (e :: es) = e +:+ d +:+ String.concat d es.
Proof. by destruct es. Qed.

(** Splitting what was joined with one byte separators. *)
Lemma Split_concat sep es :
  es <> [] ->
  GoString.Split (String.concat (String sep "") es) sep
  = mjoin ((fun e => GoString.Split e sep) <$> es).
Proof.
  induction es as [|e es IH]; [done|]. intros _.
  destruct es as [|e' es].
  - simpl. by rewrite app_nil_r.
  - rewrite concat_cons by done.
    change (e +:+ String sep "" +:+ String.concat (String sep "") (e' :: es))
      with (e +:+ String sep (String.concat (String sep "") (e' :: es))).
    rewrite Split_app, IH by done. done.
Qed.

(** [cleanElems] works with a stack: the elements seen so far matter
    only through what they have left on it. *)
Lemma cleanElems_app root es1 es2 : forall acc,
  Filepath.cleanElems root acc (es1 ++ es2)
  = Filepath.cleanElems root (rev (Filepath.cleanElems root acc es1)) es2.
Proof.
  induction es1 as [|e es1 IH]; intros acc.
  - simpl. by rewrite rev_involutive.
  - simpl. repeat case_decide; try apply IH.
    destruct acc as [|top acc]; [destruct root; apply IH|].
    case_decide; apply IH.
Qed.

(** Empty elements are skipped. *)
Lemma cleanElems_filter root es : forall acc,
  Filepath.cleanElems root acc (filter (fun e => e <> "") es)
  = Filepath.cleanElems root acc es.
Proof.
  induction es as [|e es IH]; intros acc; [done|].
  rewrite filter_cons. destruct (decide (e <> "")) as [Hne|He].
  - simpl. repeat case_decide; try done; try apply IH.
    destruct acc as [|top acc]; [destruct root; apply IH|].
    case_decide; apply IH.
  - apply dec_stable in He. subst e. simpl. apply IH.
Qed.

(** Below the root, what [cleanElems] leaves are simple names. *)
Lemma cleanElems_simple es : forall acc,
  Forall simpleName acc ->
  Forall (fun e => GoString.contains "/" e = false) es ->
  Forall simpleName (Filepath.cleanElems true acc es).
Proof.
  induction es as [|e es IH]; intros acc Hacc Hes.
  - simpl. by apply List.Forall_rev.
  - inversion Hes as [|? ? He Hes']; subst. simpl.
    repeat case_decide; try (by apply IH).
    + destruct acc as [|top acc]; [by apply IH|].
      inversion Hacc as [|? ? Htop Hacc']; subst.
      case_decide; [|by apply IH].
      by destruct Htop as (_ & _ & _ & []).
    + apply IH; [|done]. by constructor.
Qed.

Lemma filter_simple es :
  Forall simpleName es -> filter (fun e => e <> "") es = es.
Proof.
  induction 1 as [|e es (_ & He & _) _ IH]; [done|].
  rewrite filter_cons, decide_True by done. by rewrite IH.
Qed.

Lemma mjoin_Split_simple es :
  Forall simpleName es ->
  mjoin ((fun e => GoString.Split e "/") <$> es) = es.
Proof.
  induction 1 as [|e es (He & _) _ IH]; [done|].
  rewrite fmap_cons. rewrite ?mjoin_cons. by rewrite (Split_whole _ _ He), IH.
Qed.

(** The steps of a cleaned rooted path are its elements. *)
Lemma steps_rooted es :
  Forall simpleName es ->
  FS.steps ("/" +:+ String.concat "/" es) = es.
Proof.
  intros Hes. unfold FS.steps, Filepath.elems.
  change ("/" +:+ String.concat "/" es)
    with ("" +:+ String "/" (String.concat "/" es)).
  rewrite Split_app. change (GoString.Split "" "/") with [""]. cbn [app].
  rewrite filter_cons, decide_False by (intros H; by apply H).
  destruct es as [|e es']; [done|].
  rewrite Split_concat by done.
  rewrite mjoin_Split_simple by done. by apply filter_simple.
Qed.

Lemma rooted_concat root parts :
  Filepath.rooted root = true ->
  Filepath.rooted (String.concat "/" (root :: parts)) = true.
Proof.
  destruct root as [|c root]; [done|]. destruct parts; [done|].
  rewrite concat_cons by done. done.
Qed.

(** The steps to a path joined from a rooted first part. *)
Lemma steps_Join root parts :
  Filepath.rooted root = true ->
  FS.steps (Filepath.Join (root :: parts))
  = Filepath.cleanElems true []
      (mjoin ((fun e => GoString.Split e "/") <$> root :: parts)).
Proof.
  intros Hroot. unfold Filepath.Join.
  rewrite filter_cons, decide_True by (by destruct root).
  unfold Filepath.Clean. rewrite (rooted_concat _ _ Hroot).
  unfold Filepath.elems. rewrite Split_concat by done.
  assert (Hskip : forall ps acc,
    Filepath.cleanElems true acc
      (mjoin ((fun e => GoString.Split e "/") <$> filter (fun e => e <> "") ps))
    = Filepath.cleanElems true acc
        (mjoin ((fun e => GoString.Split e "/") <$> ps))).
  { induction ps as [|q ps IH]; intros acc; [done|].
    rewrite filter_cons. destruct (decide (q <> "")) as [Hq|Hq].
    - rewrite !fmap_cons. rewrite ?mjoin_cons. rewrite !cleanElems_app. apply IH.
    - apply dec_stable in Hq. subst q. rewrite fmap_cons. rewrite ?mjoin_cons.
      rewrite IH. done. }
  rewrite !fmap_cons. rewrite ?mjoin_cons. rewrite !cleanElems_app, Hskip.
  rewrite <- !cleanElems_app.
  apply steps_rooted, cleanElems_simple; [constructor|].
  apply Forall_app. split; [apply Split_parts|].
  induction parts as [|q ps IH]; [constructor|].
  rewrite fmap_cons. rewrite ?mjoin_cons. apply Forall_app.
  split; [apply Split_parts|done].
Qed.

(** One more simple name at the end of the joined parts is one more
    step. *)
Lemma steps_Join_snoc root parts name :
  Filepath.rooted root = true -> simpleName name ->
  FS.steps (Filepath.Join (root :: parts ++ [name]))
  = FS.steps (Filepath.Join (root :: parts)) ++ [name].
Proof.
  intros Hroot (Hname & Hne & Hdot & Hdots).
  rewrite !steps_Join by done.
  rewrite app_comm_cons, fmap_app, join_app, cleanElems_app.
  simpl. rewrite app_nil_r, (Split_whole _ _ Hname). simpl.
  rewrite !decide_False by done.
  by rewrite rev_involutive.
Qed.

End Paths.

Section ConfigurationMore.

Variable Unmarshal : string -> string + json.
Variable Marshal : json -> string + string.
Variable GetSiteConfigPath : string -> string.

Implicit Types (fs : tree) (target : json) (subs : list string).

(** The loop of [getConfig] ends at the first empty component. *)
Lemma descend_stop pre post : forall target,
  descend target (pre ++ "" :: post) = descend target pre.
Proof.
  induction pre as [|sub rest IH]; intros target; [done|].
  simpl. destruct (decide (sub = "")); [done|].
  destruct target as [| ? | ? | ? | ? |ms]; try done.
  by destruct (JSON.get sub ms).
Qed.

Lemma descend_null subs : descend JNull subs = JNull.
Proof.
  destruct subs as [|sub rest]; [done|].
  simpl. by destruct (decide (sub = "")).
Qed.

Lemma descend_app a b : forall target,
  "" ∉ a -> descend target (a ++ b) = descend (descend target a) b.
Proof.
  induction a as [|sub rest IH]; intros target Ha; [done|].
  apply not_elem_of_cons in Ha as [Hsub Ha].
  simpl. rewrite !decide_False by done.
  destruct target as [| ? | ? | ? | ? |ms]; try (by rewrite descend_null).
  destruct (JSON.get sub ms); [by apply IH|by rewrite descend_null].
Qed.

(** X10.  In the name given to [getConfig] everything from the first
    empty component on is ignored: a dot at the end changes nothing, what
    follows two dots in a row is not looked at, and the empty name and
    every name that begins with a dot ask for the whole document, which is
    returned wrapped in [Value]. *)
Theorem getConfig_empty_component fs path name junk :
  getConfig Unmarshal Marshal fs path (name +:+ ".")
  = getConfig Unmarshal Marshal fs path name /\
  getConfig Unmarshal Marshal fs path (name +:+ ".." +:+ junk)
  = getConfig Unmarshal Marshal fs path name /\
  getConfig Unmarshal Marshal fs path ("." +:+ junk)
  = getConfig Unmarshal Marshal fs path "" /\
  forall content target,
    FS.ReadFile fs path = (Some content, None) ->
    Unmarshal content = inr target ->
    getConfig Unmarshal Marshal fs path ""
    = match Marshal (JObject [("Value", target)]) with
      | inl e => Err ("Could not encode configuration: " +:+ e)
      | inr ret => Ok (Some ret)
      end.
Proof.
  assert (H1 : forall target,
            descend target (GoString.Split (name +:+ ".") ".")
            = descend target (GoString.Split name ".")).
  { intros target. rewrite (Split_app name "" "."). apply descend_stop. }
  assert (H2 : forall target,
            descend target (GoString.Split (name +:+ ".." +:+ junk) ".")
            = descend target (GoString.Split name ".")).
  { intros target.
    change (name +:+ ".." +:+ junk) with (name +:+ String "." ("." +:+ junk)).
    rewrite (Split_app name ("." +:+ junk) ".").
    change ("." +:+ junk) with ("" +:+ String "." junk).
    rewrite (Split_app "" junk ".").
    exact (descend_stop _ (GoString.Split junk ".") target). }
  assert (H3 : forall target,
            descend target (GoString.Split ("." +:+ junk) ".")
            = descend target (GoString.Split "" ".")).
  { intros target. change ("." +:+ junk) with ("" +:+ String "." junk).
    by rewrite (Split_app "" junk "."). }
  unfold getConfig. destruct (FS.ReadFile fs path) as [content [e|]].
  - split; [done|]. split; [done|]. split; [done|]. by intros ? ? [=].
  - destruct (Unmarshal (default "" content)) as [e|target] eqn:Hparse.
    + split; [done|]. split; [done|]. split; [done|].
      intros c t [= ->]. simpl in Hparse. congruence.
    + rewrite H1, H2, H3. split; [done|]. split; [done|]. split; [done|].
      intros c t [= ->]. simpl in Hparse. intros Ht.
      rewrite Ht in Hparse. by injection Hparse as ->.
Qed.

Lemma namesOf_all subs : "" ∉ subs -> namesOf subs = subs.
Proof.
  induction subs as [|sub rest IH]; [done|]. intros H.
  apply not_elem_of_cons in H as [Hsub Hrest].
  simpl. rewrite decide_False by done. by rewrite IH.
Qed.

Lemma namesOf_app a b : "" ∉ a -> namesOf (a ++ b) = a ++ namesOf b.
Proof.
  induction a as [|sub rest IH]; [done|]. intros H.
  apply not_elem_of_cons in H as [Hsub Hrest].
  simpl. rewrite decide_False by done. by rewrite IH.
Qed.

(** X11.  A dotted name is followed section by section.  What the loop
    of [getConfig] finds for a name is the value at the path of its
    components before the first empty one, each looked up among the
    members of the object reached so far, and [null] when a component is
    missing or what has been reached is no object.  So, when the first
    part [a] of a name has no empty component, the value found for [a.b]
    is the value found for [b] in what is found for [a], and when the
    path of [a] does not resolve, [null] is found for [a] and for
    [a.b]. *)
Theorem descend_sections target a b :
  "" ∉ GoString.Split a "." ->
  descend target (GoString.Split a ".")
  = default JNull (valueAt target (GoString.Split a ".")) /\
  descend target (GoString.Split (a +:+ "." +:+ b) ".")
  = default JNull
      (valueAt target
         (GoString.Split a "." ++ namesOf (GoString.Split b "."))) /\
  descend target (GoString.Split (a +:+ "." +:+ b) ".")
  = descend (descend target (GoString.Split a ".")) (GoString.Split b ".") /\
  (valueAt target (GoString.Split a ".") = None ->
   descend target (GoString.Split a ".") = JNull /\
   descend target (GoString.Split (a +:+ "." +:+ b) ".") = JNull).
Proof.
  intros Ha.
  assert (Hab : GoString.Split (a +:+ "." +:+ b) "."
                = GoString.Split a "." ++ GoString.Split b ".").
  { change (a +:+ "." +:+ b) with (a +:+ String "." b). apply Split_app. }
  assert (H : descend target (GoString.Split (a +:+ "." +:+ b) ".")
              = descend (descend target (GoString.Split a "."))
                  (GoString.Split b ".")).
  { rewrite Hab. by apply descend_app. }
  assert (H1 : descend target (GoString.Split a ".")
               = default JNull (valueAt target (GoString.Split a "."))).
  { by rewrite descend_valueAt, namesOf_all. }
  split; [exact H1|]. split.
  { by rewrite descend_valueAt, Hab, namesOf_app. }
  split; [exact H|].
  intros Hnone. rewrite H, H1, Hnone. split; [done|]. apply descend_null.
Qed.

Lemma descend_sections_witness :
  let target :=
    JObject [("Title", JObject [("en", JString "Monsti")]); ("Port", JNumber "80")] in
  descend target (GoString.Split "Title" ".")
  = JObject [("en", JString "Monsti")] /\
  descend target (GoString.Split "Title.en" ".") = JString "Monsti" /\
  descend target (GoString.Split "Title.en" ".")
  = descend (descend target (GoString.Split "Title" "."))
      (GoString.Split "en" ".") /\
  descend target (GoString.Split "Port" ".") = JNumber "80" /\
  descend target (GoString.Split "Port.en" ".") = JNull /\
  descend target (GoString.Split "Host" ".") = JNull /\
  descend target (GoString.Split "Host.name" ".") = JNull.
Proof.
  intros target.
  assert (Hno : forall a, GoString.contains "." a = false -> a <> "" ->
                  "" ∉ GoString.Split a ".").
  { intros a Ha Hne. rewrite (Split_whole _ _ Ha).
    intros H. apply list_elem_of_singleton in H. by subst a. }
  destruct (descend_sections target "Title" "en"
              (Hno "Title" eq_refl ltac:(done)))
    as (H1 & H2 & H3 & _).
  destruct (descend_sections target "Port" "en"
              (Hno "Port" eq_refl ltac:(done)))
    as (H4 & H5 & _ & _).
  destruct (descend_sections target "Host" "name"
              (Hno "Host" eq_refl ltac:(done)))
    as (_ & _ & _ & H6).
  split; [exact H1|]. split; [exact H2|]. split; [exact H3|].
  split; [exact H4|]. split; [exact H5|]. exact (H6 eq_refl).
Defined.

End ConfigurationMore.

Section StoreMore.

Variable GetSiteNodesPath : string -> string.

Implicit Types (fs : tree) (Site Path Content : string)
  (p q : list string) (t u : tree).

(** Writing a file changes no other thing that is not a directory. *)
Lemma walk_writeFile_other p : forall content q t t' u,
  FS.writeFile p content t = inr t' ->
  q <> p ->
  FS.walk q t = inr u -> (forall es, u <> Dir es) ->
  FS.walk q t' = inr u.
Proof.
  induction p as [|c p IH]; intros content q t t' u Hw Hne Hq Hu; [done|].
  simpl in Hw. destruct t as [| |es]; try done.
  destruct q as [|d q]; simpl in Hq; [injection Hq as <-; by destruct (Hu es)|].
  destruct (decide (d = c)) as [->|Hd].
  - destruct (FS.assoc c es) as [v|] eqn:Hv; [|done].
    destruct p as [|c' p].
    + destruct v as [x|partial e|es']; try done; injection Hw as <-;
        (destruct q as [|d' q]; [done|done]).
    + destruct (FS.writeFile (c' :: p) content v) as [|v'] eqn:Hw'; [done|].
      injection Hw as <-. cbn [FS.walk]. rewrite assoc_put.
      eapply IH; [done| |done|done]. congruence.
  - assert (Hput : forall v, FS.walk (d :: q) (Dir (FS.put c v es)) = inr u).
    { intros v. simpl. by rewrite assoc_put_ne. }
    destruct p as [|c' p].
    + destruct (FS.assoc c es) as [[| |]|]; by simplify_eq.
    + destruct (FS.assoc c es) as [v|]; [|done].
      destruct (FS.writeFile (c' :: p) content v); by simplify_eq.
Qed.

(** What [GetNodeData] reads. *)
Lemma GetNodeData_reads fs Site Path File_ d :
  GetNodeData GetSiteNodesPath fs Site Path File_ = Ok (Some d, None) <->
  Path <> "" /\
  FS.walk (dataFile (GetSiteNodesPath Site) Path File_) fs = inr (File d).
Proof.
  unfold GetNodeData, dataFile. rewrite slice_from_1.
  destruct (decide (Path = "")) as [->|Hne]; [by split; [|intros []]|].
  cbn [bind]. unfold FS.ReadFile.
  destruct (FS.walk _ fs) as [e|[c|partial e|es]]; simpl.
  - destruct (bool_decide (e = ENOENT)); split; (done || by intros [_ [=]]).
  - split; [by intros [= ->]|by intros [_ [= ->]]].
  - destruct (bool_decide (e = ENOENT)); split; (done || by intros [_ [=]]).
  - split; (done || by intros [_ [=]]).
Qed.



(** X13.  [WriteNodeData] changes the data of no other file: for sites
    with rooted node directories, whatever the call returns, a file that
    is somewhere else and could be read before the call reads the same
    afterwards. *)
Theorem WriteNodeData_frame fs fs' r Site Path File_ Content Site' Path' File' d :
  Filepath.rooted (GetSiteNodesPath Site) = true ->
  Filepath.rooted (GetSiteNodesPath Site') = true ->
  WriteNodeData GetSiteNodesPath Site Path File_ Content fs = (r, fs') ->
  GetNodeData GetSiteNodesPath fs Site' Path' File' = Ok (Some d, None) ->
  dataFile (GetSiteNodesPath Site') Path' File'
  <> dataFile (GetSiteNodesPath Site) Path File_ ->
  GetNodeData GetSiteNodesPath fs' Site' Path' File' = Ok (Some d, None).
Proof.
  intros _ _ Hw Hr Hne. apply GetNodeData_reads in Hr as [Hp Hr].
  apply GetNodeData_reads. split; [done|].
  revert Hw. unfold WriteNodeData. rewrite slice_from_1.
  destruct (decide (Path = "")); [by intros [= _ <-]|].
  fold (dataFile (GetSiteNodesPath Site) Path File_) in *.
  unfold FS.MkdirAll, FS.WriteFile.
  set (file := Filepath.Join [GetSiteNodesPath Site; GoString.drop 1 Path; File_]).
  destruct (FS.mkdirAll (FS.steps (Filepath.Dir file)) fs) as [e|fs1] eqn:Hmk;
    [by intros [= _ <-]|].
  assert (H1 : FS.walk (dataFile (GetSiteNodesPath Site') Path' File') fs1
               = inr (File d)) by (by eapply walk_mkdirAll).
  destruct (FS.writeFile (FS.steps file) Content fs1) as [e|fs2] eqn:Hwr;
    intros [= _ <-]; [done|].
  by eapply walk_writeFile_other.
Qed.

End StoreMore.

Section NodeMovesMore.

Variable GetSiteNodesPath : string -> string.
Variable removeRoot : tree -> option PathError * tree.
Variable removeRefused : tree -> string -> option (PathError * tree).

Implicit Types (fs : tree) (Site Path Node Source Target : string)
  (p q old new : list string) (t u v : tree).

Lemma walk_app p : forall q t,
  FS.walk (p ++ q) t
  = match FS.walk p t with
    | inr u => FS.walk q u
    | inl e => inl e
    end.
Proof.
  induction p as [|c p IH]; intros q t; [done|].
  simpl. destruct t as [| |es]; try done.
  destruct (FS.assoc c es); [apply IH|done].
Qed.

Lemma assoc_remove c es : FS.assoc c (OS.remove c es) = None.
Proof.
  unfold OS.remove. induction es as [|[n u] es IH]; [done|].
  rewrite filter_cons. simpl. destruct (decide (n <> c)) as [Hn|Hn]; [|done].
  simpl. by rewrite decide_False.
Qed.

Lemma assoc_remove_ne c d es :
  d <> c -> FS.assoc d (OS.remove c es) = FS.assoc d es.
Proof.
  intros Hne. unfold OS.remove. induction es as [|[n u] es IH]; [done|].
  rewrite filter_cons. simpl. destruct (decide (n <> c)) as [Hn|Hn]; simpl.
  - by rewrite IH.
  - apply dec_stable in Hn. subst n. by rewrite decide_False.
Qed.

(** Nothing is found at or below a removed path. *)
Lemma walk_removeAll_below p : forall q t,
  p <> [] -> exists e, FS.walk (p ++ q) (OS.removeAll p t) = inl e.
Proof.
  induction p as [|c p IH]; intros q t Hp; [done|].
  destruct t as [| |es]; try (by eexists).
  destruct p as [|c' p].
  - simpl. rewrite assoc_remove. by eexists.
  - cbn [OS.removeAll]. destruct (FS.assoc c es) as [t'|] eqn:Hc.
    + cbn [app FS.walk]. rewrite assoc_put. by apply IH.
    + simpl. rewrite Hc. by eexists.
Qed.

(** What was there is missing afterwards. *)
Lemma walk_removeAll_gone p : forall q t es,
  p <> [] -> FS.walk (removelast p) t = inr (Dir es) ->
  FS.walk (p ++ q) (OS.removeAll p t) = inl ENOENT.
Proof.
  induction p as [|c p IH]; intros q t es Hp Hw; [done|].
  destruct p as [|c' p].
  - simpl in Hw. injection Hw as ->. simpl. by rewrite assoc_remove.
  - cbn [removelast FS.walk] in Hw. destruct t as [| |es0]; try done.
    cbn [OS.removeAll]. destruct (FS.assoc c es0) as [t'|] eqn:Hc; [|done].
    cbn [app FS.walk]. rewrite assoc_put. by eapply IH.
Qed.

(** Removal changes nothing that is not a directory elsewhere. *)
Lemma walk_removeAll_other p : forall q t u,
  ~ p `prefix_of` q ->
  FS.walk q t = inr u -> (forall es, u <> Dir es) ->
  FS.walk q (OS.removeAll p t) = inr u.
Proof.
  induction p as [|c p IH]; intros q t u Hpre Hq Hu.
  - destruct Hpre. apply prefix_nil.
  - destruct t as [| |es]; try done.
    destruct q as [|d q]; [simpl in Hq; injection Hq as <-; by destruct (Hu es)|].
    simpl in Hq. destruct p as [|c' p].
    + simpl. rewrite assoc_remove_ne; [done|].
      intros ->. apply Hpre, prefix_cons, prefix_nil.
    + cbn [OS.removeAll]. destruct (FS.assoc c es) as [t'|] eqn:Hc;
        [|simpl; done].
      cbn [FS.walk]. destruct (decide (d = c)) as [->|Hne].
      * rewrite assoc_put. rewrite Hc in Hq. apply IH; [|done|done].
        intros H. by apply Hpre, prefix_cons.
      * by rewrite assoc_put_ne.
Qed.

(** A directory elsewhere, or above, is a directory afterwards. *)
Lemma walk_removeAll_dir p : forall q t es,
  ~ p `prefix_of` q ->
  FS.walk q t = inr (Dir es) ->
  exists es', FS.walk q (OS.removeAll p t) = inr (Dir es').
Proof.
  induction p as [|c p IH]; intros q t es Hpre Hq.
  - destruct Hpre. apply prefix_nil.
  - destruct t as [| |es0]; try (by destruct q).
    destruct q as [|d q].
    { simpl. destruct p; [by eexists|]. destruct (FS.assoc c es0); by eexists. }
    simpl in Hq. destruct p as [|c' p].
    + simpl. rewrite assoc_remove_ne; [by eexists|].
      intros ->. apply Hpre, prefix_cons, prefix_nil.
    + cbn [OS.removeAll]. destruct (FS.assoc c es0) as [t'|] eqn:Hc;
        [|simpl; by eexists].
      cbn [FS.walk]. destruct (decide (d = c)) as [->|Hne].
      * rewrite assoc_put. rewrite Hc in Hq. eapply IH; [|done].
        intros H. by apply Hpre, prefix_cons.
      * rewrite assoc_put_ne by done. by eexists.
Qed.

(** What is put at a path is found there. *)
Lemma walk_insertAt p : forall q v t es,
  p <> [] -> FS.walk (removelast p) t = inr (Dir es) ->
  FS.walk (p ++ q) (OS.insertAt p v t) = FS.walk q v.
Proof.
  induction p as [|c p IH]; intros q v t es Hp Hw; [done|].
  destruct p as [|c' p].
  - simpl in Hw. injection Hw as ->. simpl. by rewrite assoc_put.
  - cbn [removelast FS.walk] in Hw. destruct t as [| |es0]; try done.
    cbn [OS.insertAt]. destruct (FS.assoc c es0) as [t'|] eqn:Hc; [|done].
    cbn [app FS.walk]. rewrite assoc_put. by eapply IH.
Qed.

(** Putting something at a path changes nothing beside the path. *)
Lemma walk_insertAt_other p : forall q v t,
  ~ p `prefix_of` q -> ~ q `prefix_of` p ->
  FS.walk q (OS.insertAt p v t) = FS.walk q t.
Proof.
  induction p as [|c p IH]; intros q v t Hpq Hqp.
  - destruct Hpq. apply prefix_nil.
  - destruct t as [| |es]; try done.
    destruct q as [|d q]; [destruct Hqp; apply prefix_nil|].
    destruct p as [|c' p].
    + simpl. rewrite assoc_put_ne; [done|].
      intros ->. apply Hpq, prefix_cons, prefix_nil.
    + cbn [OS.insertAt]. destruct (FS.assoc c es) as [t'|] eqn:Hc; [|done].
      cbn [FS.walk]. destruct (decide (d = c)) as [->|Hne].
      * rewrite assoc_put, Hc. apply IH; intros H.
        -- by apply Hpq, prefix_cons.
        -- by apply Hqp, prefix_cons.
      * by rewrite assoc_put_ne.
Qed.

Lemma prefix_removelast p q :
  p `prefix_of` q -> p <> q -> p `prefix_of` removelast q.
Proof.
  intros [k ->] Hne. destruct (decide (k = [])) as [->|Hk].
  - by rewrite app_nil_r in Hne.
  - rewrite removelast_app by done. by apply prefix_app_r.
Qed.

(** A path joined from a rooted first part goes the same way with and
    without a separator in front of the second part. *)
Lemma steps_Join_slash root rest more :
  Filepath.rooted root = true ->
  FS.steps (Filepath.Join (root :: String "/" rest :: more))
  = FS.steps (Filepath.Join (root :: rest :: more)).
Proof.
  intros Hroot. rewrite !steps_Join by done.
  rewrite !fmap_cons, !mjoin_cons, !cleanElems_app.
  change (String "/" rest) with ("" +:+ String "/" rest).
  rewrite Split_app. change (GoString.Split "" "/") with [""].
  done.
Qed.

(** Where the file [File_] of a node is, for a rooted site directory
    and a simple file name. *)
Lemma dataFile_snoc root Path File_ :
  Filepath.rooted root = true -> simpleName File_ ->
  dataFile root Path File_
  = FS.steps (Filepath.Join [root; GoString.drop 1 Path]) ++ [File_].
Proof.
  intros Hroot Hname. unfold dataFile.
  apply (steps_Join_snoc root [GoString.drop 1 Path] File_ Hroot Hname).
Qed.

Lemma simple_node_json : simpleName "node.json".
Proof. by repeat split. Qed.

(** Without a file to read there is no content. *)
Lemma GetNodeData_nothing fs Site Path File_ e0 d e :
  FS.walk (dataFile (GetSiteNodesPath Site) Path File_) fs = inl e0 ->
  GetNodeData GetSiteNodesPath fs Site Path File_ <> Ok (Some d, e).
Proof.
  intros Hw. unfold GetNodeData. rewrite slice_from_1.
  destruct (decide (Path = "")); [done|]. cbn [bind].
  unfold dataFile in Hw. unfold FS.ReadFile. rewrite Hw. simpl.
  by destruct (bool_decide (e0 = ENOENT)).
Qed.

Lemma GetNodeData_missing fs Site Path File_ :
  Path <> "" ->
  FS.walk (dataFile (GetSiteNodesPath Site) Path File_) fs = inl ENOENT ->
  GetNodeData GetSiteNodesPath fs Site Path File_ = Ok (None, None).
Proof.
  intros Hp Hw. unfold GetNodeData. rewrite slice_from_1, decide_False by done.
  cbn [bind]. unfold dataFile in Hw. unfold FS.ReadFile. by rewrite Hw.
Qed.

Lemma getNode_reads fs root Path d :
  Path <> "" ->
  FS.walk (dataFile root Path "node.json") fs = inr (File d) ->
  getNode fs root Path = Ok (Bytes.Replace1 d "{" (pathJSON Path), None).
Proof.
  intros Hp Hw. unfold getNode. rewrite slice_from_1, decide_False by done.
  cbn [bind]. unfold dataFile in Hw. unfold FS.ReadFile. by rewrite Hw.
Qed.

Lemma getNode_missing fs root Path :
  Path <> "" ->
  FS.walk (dataFile root Path "node.json") fs = inl ENOENT ->
  getNode fs root Path = Ok (None, None).
Proof.
  intros Hp Hw. unfold getNode. rewrite slice_from_1, decide_False by done.
  cbn [bind]. unfold dataFile in Hw. unfold FS.ReadFile. by rewrite Hw.
Qed.

(** X15.  [RemoveNode] removes the node with everything below it and
    nothing else.  For a site with a rooted node directory and a node
    path that does not lead to the root of the file system, after a call
    that returned without error [GetNode] finds no node at the path, no
    file at or below the directory of the node can be read, and every
    file elsewhere that could be read before reads the same; and when the
    system refuses the removal, the call returns the error it is given,
    as [Can't remove node]. *)
Theorem RemoveNode_removes fs fs' r Site Node :
  Filepath.rooted (GetSiteNodesPath Site) = true ->
  FS.steps (Filepath.Join [GetSiteNodesPath Site; GoString.drop 1 Node]) <> [] ->
  RemoveNode GetSiteNodesPath removeRoot removeRefused Site Node fs = (r, fs') ->
  (r = Ok tt ->
   (exists e, GetNode GetSiteNodesPath fs' Site Node = Ok (None, e)) /\
   (forall Site' Path' File' d e,
      FS.steps (Filepath.Join [GetSiteNodesPath Site; GoString.drop 1 Node])
        `prefix_of` dataFile (GetSiteNodesPath Site') Path' File' ->
      GetNodeData GetSiteNodesPath fs' Site' Path' File' <> Ok (Some d, e)) /\
   (forall Site' Path' File' d,
      ~ FS.steps (Filepath.Join [GetSiteNodesPath Site; GoString.drop 1 Node])
        `prefix_of` dataFile (GetSiteNodesPath Site') Path' File' ->
      GetNodeData GetSiteNodesPath fs Site' Path' File' = Ok (Some d, None) ->
      GetNodeData GetSiteNodesPath fs' Site' Path' File' = Ok (Some d, None))) /\
  (Node <> "" ->
   forall err fs1,
     removeRefused fs
       (Filepath.Join [GetSiteNodesPath Site; GoString.drop 1 Node])
     = Some (err, fs1) ->
     r = Err ("Can't remove node: " +:+ errorText err) /\ fs' = fs1) /\
  (Node <> "" ->
   removeRefused fs
     (Filepath.Join [GetSiteNodesPath Site; GoString.drop 1 Node]) = None ->
   r = Ok tt).
Proof.
  intros Hroot Hsteps Hrun.
  set (S := FS.steps (Filepath.Join [GetSiteNodesPath Site; GoString.drop 1 Node]))
    in *.
  assert (Hcases : Node <> "" ->
            match removeRefused fs
                    (Filepath.Join [GetSiteNodesPath Site; GoString.drop 1 Node])
            with
            | Some (err, fs1) =>
                r = Err ("Can't remove node: " +:+ errorText err) /\ fs' = fs1
            | None => r = Ok tt /\ fs' = OS.removeAll S fs
            end).
  { intros Hnode. revert Hrun. unfold RemoveNode, RemoveAll.
    rewrite slice_from_1, decide_False by done. fold S.
    destruct S as [|c S']; [done|].
    destruct (removeRefused fs _) as [[err fs1]|]; by intros [= <- <-]. }
  split; [|split].
  - intros ->.
    assert (Hnode : Node <> "").
    { intros ->. revert Hrun. unfold RemoveNode. by rewrite slice_from_1. }
    specialize (Hcases Hnode).
    destruct (removeRefused fs _) as [[err fs1]|]; [by destruct Hcases|].
    destruct Hcases as [_ ->]. split; [|split].
    + unfold GetNode, getNode. rewrite slice_from_1, decide_False by done.
      cbn [bind]. unfold FS.ReadFile.
      pose proof (steps_Join_snoc (GetSiteNodesPath Site) [GoString.drop 1 Node]
                    "node.json" Hroot simple_node_json) as Hs.
      cbn [app] in Hs. rewrite Hs. fold S.
      destruct (walk_removeAll_below S ["node.json"] fs Hsteps) as [e ->].
      simpl. destruct (bool_decide (e = ENOENT)); by eexists.
    + intros Site' Path' File' d e [q Hq].
      destruct (walk_removeAll_below S q fs Hsteps) as [e0 He0].
      apply (GetNodeData_nothing _ _ _ _ e0). by rewrite Hq.
    + intros Site' Path' File' d Hpre Hr.
      apply GetNodeData_reads in Hr as [Hp Hr].
      apply GetNodeData_reads. split; [done|].
      by apply walk_removeAll_other.
  - intros Hnode err fs1 Hrefused. specialize (Hcases Hnode).
    by rewrite Hrefused in Hcases.
  - intros Hnode Hrefused. specialize (Hcases Hnode).
    rewrite Hrefused in Hcases. by destruct Hcases.
Qed.

(** What a successful [rename] has done. *)
Lemma rename_moved old new t t' :
  OS.rename old new t = inr t' -> old <> new ->
  exists src eso esn,
    old <> [] /\ new <> [] /\
    FS.walk (removelast old) t = inr (Dir eso) /\
    FS.walk (removelast new) t = inr (Dir esn) /\
    FS.walk old t = inr src /\
    ~ old `prefix_of` new /\ ~ new `prefix_of` old /\
    t' = OS.insertAt new src (OS.removeAll old t).
Proof.
  unfold OS.rename, OS.parentOf. intros Hr Hne.
  destruct (FS.walk (removelast old) t) as [|[| |eso]] eqn:Ho; try done.
  destruct (FS.walk (removelast new) t) as [|[| |esn]] eqn:Hn; try done.
  destruct (last old) as [o|] eqn:Hlo; [|done].
  destruct (last new) as [n|] eqn:Hln; [|done].
  destruct (FS.assoc o eso) as [src|] eqn:Hsrc; [|done].
  destruct (decide (old `prefix_of` removelast new)) as [|Hon]; [done|].
  destruct (decide (new `prefix_of` removelast old)) as [|Hno]; [done|].
  rewrite decide_False in Hr by done.
  apply last_Some in Hlo as [po ->]. apply last_Some in Hln as [pn ->].
  rewrite removelast_last in *.
  exists src, eso, esn.
  split; [by destruct po|]. split; [by destruct pn|].
  split; [done|]. split; [done|].
  split; [rewrite walk_app, Ho; simpl; by rewrite Hsrc|].
  split.
  { intros H. apply Hon. rewrite <- (removelast_last pn n).
    by apply prefix_removelast. }
  split.
  { intros H. apply Hno. rewrite <- (removelast_last po o).
    apply prefix_removelast; [done|congruence]. }
  destruct (FS.assoc n esn) as [[| |[|]]|]; destruct (OS.isDir src);
    by simplify_eq.
Qed.

(** X16.  [RenameNode] moves the node with its files.  For a site with
    a rooted node directory and two paths given with the separator in
    front that lead to different places, after a call that returned
    without error every file of the source node that could be read before
    is read at the target with the same content and no longer found at
    the source; and [GetNode] at the target gives the document of the
    source with the [Path] member of the target, and nothing at the
    source. *)
Theorem RenameNode_moves fs fs' Site Source Target :
  Filepath.rooted (GetSiteNodesPath Site) = true ->
  RenameNode GetSiteNodesPath Site (String "/" Source) (String "/" Target) fs
  = (Ok tt, fs') ->
  FS.steps (Filepath.Join [GetSiteNodesPath Site; Source])
  <> FS.steps (Filepath.Join [GetSiteNodesPath Site; Target]) ->
  (forall File_ d,
     simpleName File_ ->
     GetNodeData GetSiteNodesPath fs Site (String "/" Source) File_
     = Ok (Some d, None) ->
     GetNodeData GetSiteNodesPath fs' Site (String "/" Target) File_
     = Ok (Some d, None) /\
     GetNodeData GetSiteNodesPath fs' Site (String "/" Source) File_
     = Ok (None, None)) /\
  (forall d,
     GetNodeData GetSiteNodesPath fs Site (String "/" Source) "node.json"
     = Ok (Some d, None) ->
     GetNode GetSiteNodesPath fs' Site (String "/" Target)
     = Ok (Bytes.Replace1 d "{" (pathJSON (String "/" Target)), None) /\
     GetNode GetSiteNodesPath fs' Site (String "/" Source) = Ok (None, None)).
Proof.
  intros Hroot Hrun Hne.
  set (root := GetSiteNodesPath Site) in *.
  set (old := FS.steps (Filepath.Join [root; Source])) in *.
  set (new := FS.steps (Filepath.Join [root; Target])) in *.
  assert (Hmove : exists fs1 src esn,
            (forall q u, FS.walk q fs = inr u -> (forall es, u <> Dir es) ->
                         FS.walk q fs1 = inr u) /\
            old <> [] /\ new <> [] /\
            FS.walk (removelast old) fs1 = inr (Dir esn) /\
            FS.walk old fs1 = inr src /\
            ~ old `prefix_of` new /\ ~ new `prefix_of` old /\
            (exists es, FS.walk (removelast new) (OS.removeAll old fs1)
                        = inr (Dir es)) /\
            fs' = OS.insertAt new src (OS.removeAll old fs1)).
  { revert Hrun. unfold RenameNode, FS.MkdirAll. fold root.
    destruct (FS.mkdirAll _ fs) as [|fs1] eqn:Hmk; [done|].
    unfold OS.Rename. case_decide; [done|].
    rewrite !steps_Join_slash by done. fold old new.
    destruct (OS.rename old new fs1) as [|fs2] eqn:Hren; [done|].
    intros [= <-].
    destruct (rename_moved _ _ _ _ Hren Hne)
      as (src & eso & esn & Ho & Hn & Hpo & Hpn & Hsrc & Hon & Hno & ->).
    exists fs1, src, eso. split.
    { intros q u Hq Hu. by eapply walk_mkdirAll. }
    do 6 (split; [done|]). split; [|done].
    eapply walk_removeAll_dir; [|done].
    intros Hx. apply Hon. etrans; [exact Hx|].
    rewrite (app_removelast_last "" Hn) at 2.
    by apply prefix_app_r. }
  destruct Hmove
    as (fs1 & src & eso & Hkeep & Ho & Hn & Hpo & Hsrc & Hon & Hno
        & [es Hpn] & ->).
  assert (Hfile : forall File_ d,
            simpleName File_ ->
            GetNodeData GetSiteNodesPath fs Site (String "/" Source) File_
            = Ok (Some d, None) ->
            FS.walk (new ++ [File_])
              (OS.insertAt new src (OS.removeAll old fs1)) = inr (File d) /\
            FS.walk (old ++ [File_])
              (OS.insertAt new src (OS.removeAll old fs1)) = inl ENOENT).
  { intros File_ d Hname Hr. apply GetNodeData_reads in Hr as [_ Hr].
    fold root in Hr. rewrite dataFile_snoc in Hr by done.
    cbn [GoString.drop] in Hr. fold old in Hr.
    apply Hkeep in Hr; [|done]. rewrite walk_app, Hsrc in Hr. split.
    - by rewrite (walk_insertAt new [File_] src _ es Hn Hpn).
    - rewrite walk_insertAt_other.
      + by apply (walk_removeAll_gone old [File_] fs1 eso).
      + intros H.
        destruct (prefix_weak_total new old (old ++ [File_]) H
                    (prefix_app_r old old [File_] (reflexivity old)));
          done.
      + intros H. by apply Hon, (prefix_app_l _ _ [File_]). }
  split.
  - intros File_ d Hname Hr. destruct (Hfile File_ d Hname Hr) as [Hnew Hold].
    split.
    + apply GetNodeData_reads. split; [done|]. fold root.
      by rewrite dataFile_snoc.
    + apply GetNodeData_missing; [done|]. fold root.
      by rewrite dataFile_snoc.
  - intros d Hr.
    destruct (Hfile "node.json" d simple_node_json Hr) as [Hnew Hold].
    unfold GetNode. fold root. split.
    + apply getNode_reads; [done|].
      by rewrite dataFile_snoc by (done || apply simple_node_json).
    + apply getNode_missing; [done|].
      by rewrite dataFile_snoc by (done || apply simple_node_json).
Qed.

(** X14.  The methods that take the path of a node cut off its first
    byte with [Path[1:]]: on the empty path [GetNode], [GetNodeData],
    [WriteNodeData] and [RemoveNode] panic, the last two without having
    touched the file system; on every other path they return; and the
    byte cut off is not looked at, so that a path that begins with some
    other byte than the separator names the same files. *)
Theorem node_path_sliced fs Site File_ Content c rest :
  (GetNode GetSiteNodesPath fs Site "" = Panic "slice bounds out of range" /\
   GetNodeData GetSiteNodesPath fs Site "" File_
   = Panic "slice bounds out of range" /\
   WriteNodeData GetSiteNodesPath Site "" File_ Content fs
   = (Panic "slice bounds out of range", fs) /\
   RemoveNode GetSiteNodesPath removeRoot removeRefused Site "" fs
   = (Panic "slice bounds out of range", fs)) /\
  (returns (GetNode GetSiteNodesPath fs Site (String c rest)) /\
   returns (GetNodeData GetSiteNodesPath fs Site (String c rest) File_) /\
   returns (WriteNodeData GetSiteNodesPath Site (String c rest) File_ Content
              fs).1 /\
   returns (RemoveNode GetSiteNodesPath removeRoot removeRefused Site (String c rest) fs).1) /\
  (GetNodeData GetSiteNodesPath fs Site (String c rest) File_
   = GetNodeData GetSiteNodesPath fs Site (String "/" rest) File_ /\
   WriteNodeData GetSiteNodesPath Site (String c rest) File_ Content fs
   = WriteNodeData GetSiteNodesPath Site (String "/" rest) File_ Content fs /\
   RemoveNode GetSiteNodesPath removeRoot removeRefused Site (String c rest) fs
   = RemoveNode GetSiteNodesPath removeRoot removeRefused Site (String "/" rest) fs).
Proof.
  split; [by repeat split|]. split.
  - unfold GetNode, getNode, GetNodeData, WriteNodeData, RemoveNode.
    rewrite !slice_from_1, !decide_False by done. cbn [bind].
    split; [|split; [|split]].
    + destruct (FS.ReadFile fs _) as [node [e|]]; [|done].
      by destruct (IsNotExist (Some e)).
    + destruct (FS.ReadFile fs _) as [node err]. by destruct (IsNotExist err).
    + destruct (FS.MkdirAll fs _) as [[e|] fs1]; [done|].
      by destruct (FS.WriteFile fs1 _ Content) as [[e|] fs2].
    + by destruct (RemoveAll removeRoot removeRefused fs _) as [[e|] fs1].
  - unfold GetNodeData, WriteNodeData, RemoveNode.
    by rewrite !slice_from_1, !decide_False.
Qed.

End NodeMovesMore.


(** Writing a body for [/a/b] leaves the document of [/a/c] as it is. *)
Lemma WriteNodeData_frame_witness :
  GetNodeData siteRoot plainSite "site" "/a/c" "node.json"
  = Ok (Some documentJSON, None) /\
  GetNodeData siteRoot
    (WriteNodeData siteRoot "site" "/a/b" "body.html" "<p>Hello</p>"
       plainSite).2 "site" "/a/c" "node.json"
  = Ok (Some documentJSON, None).
Proof.
  assert (Hread : GetNodeData siteRoot plainSite "site" "/a/c" "node.json"
                  = Ok (Some documentJSON, None)) by (vm_compute; reflexivity).
  split; [exact Hread|].
  apply (WriteNodeData_frame siteRoot plainSite _
           (WriteNodeData siteRoot "site" "/a/b" "body.html" "<p>Hello</p>"
              plainSite).1
           "site" "/a/b" "body.html" "<p>Hello</p>" "site" "/a/c" "node.json"
           documentJSON eq_refl eq_refl).
  - by destruct (WriteNodeData siteRoot "site" "/a/b" "body.html"
                   "<p>Hello</p>" plainSite).
  - exact Hread.
  - vm_compute. discriminate.
Defined.

(** The node [/a/c] is removed from the site in which [/a] has its own
    document, on a system that refuses nothing: [/a/c] is gone and the
    document of [/a] stays. *)
Lemma RemoveNode_removes_witness :
  let fs' :=
    (RemoveNode siteRoot (fun t => (None, t)) (fun _ _ => None) "site" "/a/c"
       plainSite).2 in
  RemoveNode siteRoot (fun t => (None, t)) (fun _ _ => None) "site" "/a/c"
    plainSite = (Ok tt, fs') /\
  GetNode siteRoot fs' "site" "/a/c" = Ok (None, None) /\
  (exists e, GetNode siteRoot fs' "site" "/a/c" = Ok (None, e)) /\
  (forall Site' Path' File' d e,
     FS.steps (Filepath.Join [siteRoot "site"; GoString.drop 1 "/a/c"])
       `prefix_of` dataFile (siteRoot Site') Path' File' ->
     GetNodeData siteRoot fs' Site' Path' File' <> Ok (Some d, e)) /\
  (forall Site' Path' File' d,
     ~ FS.steps (Filepath.Join [siteRoot "site"; GoString.drop 1 "/a/c"])
       `prefix_of` dataFile (siteRoot Site') Path' File' ->
     GetNodeData siteRoot plainSite Site' Path' File' = Ok (Some d, None) ->
     GetNodeData siteRoot fs' Site' Path' File' = Ok (Some d, None)).
Proof.
  intros fs'.
  assert (Hrun : RemoveNode siteRoot (fun t => (None, t)) (fun _ _ => None)
                   "site" "/a/c" plainSite = (Ok tt, fs'))
    by (vm_compute; reflexivity).
  split; [exact Hrun|]. split; [vm_compute; reflexivity|].
  assert (Hsteps : FS.steps (Filepath.Join [siteRoot "site";
                                            GoString.drop 1 "/a/c"]) <> [])
    by (vm_compute; discriminate).
  exact (proj1 (RemoveNode_removes siteRoot (fun t => (None, t))
                  (fun _ _ => None) plainSite fs' (Ok tt) "site" "/a/c"
                  eq_refl Hsteps Hrun) eq_refl).
Defined.

(** The node [/a/c] is moved to [/b/d]. *)
Lemma RenameNode_moves_witness :
  let fs' := (RenameNode siteRoot "site" "/a/c" "/b/d" plainSite).2 in
  (forall File_ d,
     simpleName File_ ->
     GetNodeData siteRoot plainSite "site" "/a/c" File_ = Ok (Some d, None) ->
     GetNodeData siteRoot fs' "site" "/b/d" File_ = Ok (Some d, None) /\
     GetNodeData siteRoot fs' "site" "/a/c" File_ = Ok (None, None)) /\
  (forall d,
     GetNodeData siteRoot plainSite "site" "/a/c" "node.json"
     = Ok (Some d, None) ->
     GetNode siteRoot fs' "site" "/b/d"
     = Ok (Bytes.Replace1 d "{" (pathJSON "/b/d"), None) /\
     GetNode siteRoot fs' "site" "/a/c" = Ok (None, None)).
Proof.
  intros fs'.
  apply (RenameNode_moves siteRoot plainSite fs' "site" "a/c" "b/d").
  - reflexivity.
  - vm_compute. reflexivity.
  - vm_compute. discriminate.
Defined.

Section ChildrenMore.

Implicit Types (fs : tree) (root path rest name : string)
  (es : list (string * tree)) (files : list FileInfo).

(** The loop of [getChildren] as a map over the entries. *)
Lemma getChildrenLoop_closed fs root path files : forall nodes,
  Forall (fun file =>
            succeeds (getNode fs root (Filepath.Join [path; FileName file])))
    files ->
  getChildrenLoop fs root path None files nodes
  = Ok (nodes ++ omap (childNode fs root path) files, None).
Proof.
  induction files as [|file files IH]; intros nodes Hret.
  - simpl. by rewrite app_nil_r.
  - inversion Hret as [|? ? Hfile Hrest]; subst.
    cbn [getChildrenLoop omap list_omap].
    remember (childNode fs root path file) as cn eqn:Hcn.
    unfold childNode in Hcn.
    destruct (getNode fs root (Filepath.Join [path; FileName file]))
      as [[[n|] e]| |]; try done; cbn [bind fst]; subst cn.
    + by rewrite IH, <- app_assoc.
    + destruct (IsDir file); rewrite IH by done; [|done].
      by rewrite <- app_assoc.
Qed.

(** Where nothing climbs, [cleanElems] only drops the empty elements. *)
Lemma cleanElems_plain (r : bool) (l : list string) : forall acc,
  Forall (fun e => e = "" \/ simpleName e) l ->
  Filepath.cleanElems r acc l = rev acc ++ filter (fun e => e <> "") l.
Proof.
  induction l as [|e l IH]; intros acc Hes.
  - simpl. by rewrite app_nil_r.
  - inversion Hes as [|? ? He Hes']; subst. rewrite filter_cons.
    destruct He as [->|(Hs & Hne & Hdot & Hdots)].
    + destruct (decide ("" <> "")) as [Hx|_]; [done|].
      cbn [Filepath.cleanElems]. rewrite decide_True by done. by apply IH.
    + destruct (decide (e <> "")) as [_|Hx]; [|done].
      cbn [Filepath.cleanElems]. rewrite !decide_False by done.
      rewrite IH by done. cbn [rev]. by rewrite <- app_assoc.
Qed.

Lemma filter_plain_simple (l : list string) :
  Forall (fun e => e = "" \/ simpleName e) l ->
  Forall simpleName (filter (fun e => e <> "") l).
Proof.
  induction 1 as [|e l He _ IH]; [constructor|].
  rewrite filter_cons. destruct (decide (e <> "")) as [Hne|]; [|done].
  constructor; [|done]. by destruct He.
Qed.

(** The path of a child, as [getChildren] hands it to [getNode]. *)
Lemma Join_child rest name :
  plainPath rest -> simpleName name ->
  Filepath.Join [String "/" rest; name]
  = "/" +:+ String.concat "/"
              (filter (fun e => e <> "") (GoString.Split rest "/") ++ [name]).
Proof.
  intros Hrest Hname. pose proof Hname as (Hs & Hne & _).
  unfold Filepath.Join.
  rewrite !filter_cons, !decide_True by done. rewrite filter_nil.
  unfold Filepath.Clean.
  rewrite (rooted_concat (String "/" rest) [name] eq_refl).
  unfold Filepath.elems. rewrite Split_concat by done.
  rewrite !fmap_cons, !mjoin_cons. rewrite fmap_nil. simpl mjoin.
  rewrite app_nil_r.
  change (String "/" rest) with ("" +:+ String "/" rest).
  rewrite Split_app. change (GoString.Split "" "/") with [""].
  rewrite (Split_whole _ _ Hs).
  rewrite cleanElems_plain.
  - simpl rev. cbn [app]. rewrite filter_cons.
    rewrite decide_False by (intros H; by apply H).
    rewrite filter_app, (filter_cons _ name), decide_True by done.
    by rewrite filter_nil.
  - apply Forall_app. split.
    + constructor; [by left|done].
    + constructor; [by right|constructor].
Qed.

(** The file [getNode] reads for a child is [node.json] in the entry of
    the child's name in the directory that [getChildren] lists. *)
Lemma child_steps root rest name :
  Filepath.rooted root = true -> plainPath rest -> simpleName name ->
  dataFile root (Filepath.Join [String "/" rest; name]) "node.json"
  = FS.steps (Filepath.Join [root; String "/" rest]) ++ [name; "node.json"].
Proof.
  intros Hroot Hrest Hname. rewrite Join_child by done.
  set (P := filter (fun e => e <> "") (GoString.Split rest "/")).
  unfold dataFile.
  change (GoString.drop 1 ("/" +:+ String.concat "/" (P ++ [name])))
    with (String.concat "/" (P ++ [name])).
  assert (HP : Forall simpleName P) by (by apply filter_plain_simple).
  assert (HPn : Forall simpleName (P ++ [name])).
  { apply Forall_app. split; [done|]. by constructor. }
  rewrite !steps_Join by done.
  rewrite !fmap_cons, !mjoin_cons, fmap_nil. simpl mjoin. rewrite !app_nil_r.
  rewrite Split_concat by (by destruct P).
  rewrite (mjoin_Split_simple _ HPn).
  change (String "/" rest) with ("" +:+ String "/" rest).
  rewrite Split_app. change (GoString.Split "" "/") with [""].
  rewrite !cleanElems_app.
  set (R := Filepath.cleanElems true [] (GoString.Split root "/")).
  change (GoString.Split "node.json" "/") with ["node.json"].
  assert (Hpush : forall acc l, Forall simpleName l ->
            Filepath.cleanElems true acc l = rev acc ++ l).
  { intros acc l Hl. rewrite cleanElems_plain.
    - by rewrite (filter_simple _ Hl).
    - eapply Forall_impl; [exact Hl|]. by right. }
  rewrite (Hpush _ P HP), rev_involutive.
  rewrite (Hpush _ [name]) by (by constructor). rewrite rev_involutive.
  rewrite (Hpush _ ["node.json"])
    by (constructor; [apply simple_node_json|constructor]).
  rewrite rev_involutive.
  rewrite (cleanElems_plain true [""])
    by (constructor; [by left|constructor]).
  rewrite rev_involutive. cbn [filter list_filter].
  rewrite decide_False by (intros H; by apply H). rewrite app_nil_r.
  rewrite cleanElems_plain by done. rewrite rev_involutive. fold P.
  by rewrite <- !app_assoc.
Qed.

Lemma assoc_NoDup name t es :
  NoDup es.*1 -> (name, t) ∈ es -> FS.assoc name es = Some t.
Proof.
  induction es as [|[n u] es IH]; intros Hnd Hin.
  - by apply elem_of_nil in Hin.
  - rewrite fmap_cons in Hnd. apply NoDup_cons in Hnd as [Hn Hnd].
    apply elem_of_cons in Hin as [[= <- <-]|Hin]; simpl.
    + by rewrite decide_True.
    + rewrite decide_False; [by apply IH|].
      intros ->. apply Hn. apply list_elem_of_fmap. by exists (name, t).
Qed.

Lemma omap_filter_dirs (f : FileInfo -> option string) es :
  (forall e, e ∈ es -> OS.isDir e.2 = false -> f (FS.info e) = None) ->
  omap f (FS.info <$> es)
  = omap f (FS.info <$> filter (fun e => OS.isDir e.2 = true) es).
Proof.
  induction es as [|e es IH]; intros Hf; [done|].
  rewrite filter_cons, fmap_cons. cbn [omap list_omap].
  assert (IH' := IH (fun e' He' => Hf e' (list_elem_of_further _ _ _ He'))).
  destruct (decide (OS.isDir e.2 = true)) as [Hd|Hd].
  - rewrite fmap_cons. cbn [omap list_omap]. by rewrite <- IH'.
  - rewrite (Hf e); [exact IH'|by left|by destruct (OS.isDir e.2)].
Qed.

(** X17.  [getChildren] lists the sub-directories and nothing else.
    For a rooted site directory, a path written with the separator in
    front and simple names, and a directory whose entries have simple
    names, each once: the call returns without error one element for each
    entry that is a directory, in the order of the directory (the node
    that [getNode] finds there, or the placeholder of type [core.Path]),
    and no element for an entry that is a file, whatever the file is. *)
Theorem getChildren_lists_directories fs root rest es :
  Filepath.rooted root = true ->
  plainPath rest ->
  FS.walk (FS.steps (Filepath.Join [root; String "/" rest])) fs = inr (Dir es) ->
  Forall (fun e => simpleName e.1) es ->
  NoDup es.*1 ->
  exists nodes,
    getChildren fs root (String "/" rest) = Ok (nodes, None) /\
    nodes = omap (childNode fs root (String "/" rest))
              (FS.info <$> filter (fun e => OS.isDir e.2 = true) es) /\
    length nodes = length (filter (fun e => OS.isDir e.2 = true) es).
Proof.
  intros Hroot Hrest Hdir Hnames Hnd.
  assert (Hnode : forall e, e ∈ es ->
            getNode fs root (Filepath.Join [String "/" rest; e.1])
            = (let '(node, err) :=
                 FS.ReadFile fs
                   (Filepath.Join
                      [root; GoString.drop 1
                               (Filepath.Join [String "/" rest; e.1]);
                       "node.json"]) in
               if IsNotExist err then Ok (None, None)
               else match err with
                    | Some _ => Ok (node, err)
                    | None =>
                        Ok (Bytes.Replace1 (default "" node) "{"
                              (pathJSON (Filepath.Join [String "/" rest; e.1])),
                            None)
                    end) /\
            FS.walk (dataFile root (Filepath.Join [String "/" rest; e.1])
                       "node.json") fs
            = FS.walk ["node.json"] e.2).
  { intros [name t] Hin. cbn [fst snd].
    assert (Hname : simpleName name).
    { by apply (proj1 (Forall_forall _ _) Hnames (name, t)). }
    split.
    - unfold getNode. rewrite slice_from_1, decide_False; [done|].
      rewrite Join_child by done. done.
    - rewrite child_steps by done.
      rewrite walk_app, Hdir. simpl. by rewrite (assoc_NoDup _ _ _ Hnd Hin). }
  assert (Hret : Forall (fun file =>
                   succeeds (getNode fs root
                              (Filepath.Join [String "/" rest; FileName file])))
                   (FS.info <$> es)).
  { apply Forall_fmap, Forall_forall. intros e He. cbn [FS.info FileName compose].
    destruct (Hnode e He) as [-> _].
    destruct (FS.ReadFile fs _) as [node [err|]]; [|done].
    by destruct (IsNotExist (Some err)). }
  assert (Hfiles : forall e, e ∈ es -> OS.isDir e.2 = false ->
            childNode fs root (String "/" rest) (FS.info e) = None).
  { intros e He Hd. unfold childNode. cbn [FS.info FileName IsDir].
    destruct (Hnode e He) as [-> Hw]. unfold dataFile in Hw.
    unfold FS.ReadFile. rewrite Hw.
    destruct e as [name [c|partial errno|es']]; try done. }
  assert (Hdirs : forall e, e ∈ es -> OS.isDir e.2 = true ->
            is_Some (childNode fs root (String "/" rest) (FS.info e))).
  { intros e He Hd. unfold childNode. cbn [FS.info FileName IsDir].
    destruct e as [name [c|partial errno|es']]; try done. cbn [snd].
    destruct (getNode fs root _) as [[[n|] err]| |]; by eexists. }
  eexists. split; [|split; [reflexivity|]].
  - unfold getChildren, FS.ReadDir. rewrite Hdir.
    rewrite (getChildrenLoop_closed _ _ _ _ [] Hret). cbn [app].
    by rewrite (omap_filter_dirs _ es Hfiles).
  - assert (Hsub : forall l, (forall e, e ∈ l -> e ∈ es /\ OS.isDir e.2 = true) ->
              length (omap (childNode fs root (String "/" rest)) (FS.info <$> l))
              = length l).
    { induction l as [|e l IH]; intros Hl; [done|].
      rewrite fmap_cons. cbn [omap list_omap].
      destruct (Hl e (list_elem_of_here _ _)) as [He Hd].
      destruct (Hdirs e He Hd) as [n ->]. cbn [length]. f_equal.
      apply IH. intros e' He'. apply Hl. by right. }
    apply Hsub. intros e He. by apply list_elem_of_filter in He as [Hd He].
Qed.

End ChildrenMore.

(** In [/a] of the site there are the directory [c] and the file
    [node.json]: only [c] is listed. *)
Lemma getChildren_lists_directories_witness :
  exists nodes,
    getChildren plainSite "/srv/site" "/a" = Ok (nodes, None) /\
    nodes = omap (childNode plainSite "/srv/site" "/a")
              (FS.info <$> filter (fun e => OS.isDir e.2 = true)
                 [("c", Dir [("node.json", File documentJSON)]);
                  ("node.json", File documentJSON)]) /\
    length nodes
    = length (filter (fun e => OS.isDir e.2 = true)
                [("c", Dir [("node.json", File documentJSON)]);
                 ("node.json", File documentJSON)]).
Proof.
  apply (getChildren_lists_directories plainSite "/srv/site" "a").
  - reflexivity.
  - unfold plainPath. change (GoString.Split "a" "/") with ["a"].
    apply List.Forall_cons; [right; by repeat split|apply List.Forall_nil].
  - vm_compute. reflexivity.
  - apply List.Forall_cons; [by repeat split|].
    apply List.Forall_cons; [by repeat split|apply List.Forall_nil].
  - simpl. apply NoDup_cons. split; [|apply NoDup_singleton].
    intros H. apply list_elem_of_singleton in H. discriminate H.
Defined.

Section PathMember.

Variable GetSiteNodesPath : string -> string.

Lemma append_assoc (a b c : string) : (a +:+ b) +:+ c = a +:+ (b +:+ c).
Proof.
  induction a as [|x a IH]; [done|].
  change (String x ((a +:+ b) +:+ c) = String x (a +:+ (b +:+ c))).
  by rewrite IH.
Qed.

(** [%q] writes a printable byte of ASCII as JSON does. *)
Lemma quoteByte_escapeByte c :
  printableByte c = true -> Fmt.quoteByte c = JSON.escapeByte c.
Proof.
  unfold printableByte, Fmt.quoteByte, JSON.escapeByte.
  intros H. apply andb_true_iff in H as [H32 H127].
  destruct (decide (c = Fmt.dquote)); [done|].
  destruct (decide (c = Fmt.backslash)); [done|].
  rewrite H32, H127. cbn [andb].
  apply N.leb_le in H32.
  by replace (N_of_ascii c <? 32)%N with false
    by (symmetry; by apply N.ltb_ge).
Qed.

Lemma q_quoted s :
  printableASCII s = true -> Fmt.q s = Fmt.quoted (JSON.escape s).
Proof.
  intros Hs. unfold Fmt.q, Fmt.quoted. do 2 f_equal.
  induction s as [|c s IH]; [done|].
  simpl in Hs. apply andb_true_iff in Hs as [Hc Hs]. simpl.
  by rewrite quoteByte_escapeByte, IH.
Qed.

(** X18.  For a document with at least one member [GetNode] does add
    the path.  For a site with a rooted node directory and a path of
    printable bytes of ASCII: when [WriteNodeData] has written as
    [node.json], where there was no file that cannot be read, the JSON
    text of an object with members, [GetNode] returns the JSON text of the
    object with the member [Path], holding the path asked for, in front of
    the members written. *)
Theorem GetNode_adds_Path fs fs' Site Path m ms :
  Filepath.rooted (GetSiteNodesPath Site) = true ->
  printableASCII Path = true ->
  (forall partial e,
     FS.walk (dataFile (GetSiteNodesPath Site) Path "node.json") fs
     <> inr (Faulty partial e)) ->
  WriteNodeData GetSiteNodesPath Site Path "node.json"
    (JSON.print (JObject (m :: ms))) fs = (Ok tt, fs') ->
  GetNode GetSiteNodesPath fs' Site Path
  = Ok (Some (JSON.print (JObject (("Path", JString Path) :: m :: ms))), None).
Proof.
  intros _ Hpath Hfile Hw.
  rewrite (GetNode_after_WriteNodeData _ _ _ _ _ _ Hw Hfile). do 2 f_equal.
  destruct m as [k v].
  assert (Hshape : exists body,
            JSON.print (JObject ((k, v) :: ms)) = "{" +:+ body /\
            JSON.print (JObject (("Path", JString Path) :: (k, v) :: ms))
            = "{" +:+ Fmt.quoted "Path" +:+ ":"
              +:+ Fmt.quoted (JSON.escape Path) +:+ "," +:+ body).
  { eexists. split; [reflexivity|].
    cbn [JSON.print]. rewrite !append_assoc. reflexivity. }
  destruct Hshape as (body & -> & ->).
  pose proof (Replace1_first_brace "" body (pathJSON Path) eq_refl) as Hr.
  change ("" +:+ "{" +:+ body) with ("{" +:+ body) in Hr.
  change ("" +:+ pathJSON Path +:+ body) with (pathJSON Path +:+ body) in Hr.
  rewrite Hr. unfold pathJSON. rewrite (q_quoted _ Hpath).
  by rewrite !append_assoc.
Qed.

End PathMember.

(** The document of [/a/b] is written on the empty site and read as a
    node. *)
Lemma GetNode_adds_Path_witness :
  GetNode siteRoot
    (WriteNodeData siteRoot "site" "/a/b" "node.json"
       (JSON.print (JObject [("Type", JString "core.Document")])) emptySite).2
    "site" "/a/b"
  = Ok (Some (JSON.print (JObject [("Path", JString "/a/b");
                                   ("Type", JString "core.Document")])),
        None).
Proof.
  apply (GetNode_adds_Path siteRoot emptySite _ "site" "/a/b"
           ("Type", JString "core.Document") []).
  - reflexivity.
  - reflexivity.
  - intros partial e. vm_compute. discriminate.
  - vm_compute. reflexivity.
Defined.
